(** * An HDF5 vector store for Shakespeare: chunking, range index, writer, query

    Shallow embedding of [examples/build_shakespeare_hdf5.py] and
    [examples/shakespeare_hdf5_vectors.py].

    Conventions of the embedding:
    - Python integers are [Z]; list positions and lengths are [nat] where
      stdpp's list functions need them and are converted with [Z.of_nat].
    - A Python call either returns or raises: [outcome].
    - A Python [str] is represented by its UTF-8 encoding, one byte per
      character of [string].  [sub in s] on the encodings is [sub in s] on
      the strings, and [str.strip] removes the encodings of the whitespace
      characters.  [str.lower] and the [str()] of a string read through
      h5py are taken as functions of the environment.
    - The tokenizer, the embedding model, the network and the clock are
      collaborators of the scripts; they are passed in as records or
      functions and never inspected.
    - A finite float32 value is an integer multiple of 2^-149, so finite
      float32 values embed into [Z] by a strictly monotone, odd map: order,
      equality and negation of finite floats are those of [Z].  NaN and
      infinities are outside the model, and so is the rounding of the
      matrix product, which is a field of the numpy interface.
    - [np.argpartition] and [np.argsort] are specified by numpy's
      documented contract ([Numpy]); the order among equal keys is left to
      the implementation, as numpy leaves it. *)

From Stdlib Require Import ZArith Lia.
From stdpp Require Import base list sorting gmap strings pretty.

Local Open Scope Z_scope.

(** ** Python primitives *)

Inductive exn : Type :=
  | AssertionError
  | ValueError
  | IndexError
  | OverflowError
  | RuntimeError
  | FileNotFoundError
  | KeyError
  | AxisError.

Inductive outcome (A : Type) : Type :=
  | Returns (a : A)
  | Raises (e : exn).
Arguments Returns {A} a.
Arguments Raises {A} e.

#[global] Instance outcome_ret : MRet outcome := λ A a, Returns a.
#[global] Instance outcome_bind : MBind outcome := λ A B f m,
  match m with
  | Returns a => f a
  | Raises e => Raises e
  end.

(** Applying a function to a returned value. *)
Definition outcome_map {A B : Type} (f : A → B) (m : outcome A) : outcome B :=
  match m with
  | Returns a => Returns (f a)
  | Raises e => Raises e
  end.

Notation "f <$$> m" := (outcome_map (fmap f) m) (at level 61, left associativity).

Definition len {A : Type} (l : list A) : Z := Z.of_nat (length l).

(** [len(range(start, stop, step))] as CPython computes it. *)
Definition range_len (start stop step : Z) : Z :=
  if 0 <? step then
    (if start <? stop then (stop - start - 1) / step + 1 else 0)
  else if step <? 0 then
    (if stop <? start then (start - stop - 1) / (- step) + 1 else 0)
  else 0.

(** The values of [range(start, stop, step)] for [step <> 0]. *)
Definition py_range (start stop step : Z) : list Z :=
  (λ i : nat, start + Z.of_nat i * step) <$>
    seq 0 (Z.to_nat (range_len start stop step)).

(** [range(start, stop, step)]: a zero step raises [ValueError]. *)
Definition range (start stop step : Z) : outcome (list Z) :=
  if step =? 0 then Raises ValueError else Returns (py_range start stop step).

(** One bound of a slice, adjusted as [PySlice_AdjustIndices] does for a
    positive step: negative bounds count from the end, then clamp. *)
Definition adjust_index (n i : Z) : Z :=
  let i := if i <? 0 then i + n else i in
  if i <? 0 then 0 else if n <? i then n else i.

(** [l[lo:hi]]. *)
Definition py_slice {A : Type} (l : list A) (lo hi : Z) : list A :=
  let lo := adjust_index (len l) lo in
  let hi := adjust_index (len l) hi in
  take (Z.to_nat (hi - lo)) (drop (Z.to_nat lo) l).

(** [l[:hi]]. *)
Definition py_slice_to {A : Type} (l : list A) (hi : Z) : list A :=
  py_slice l 0 hi.

(** The value of a byte. *)
Definition byte_of (c : Ascii.ascii) : Z := Z.of_N (Ascii.N_of_ascii c).

(** The whitespace characters of [str.strip()], by the bytes of their
    encodings: U+0009 to U+000D and U+001C to U+0020 in one byte; U+0085
    and U+00A0 in two; U+1680, U+2000 to U+200A, U+2028, U+2029, U+202F,
    U+205F and U+3000 in three. *)
Definition space1 (c : Z) : bool :=
  (9 <=? c) && (c <=? 13) || (28 <=? c) && (c <=? 32).

Definition space2 (c d : Z) : bool :=
  (c =? 194) && ((d =? 133) || (d =? 160)).

Definition space3 (c d e : Z) : bool :=
  (c =? 225) && (d =? 154) && (e =? 128)
  || (c =? 226) && (d =? 128)
     && ((128 <=? e) && (e <=? 138) || (e =? 168) || (e =? 169) || (e =? 175))
  || (c =? 226) && (d =? 129) && (e =? 159)
  || (c =? 227) && (d =? 128) && (e =? 128).

(** Dropping every whitespace character a byte sequence begins with;
    [w1], [w2] and [w3] recognise the characters of one, two and three
    bytes. *)
Fixpoint lstrip_with (w1 : Z → bool) (w2 : Z → Z → bool) (w3 : Z → Z → Z → bool)
    (s : list Ascii.ascii) : list Ascii.ascii :=
  match s with
  | [] => []
  | c :: s1 =>
      if w1 (byte_of c) then lstrip_with w1 w2 w3 s1
      else
        match s1 with
        | [] => s
        | d :: s2 =>
            if w2 (byte_of c) (byte_of d) then lstrip_with w1 w2 w3 s2
            else
              match s2 with
              | [] => s
              | e :: s3 =>
                  if w3 (byte_of c) (byte_of d) (byte_of e)
                  then lstrip_with w1 w2 w3 s3
                  else s
              end
        end
  end.

(** [s.lstrip()]. *)
Definition lstrip (s : string) : string :=
  String.string_of_list_ascii
    (lstrip_with space1 space2 space3 (String.list_ascii_of_string s)).

(** [s.rstrip()]: the same from the end, each character read backwards. *)
Definition rstrip (s : string) : string :=
  String.string_of_list_ascii
    (rev (lstrip_with space1 (λ c d, space2 d c) (λ c d e, space3 e d c)
            (rev (String.list_ascii_of_string s)))).

(** [s.strip()]. *)
Definition strip (s : string) : string := rstrip (lstrip s).

(** Truth value of a string: non-empty. *)
Definition truthy (s : string) : bool :=
  match s with EmptyString => false | _ => true end.

(** ** The tokenizer, a collaborator *)

Definition token := Z.

(** [encode] is [tokenizer.encode(text, add_special_tokens=False)];
    [decode_clean] is [decode(ids, clean_up_tokenization_spaces=True)];
    [decode_skip] is [decode(ids, skip_special_tokens=True)]. *)
Record Tokenizer : Type := {
  encode : string → list token;
  decode_clean : list token → string;
  decode_skip : list token → string
}.

(** ** Chunking, build_shakespeare_hdf5.py *)

Module BuildScript.

(** The body of [for start in range(0, n, step)] with its [break]. *)
Fixpoint chunk_loop (tokenizer : Tokenizer) (ids : list token) (max_tokens : Z)
    (starts : list Z) (chunks : list (string * Z * Z)) : list (string * Z * Z) :=
  match starts with
  | [] => chunks
  | start :: rest =>
      let n := len ids in
      let end_ := Z.min (start + max_tokens) n in
      let piece_ids := py_slice ids start end_ in
      let piece_text := decode_clean tokenizer piece_ids in
      let chunks := chunks ++ [(piece_text, start, end_)] in
      if n <=? end_ then chunks
      else chunk_loop tokenizer ids max_tokens rest chunks
  end.

Definition chunk_text_by_tokens (tokenizer : Tokenizer) (text : string)
    (max_tokens stride : Z) : outcome (list (string * Z * Z)) :=
  if negb ((0 <? max_tokens) && (0 <=? stride) && (stride <? max_tokens))
  then Raises AssertionError
  else
    let ids := encode tokenizer text in
    let n := len ids in
    if n =? 0 then Returns []
    else
      let step := max_tokens - stride in
      starts ← range 0 n step ;
      Returns (chunk_loop tokenizer ids max_tokens starts []).

(** The token window of a chunk. *)
Definition window (c : string * Z * Z) : Z * Z := (c.1.2, c.2).

End BuildScript.

(** ** Chunking, shakespeare_hdf5_vectors.py *)

(** The body of [for start in range(0, len(ids), step)]. *)
Fixpoint chunk_loop (tokenizer : Tokenizer) (ids : list token) (max_tokens : Z)
    (starts : list Z) (chunks : list string) : list string :=
  match starts with
  | [] => chunks
  | start :: rest =>
      let window := py_slice ids start (start + max_tokens) in
      match window with
      | [] => chunks
      | _ =>
          let chunk_text := strip (decode_skip tokenizer window) in
          let chunks := if truthy chunk_text then chunks ++ [chunk_text] else chunks in
          chunk_loop tokenizer ids max_tokens rest chunks
      end
  end.

Definition chunk_by_tokens (tokenizer : Tokenizer) (text : string)
    (max_tokens overlap : Z) : outcome (list string) :=
  let ids := encode tokenizer text in
  match ids with
  | [] => Returns []
  | _ =>
      let step := if overlap <? max_tokens then max_tokens - overlap else max_tokens in
      starts ← range 0 (len ids) step ;
      Returns (chunk_loop tokenizer ids max_tokens starts [])
  end.

(** ** Arrays, the HDF5 file and the world *)

(** A numpy array of float32: its shape and its cells in row-major order.
    A cell is an integer standing for a finite float32 value through a
    fixed strictly monotone, odd map. *)
Record ndarray : Type := {
  shape : list Z;
  cells : list Z
}.

(** One row of the structured table [/works/index]. *)
Record WorkRec : Type := {
  work_id : Z;
  title : string;
  start_row : Z;
  end_row : Z
}.

Inductive dataset : Type :=
  | DStrings (l : list string)
  | DInt32 (l : list Z)
  | DFloat32 (a : ndarray)
  | DWorksIndex (rows : list WorkRec).

Inductive attr : Type :=
  | AStr (s : string)
  | AInt (z : Z).

(** An HDF5 file: attributes per group path and datasets per path. *)
Record H5File : Type := {
  attrs : gmap string (gmap string attr);
  datasets : gmap string dataset
}.

Definition h5_empty : H5File := {| attrs := ∅; datasets := ∅ |}.

Definition create_dataset (name : string) (d : dataset) (f : H5File) : H5File :=
  {| attrs := attrs f; datasets := <[name := d]> (datasets f) |}.

Definition set_attrs (group : string) (kv : list (string * attr)) (f : H5File) : H5File :=
  {| attrs := <[group := list_to_map kv ∪ default ∅ (attrs f !! group)]> (attrs f);
     datasets := datasets f |}.

(** The file system and standard output. *)
Record World : Type := {
  files : gmap string H5File;
  stdout : list string
}.

Definition path_exists (w : World) (path : string) : bool :=
  bool_decide (is_Some (files w !! path)).

Definition put_file (path : string) (f : H5File) (w : World) : World :=
  {| files := <[path := f]> (files w); stdout := stdout w |}.

Definition print (line : string) (w : World) : World :=
  {| files := files w; stdout := stdout w ++ [line] |}.

Definition in_int32 (z : Z) : bool := (- 2 ^ 31 <=? z) && (z <? 2 ^ 31).
Definition in_int64 (z : Z) : bool := (- 2 ^ 63 <=? z) && (z <? 2 ^ 63).

(** [np.asarray(l, dtype=np.int32)] and [np.int32(z)]: a Python integer
    that does not fit raises [OverflowError]. *)
Definition as_int32 (l : list Z) : outcome (list Z) :=
  if forallb in_int32 l then Returns l else Raises OverflowError.

Definition index_row (rec : WorkRec) : outcome WorkRec :=
  if in_int32 (work_id rec) && in_int64 (start_row rec) && in_int64 (end_row rec)
  then Returns rec else Raises OverflowError.

Fixpoint index_rows (works_index : list WorkRec) : outcome (list WorkRec) :=
  match works_index with
  | [] => Returns []
  | rec :: rest =>
      r ← index_row rec;
      rs ← index_rows rest;
      Returns (r :: rs)
  end.

(** ** The writer, shakespeare_hdf5_vectors.py

    The assertion and the unpacking of [embeddings.shape] come before the
    file is opened; an exception raised inside the [with] block leaves the
    datasets created so far on disk.  The datasets are created with
    [chunks=True]: h5py guesses the chunk shape from the data shape with a
    dimension of zero taken as 1024, and HDF5 lets a chunk exceed a
    dimension whose size is zero, so that an array without rows or without
    columns is written like any other. *)
Definition write_hdf5 (h5_path : string) (all_chunks : list string)
    (all_work_ids : list Z) (embeddings : ndarray)
    (works_index : list WorkRec) (meta : list (string * string))
    (w : World) : outcome () * World :=
  match shape embeddings with
  | [] => (Raises IndexError, w)
  | shape0 :: _ =>
      if negb ((len all_chunks =? shape0) && (shape0 =? len all_work_ids))
      then (Raises AssertionError, w)
      else
        match shape embeddings with
        | [N; D] =>
            let h5 := h5_empty in
            let h5 := set_attrs "meta" (prod_map id AStr <$> meta) h5 in
            let h5 := create_dataset "chunks/text" (DStrings all_chunks) h5 in
            match as_int32 all_work_ids with
            | Raises e => (Raises e, put_file h5_path h5 w)
            | Returns ids =>
                let h5 := create_dataset "chunks/work_id" (DInt32 ids) h5 in
                let h5 := create_dataset "chunks/embedding" (DFloat32 embeddings) h5 in
                match index_rows works_index with
                | Raises e => (Raises e, put_file h5_path h5 w)
                | Returns rows =>
                    let h5 := create_dataset "works/index" (DWorksIndex rows) h5 in
                    (Returns (), put_file h5_path h5 w)
                end
            end
        | _ => (Raises ValueError, w)
        end
  end.

(** ** The builder, shakespeare_hdf5_vectors.py *)

(** Collaborators of [build_if_missing] and [query_hdf5]: the download,
    the splitting of the text into works, the tokenizer, the embedding
    model and the clock; [str.lower]; and [h5_str], the [str] of a string
    element read through h5py (see [load_works_index]). *)
Record Env : Type := {
  download_shakespeare_text : outcome string;
  split_works : string → list (string * string);
  bert_tokenizer : Tokenizer;
  embed_texts : list string → ndarray;
  embed_query : string → string → list Z;
  utcnow : string;
  gutenberg_urls : string;
  str_lower : string → string;
  h5_str : string → string
}.

Record BuildState : Type := {
  all_chunks : list string;
  all_work_ids : list Z;
  works_index : list WorkRec;
  row_cursor : Z
}.

Definition build_init : BuildState :=
  {| all_chunks := []; all_work_ids := []; works_index := []; row_cursor := 0 |}.

(** [enumerate(l)]. *)
Definition enumerate {A : Type} (l : list A) : list (Z * A) :=
  imap (λ i x, (Z.of_nat i, x)) l.

(** One iteration of [for work_id, (title, body) in enumerate(works)]. *)
Definition build_step (tokenizer : Tokenizer) (st : BuildState)
    (item : Z * (string * string)) : outcome BuildState :=
  let '(wid, (ttl, body)) := item in
  chunks ← chunk_by_tokens tokenizer body 256 32;
  match chunks with
  | [] => Returns st
  | _ =>
      let start := row_cursor st in
      let cursor := row_cursor st + len chunks in
      Returns {| all_chunks := all_chunks st ++ chunks;
                 all_work_ids := all_work_ids st ++ replicate (length chunks) wid;
                 works_index := works_index st ++
                   [{| work_id := wid; title := ttl; start_row := start; end_row := cursor |}];
                 row_cursor := cursor |}
  end.

Fixpoint build_loop (tokenizer : Tokenizer) (items : list (Z * (string * string)))
    (st : BuildState) : outcome BuildState :=
  match items with
  | [] => Returns st
  | item :: rest =>
      st' ← build_step tokenizer st item;
      build_loop tokenizer rest st'
  end.

(** The chunking part of [build_if_missing]. *)
Definition build_index (tokenizer : Tokenizer) (works : list (string * string))
  : outcome BuildState :=
  build_loop tokenizer (enumerate works) build_init.

Definition build_meta (env : Env) (embeddings : ndarray) : outcome (list (string * string)) :=
  match shape embeddings with
  | _ :: d :: _ =>
      Returns [("created_at", utcnow env +:+ "Z");
               ("source", gutenberg_urls env);
               ("tokenizer", "bert-base-uncased");
               ("embedder", "sentence-transformers/all-MiniLM-L6-v2");
               ("embed_dim", pretty d);
               ("chunking", "max_tokens=256,overlap=32 (BERT tokenizer)");
               ("note", "Embeddings are unit-normalized; cosine ~ dot product")]
  | _ => Raises IndexError
  end.

Definition build_if_missing (env : Env) (out_path : string) (rebuild : bool)
    (w : World) : outcome () * World :=
  if path_exists w out_path && negb rebuild then
    (Returns (),
     print ("[build] HDF5 already exists at " +:+ out_path +:+ ". Skipping regeneration.") w)
  else
    let w := print "[build] Downloading Shakespeare from Project Gutenberg…" w in
    match download_shakespeare_text env with
    | Raises e => (Raises e, w)
    | Returns text =>
        let w := print "[build] Splitting into works (plays + individual sonnets)…" w in
        let works := split_works env text in
        let w := print ("[build] Found " +:+ pretty (len works) +:+ " works.") w in
        match build_index (bert_tokenizer env) works with
        | Raises e => (Raises e, w)
        | Returns st =>
            let w := print ("[build] Total chunks: " +:+ pretty (len (all_chunks st))) w in
            let w := print "[build] Embedding chunks (L2-normalized)…" w in
            let embeddings := embed_texts env (all_chunks st) in
            match build_meta env embeddings with
            | Raises e => (Raises e, w)
            | Returns meta =>
                let w := print ("[build] Writing HDF5 → " +:+ out_path) w in
                match write_hdf5 out_path (all_chunks st) (all_work_ids st)
                        embeddings (works_index st) meta w with
                | (Raises e, w) => (Raises e, w)
                | (Returns _, w) => (Returns (), print "[build] Done." w)
                end
            end
        end
    end.

(** ** numpy: matrix–vector product, argpartition, argsort

    The three numpy operations the query uses, with the part of their
    behaviour that numpy documents.  [matvec M q] is [M @ q] in float32,
    rounding included; [argpartition a kth] is [np.argpartition(a, kth)];
    [argsort a] is [np.argsort(a)] (default kind, not stable).  Which of
    several equal keys comes first is not part of the contract. *)

(** [a[p]] for a list of positions produced by numpy itself. *)
Definition keys_of (a : list Z) (p : list nat) : list Z :=
  (λ i : nat, a !!! i) <$> p.

(** Position [k] holds the key it would hold in sorted order: no larger key
    before it, no smaller key after it. *)
Definition partitioned (a : list Z) (p : list nat) (k : nat) : Prop :=
  ∀ (i : nat) (vi vk : Z),
    keys_of a p !! i = Some vi → keys_of a p !! k = Some vk →
    ((i ≤ k)%nat → vi ≤ vk) ∧ ((k ≤ i)%nat → vk ≤ vi).

(** A negative [kth] counts from the end. *)
Definition norm_kth (n kth : Z) : Z := if kth <? 0 then kth + n else kth.

Definition argpartition_spec (a : list Z) (kth : Z) (r : outcome (list nat)) : Prop :=
  match r with
  | Returns p =>
      (a = [] ∧ p = []) ∨
      (0 ≤ norm_kth (len a) kth < len a ∧ p ≡ₚ seq 0 (length a) ∧
       partitioned a p (Z.to_nat (norm_kth (len a) kth)))
  | Raises e =>
      e = ValueError ∧ a ≠ [] ∧ ¬ (0 ≤ norm_kth (len a) kth < len a)
  end.

Definition argsort_spec (a : list Z) (p : list nat) : Prop :=
  p ≡ₚ seq 0 (length a) ∧ Sorted Z.le (keys_of a p).

Class Numpy : Type := {
  matvec : list (list Z) → list Z → outcome (list Z);
  argpartition : list Z → Z → outcome (list nat);
  argsort : list Z → list nat;
  matvec_length : ∀ M q s, matvec M q = Returns s → length s = length M;
  matvec_returns : ∀ M q,
    Forall (λ r, length r = length q) M → ∃ s, matvec M q = Returns s;
  argpartition_ok : ∀ a kth, argpartition_spec a kth (argpartition a kth);
  argsort_ok : ∀ a, argsort_spec a (argsort a)
}.

(** [a[idx]] with an integer array [idx]. *)
Fixpoint fancy {A : Type} (a : list A) (idx : list nat) : outcome (list A) :=
  match idx with
  | [] => Returns []
  | i :: rest =>
      match a !! i with
      | None => Raises IndexError
      | Some x => xs ← fancy a rest; Returns (x :: xs)
      end
  end.

(** [-a]. *)
Definition neg (a : list Z) : list Z := Z.opp <$> a.

(** ** Reading the store and querying, shakespeare_hdf5_vectors.py *)

Definition get_dataset (h5 : H5File) (name : string) : outcome dataset :=
  match datasets h5 !! name with
  | Some d => Returns d
  | None => Raises KeyError
  end.

(** One row of [/works/index] as [load_works_index] hands it on:
    [title=str(row["title"])]. *)
Definition load_rec (to_str : string → string) (rec : WorkRec) : WorkRec :=
  {| work_id := work_id rec; title := to_str (title rec);
     start_row := start_row rec; end_row := end_row rec |}.

(** [load_works_index].  [to_str] is [str] applied to a string element
    read through h5py: the string itself where h5py hands back [str], the
    representation [b'...'] of its bytes where it hands back [bytes]. *)
Definition load_works_index (to_str : string → string) (h5 : H5File)
  : outcome (list WorkRec) :=
  d ← get_dataset h5 "works/index";
  match d with
  | DWorksIndex rows => Returns (load_rec to_str <$> rows)
  | _ => Raises ValueError
  end.

Definition lower_char (c : Ascii.ascii) : Ascii.ascii :=
  let n := Ascii.nat_of_ascii c in
  if ((65 <=? n) && (n <=? 90))%nat then Ascii.ascii_of_nat (n + 32) else c.

(** [s.lower()] for a string of ASCII characters, where it maps the
    letters A to Z and nothing else. *)
Fixpoint ascii_lower (s : string) : string :=
  match s with
  | EmptyString => EmptyString
  | String c s' => String (lower_char c) (ascii_lower s')
  end.

(** [sub in s]. *)
Fixpoint contains (sub s : string) : bool :=
  String.prefix sub s ||
  match s with
  | EmptyString => false
  | String _ s' => contains sub s'
  end.

(** [find_work_rows]; [lower] is [str.lower]. *)
Fixpoint find_work_rows (lower : string → string) (works_index : list WorkRec)
    (title_substring : string) : option (Z * Z) :=
  match works_index with
  | [] => None
  | rec :: rest =>
      if contains (lower title_substring) (lower (title rec))
      then Some (start_row rec, end_row rec)
      else find_work_rows lower rest title_substring
  end.

(** The candidate rows: one work's range when a non-empty filter is given,
    every row otherwise. *)
Definition candidate_rows (lower : string → string) (works_idx : list WorkRec)
    (work_filter : option string) (embs : ndarray) : outcome (list Z) :=
  match work_filter with
  | Some flt =>
      if truthy flt then
        match find_work_rows lower works_idx flt with
        | None => Raises ValueError
        | Some (lo, hi) => Returns (py_range lo hi 1)
        end
      else
        match shape embs with
        | [] => Raises IndexError
        | n :: _ => Returns (py_range 0 n 1)
        end
  | None =>
      match shape embs with
      | [] => Raises IndexError
      | n :: _ => Returns (py_range 0 n 1)
      end
  end.

(** Row [i] of a two-dimensional array stored in a file. *)
Definition nd_row (a : ndarray) (i : Z) : outcome (list Z) :=
  match shape a with
  | [N; D] =>
      if (0 <=? i) && (i <? N)
      then Returns (take (Z.to_nat D) (drop (Z.to_nat (i * D)) (cells a)))
      else Raises IndexError
  | _ => Raises IndexError
  end.

(** [embs[sl, :]]. *)
Fixpoint read_rows (embs : ndarray) (sl : list Z) : outcome (list (list Z)) :=
  match sl with
  | [] => Returns []
  | i :: rest =>
      r ← nd_row embs i;
      rs ← read_rows embs rest;
      Returns (r :: rs)
  end.

(** [scores[lo:hi] = s] for a slice inside the array. *)
Definition assign_slice (scores : list Z) (lo hi : Z) (s : list Z) : outcome (list Z) :=
  if len (py_slice scores lo hi) =? len s
  then Returns (list_inserts (Z.to_nat (adjust_index (len scores) lo)) s scores)
  else Raises ValueError.

Definition block : Z := 131072.

(** The body of [for i in range(0, rows.shape[0], block)]. *)
Fixpoint scan_loop `{Numpy} (embs : ndarray) (qv : list Z) (rows : list Z)
    (starts : list Z) (scores : list Z) : outcome (list Z) :=
  match starts with
  | [] => Returns scores
  | i :: rest =>
      let sl := py_slice rows i (i + block) in
      M ← read_rows embs sl;
      s ← matvec M qv;
      scores ← assign_slice scores i (i + len sl) s;
      scan_loop embs qv rows rest scores
  end.

(** The blocked scan; [np.empty] is modelled by zeros, every cell is
    overwritten. *)
Definition scan_scores `{Numpy} (embs : ndarray) (qv : list Z) (rows : list Z)
  : outcome (list Z) :=
  let scores := replicate (length rows) 0 in
  starts ← range 0 (len rows) block;
  scan_loop embs qv rows starts scores.

(** Top-k: [argpartition] of the negated scores, then an exact sort of the
    [k] selected positions. *)
Definition top_k_select `{Numpy} (scores : list Z) (top_k : Z) : outcome (list nat) :=
  let k := Z.min top_k (len scores) in
  p ← argpartition (neg scores) (k - 1);
  let idx := py_slice_to p k in
  sub ← fancy scores idx;
  fancy idx (argsort (neg sub)).

Record Hit : Type := {
  rank : Z;
  score : Z;
  row : Z;
  hit_work_id : Z;
  work_title : string;
  hit_text : string
}.

(** A scalar read [dset[row]] from a one-dimensional dataset. *)
Definition h5_item {A : Type} (l : list A) (i : Z) : outcome A :=
  if 0 <=? i then
    match l !! Z.to_nat i with
    | Some x => Returns x
    | None => Raises IndexError
    end
  else Raises IndexError.

(** [next((rec["title"] for rec in works_idx if rec["work_id"] == wid), default)]. *)
Fixpoint title_of (works_idx : list WorkRec) (wid : Z) : string :=
  match works_idx with
  | [] => "work_id=" +:+ pretty wid
  | rec :: rest => if work_id rec =? wid then title rec else title_of rest wid
  end.

(** The body of [for rank, i_local in enumerate(idx, start=1)];
    [text=str(texts[row])] with [to_str] as in [load_works_index]. *)
Fixpoint collect (to_str : string → string) (rows scores : list Z) (work_ids : list Z)
    (texts : list string) (works_idx : list WorkRec) (rnk : Z) (idx : list nat)
  : outcome (list Hit) :=
  match idx with
  | [] => Returns []
  | i_local :: rest =>
      r ← h5_item rows (Z.of_nat i_local);
      sc ← h5_item scores (Z.of_nat i_local);
      wid ← h5_item work_ids r;
      txt ← h5_item texts r;
      hits ← collect to_str rows scores work_ids texts works_idx (rnk + 1) rest;
      Returns ({| rank := rnk; score := sc; row := r; hit_work_id := wid;
                  work_title := title_of works_idx wid; hit_text := to_str txt |} :: hits)
  end.

Definition query_hdf5 `{Numpy} (env : Env) (h5_path query_text : string) (top_k : Z)
    (work_filter : option string) (model_name : string) (w : World)
  : outcome (list Hit) :=
  match files w !! h5_path with
  | None => Raises FileNotFoundError
  | Some h5 =>
      let qv := embed_query env model_name query_text in
      d_embs ← get_dataset h5 "chunks/embedding";
      d_texts ← get_dataset h5 "chunks/text";
      d_ids ← get_dataset h5 "chunks/work_id";
      works_idx ← load_works_index (h5_str env) h5;
      match d_embs, d_texts, d_ids with
      | DFloat32 embs, DStrings texts, DInt32 work_ids =>
          rows ← candidate_rows (str_lower env) works_idx work_filter embs;
          scores ← scan_scores embs qv rows;
          idx ← top_k_select scores top_k;
          collect (h5_str env) rows scores work_ids texts works_idx 1 idx
      | _, _, _ => Raises ValueError
      end
  end.

(** ** Persisting and the command line, build_shakespeare_hdf5.py *)

Module BuildMain.

Record Env : Type := {
  download_gutenberg_text : Z → outcome (string * string);
  strip_gutenberg_boilerplate : string → string;
  load_tokenizer : string → Tokenizer;
  embed_texts : string → list string → ndarray;
  normalized_cells : ndarray → list Z;
  utcnow : string
}.

(** [l2_normalize_rows].  [np.linalg.norm(x, axis=1, keepdims=True)]
    raises numpy's [AxisError] (a [ValueError] and an [IndexError]) on an
    array of fewer than two dimensions; on any other array [x / norms] has
    the shape of [x].  The arithmetic on the cells is the environment's
    [normalized_cells]. *)
Definition l2_normalize_rows (env : Env) (x : ndarray) : outcome ndarray :=
  match shape x with
  | _ :: _ :: _ => Returns {| shape := shape x; cells := normalized_cells env x |}
  | _ => Raises AxisError
  end.

Record Args : Type := {
  gutenberg_id : Z;
  title : string;
  out : string;
  model : string;
  max_tokens : Z;
  stride : Z
}.

Definition about : string :=
  "Vector DB persisted in HDF5: embeddings, a flat cosine index (normalized vectors), and UTF-8 metadata for each chunk.".

Definition license_hint : string :=
  "Project Gutenberg public domain texts. See the Gutenberg site for terms and keep headers/attribution when redistributing.".

(** [f.create_dataset(name, data=a, chunks=(min(a.shape[0], 1024), a.shape[1]), ...)].
    The chunk shape is computed first and needs two dimensions of [a];
    h5py then refuses a chunk shape whose rank is not that of the data, and
    a chunk dimension of zero. *)
Definition create_chunked (name : string) (a : ndarray) (f : H5File) : outcome H5File :=
  match shape a with
  | [n; d] =>
      if (Z.min n 1024 =? 0) || (d =? 0) then Raises ValueError
      else Returns (create_dataset name (DFloat32 a) f)
  | _ :: _ :: _ => Raises ValueError
  | _ => Raises IndexError
  end.

(** The file is opened (and truncated) first; what is raised after that
    leaves the datasets created so far. *)
Definition persist_to_hdf5 (out_path : string) (embeddings embeddings_normed : ndarray)
    (texts : list string) (doc_ids : list Z) (titles source_urls : list string)
    (start_tokens end_tokens : list Z) (model_name : string) (model_dim : Z)
    (license : string) (now : string) (w : World) : outcome () * World :=
  let f := h5_empty in
  match create_chunked "embeddings" embeddings f with
  | Raises e => (Raises e, put_file out_path f w)
  | Returns f =>
      match create_chunked "embeddings_normed" embeddings_normed f with
      | Raises e => (Raises e, put_file out_path f w)
      | Returns f =>
          let f := create_dataset "texts" (DStrings texts) f in
          let f := create_dataset "title" (DStrings titles) f in
          let f := create_dataset "source_url" (DStrings source_urls) f in
          match as_int32 doc_ids with
          | Raises e => (Raises e, put_file out_path f w)
          | Returns ids =>
              let f := create_dataset "doc_id" (DInt32 ids) f in
              match as_int32 start_tokens with
              | Raises e => (Raises e, put_file out_path f w)
              | Returns starts =>
                  let f := create_dataset "start_token" (DInt32 starts) f in
                  match as_int32 end_tokens with
                  | Raises e => (Raises e, put_file out_path f w)
                  | Returns ends =>
                      let f := create_dataset "end_token" (DInt32 ends) f in
                      let f := set_attrs "/"
                                 [("created_at_utc", AStr now);
                                  ("embedding_model", AStr model_name);
                                  ("embedding_dim", AInt model_dim);
                                  ("index_type", AStr "flat_cosine");
                                  ("license_hint", AStr license);
                                  ("about", AStr about)] f in
                      (Returns (), put_file out_path f w)
                  end
              end
          end
      end
  end.

(** [main] up to its final "Done."; the optional query demonstration that
    follows reads the file just written. *)
Definition main (env : Env) (args : Args) (w : World) : outcome () * World :=
  let w := print ("Downloading Gutenberg ebook #" +:+ pretty (gutenberg_id args) +:+ " ...") w in
  match download_gutenberg_text env (gutenberg_id args) with
  | Raises e => (Raises e, w)
  | Returns (raw_text, url_used) =>
      let cleaned := strip_gutenberg_boilerplate env raw_text in
      let w := print ("Loading embedding model: " +:+ model args) w in
      let hf_tokenizer := load_tokenizer env (model args) in
      let w := print ("Chunking text (max_tokens=" +:+ pretty (max_tokens args) +:+
                      ", stride=" +:+ pretty (stride args) +:+ ") ...") w in
      match BuildScript.chunk_text_by_tokens hf_tokenizer cleaned
              (max_tokens args) (stride args) with
      | Raises e => (Raises e, w)
      | Returns chunks =>
          if len chunks =? 0 then (Raises RuntimeError, w)
          else
            let texts := (λ c : string * Z * Z, c.1.1) <$> chunks in
            let start_tokens := (λ c : string * Z * Z, c.1.2) <$> chunks in
            let end_tokens := (λ c : string * Z * Z, c.2) <$> chunks in
            let doc_ids := replicate (length chunks) (gutenberg_id args) in
            let titles := replicate (length chunks) (title args) in
            let source_urls := replicate (length chunks) url_used in
            let w := print ("Embedding " +:+ pretty (len texts) +:+ " chunks ...") w in
            let embeddings := embed_texts env (model args) texts in
            match l2_normalize_rows env embeddings with
            | Raises e => (Raises e, w)
            | Returns embeddings_normed =>
                let w := print ("Writing HDF5 to " +:+ out args +:+ " ...") w in
                match shape embeddings with
                | _ :: d :: _ =>
                    match persist_to_hdf5 (out args) embeddings embeddings_normed texts
                            doc_ids titles source_urls start_tokens end_tokens
                            (model args) d license_hint (utcnow env +:+ "Z") w with
                    | (Raises e, w) => (Raises e, w)
                    | (Returns _, w) => (Returns (), print "Done." w)
                    end
                | _ => (Raises IndexError, w)
                end
            end
      end
  end.

End BuildMain.

(** ** A full sort, the reference of the top-k selection

    What the specification compares the query with: every candidate is
    scored at once and the candidates are sorted completely by descending
    score, equal scores in ascending position. *)

(** Ascending key, then ascending position. *)
Definition key_pos_le (a : list Z) (i j : nat) : Prop :=
  a !!! i < a !!! j ∨ (a !!! i = a !!! j ∧ (i ≤ j)%nat).

#[global] Instance key_pos_le_dec a i j : Decision (key_pos_le a i j).
Proof. unfold key_pos_le. apply _. Defined.

Definition argsort_stable (a : list Z) : list nat :=
  merge_sort (key_pos_le a) (seq 0 (length a)).


(** ** numpy's scalar code paths, an instance of the interface

    [dumb_select] is the selection numpy's introselect runs for the first
    positions; it is used here for every [kth].  The sort is the stable
    order, which is what numpy's insertion sort of short arrays yields.
    The product is exact. *)

(** The inner loop of [dumb_select]: the position of the first smallest key. *)
Fixpoint min_scan (v : list Z) (rest : list nat) (k minidx : nat) (minval : Z) : nat :=
  match rest with
  | [] => minidx
  | x :: rest' =>
      if v !!! x <? minval then min_scan v rest' (S k) k (v !!! x)
      else min_scan v rest' (S k) minidx minval
  end.

(** [count] rounds of the outer loop on the positions not yet placed. *)
Fixpoint dumb_select (v : list Z) (tosort : list nat) (count : nat) : list nat :=
  match count, tosort with
  | S count', x :: rest =>
      match min_scan v rest 1 0 (v !!! x) with
      | O => x :: dumb_select v rest count'
      | S m => (rest !!! m) :: dumb_select v (<[m := x]> rest) count'
      end
  | _, _ => tosort
  end.

Definition argpartition_scalar (a : list Z) (kth : Z) : outcome (list nat) :=
  match a with
  | [] => Returns []
  | _ =>
      let k := norm_kth (len a) kth in
      if (0 <=? k) && (k <? len a)
      then Returns (dumb_select a (seq 0 (length a)) (S (Z.to_nat k)))
      else Raises ValueError
  end.

Definition dot (r q : list Z) : Z := foldr Z.add 0 (zip_with Z.mul r q).

Definition matvec_exact (M : list (list Z)) (q : list Z) : outcome (list Z) :=
  if forallb (λ r, (length r =? length q)%nat) M
  then Returns ((λ r, dot r q) <$> M)
  else Raises ValueError.

(** ** The windows the specification describes

    The [i]-th window is [[i·step, min(i·step + max_tokens, n))] with
    [step = max_tokens − overlap]; the last window is the first one whose
    end reaches [n]. *)

Definition spec_window_count (n max_tokens step : Z) : nat :=
  if n <=? 0 then 0%nat
  else if n <=? max_tokens then 1%nat
  else Z.to_nat ((n - max_tokens + step - 1) / step + 1).

Definition spec_window (n max_tokens step : Z) (i : nat) : Z * Z :=
  (Z.of_nat i * step, Z.min (Z.of_nat i * step + max_tokens) n).

Definition spec_windows (n max_tokens overlap : Z) : list (Z * Z) :=
  let step := max_tokens - overlap in
  spec_window n max_tokens step <$> seq 0 (spec_window_count n max_tokens step).

(** ** Properties of a range index *)

Definition covers (rec : WorkRec) (r : Z) : Prop :=
  start_row rec ≤ r < end_row rec.

(** Some entry of the range index carries the work id. *)
Definition covered (works_idx : list WorkRec) (wid : Z) : Prop :=
  ∃ rec, rec ∈ works_idx ∧ work_id rec = wid.

(** ** A well-formed store *)

Record StoreOk (h5 : H5File) (embs : ndarray) (texts : list string)
    (work_ids : list Z) (works_idx : list WorkRec) (N D : Z) : Prop := {
  ok_embedding : datasets h5 !! "chunks/embedding" = Some (DFloat32 embs);
  ok_text : datasets h5 !! "chunks/text" = Some (DStrings texts);
  ok_work_id : datasets h5 !! "chunks/work_id" = Some (DInt32 work_ids);
  ok_index : datasets h5 !! "works/index" = Some (DWorksIndex works_idx);
  ok_shape : shape embs = [N; D];
  ok_cells : len (cells embs) = N * D;
  ok_dim : 0 ≤ D;
  ok_texts : len texts = N;
  ok_ids : len work_ids = N
}.

(** ** Fixtures: a character tokenizer and small stores *)

(** One token per character; token 0 is the padding token, which
    [decode_skip] leaves out. *)
Definition char_encode (s : string) : list token :=
  (λ c, Z.of_nat (Ascii.nat_of_ascii c)) <$> String.list_ascii_of_string s.

Definition char_decode (ids : list token) : string :=
  String.string_of_list_ascii ((λ z, Ascii.ascii_of_nat (Z.to_nat z)) <$> ids).

Definition char_tokenizer : Tokenizer :=
  {| encode := char_encode;
     decode_clean := char_decode;
     decode_skip := λ ids, char_decode (filter (λ z, z ≠ 0) ids) |}.

Fixpoint repeat_char (n : nat) (c : Ascii.ascii) : string :=
  match n with
  | O => EmptyString
  | S n' => String c (repeat_char n' c)
  end.

Definition letter_a : Ascii.ascii := Ascii.ascii_of_nat 97.
Definition pad_text : string := String (Ascii.ascii_of_nat 0) EmptyString.

Definition empty_world : World := {| files := ∅; stdout := [] |}.

(** Three unit vectors, the first two equal, in one work, and a second
    work whose range is empty. *)
Definition tie_embeddings : ndarray :=
  {| shape := [3; 2]; cells := [1; 0; 1; 0; 0; 1] |}.

Definition tie_index : list WorkRec :=
  [{| work_id := 0; title := "Play"; start_row := 0; end_row := 3 |};
   {| work_id := 1; title := "Epilogue"; start_row := 3; end_row := 3 |}].

Definition tie_store : H5File :=
  {| attrs := ∅;
     datasets :=
       <["chunks/embedding" := DFloat32 tie_embeddings]>
       (<["chunks/text" := DStrings ["first"; "second"; "third"]]>
       (<["chunks/work_id" := DInt32 [0; 0; 0]]>
       (<["works/index" := DWorksIndex tie_index]> ∅))) |}.

Definition tie_world : World :=
  {| files := <["tie.h5" := tie_store]> ∅; stdout := [] |}.

Definition unit_env : Env :=
  {| download_shakespeare_text := Raises RuntimeError;
     split_works := λ _, [];
     bert_tokenizer := char_tokenizer;
     embed_texts := λ l, {| shape := [len l; 1]; cells := replicate (length l) 1 |};
     embed_query := λ _ _, [0; 1];
     utcnow := "2025-01-01T00:00:00";
     gutenberg_urls := "";
     str_lower := ascii_lower;
     h5_str := id |}.

(** U+00A0, the no-break space, in its two bytes. *)
Definition no_break_space : string :=
  String (Ascii.ascii_of_nat 194) (String (Ascii.ascii_of_nat 160) EmptyString).

(** [str] of the bytes of a string of printable ASCII characters without
    quote or backslash: what [str] gives for a stored string where h5py
    hands it back as [bytes]. *)
Definition bytes_repr (s : string) : string := "b'" +:+ s +:+ "'".

(** The environment of [unit_env] with such an h5py. *)
Definition repr_env : Env :=
  {| download_shakespeare_text := Raises RuntimeError;
     split_works := λ _, [];
     bert_tokenizer := char_tokenizer;
     embed_texts := λ l, {| shape := [len l; 1]; cells := replicate (length l) 1 |};
     embed_query := λ _ _, [0; 1];
     utcnow := "2025-01-01T00:00:00";
     gutenberg_urls := "";
     str_lower := ascii_lower;
     h5_str := bytes_repr |}.

(** ** The chunk a window yields *)

Definition chunk_at (tokenizer : Tokenizer) (ids : list token)
    (max_tokens step : Z) (i : nat) : string * Z * Z :=
  let w := spec_window (len ids) max_tokens step i in
  (decode_clean tokenizer (py_slice ids w.1 w.2), w.1, w.2).

(** The text [chunk_by_tokens] derives from the window starting at [start]. *)
Definition window_text (tokenizer : Tokenizer) (ids : list token)
    (max_tokens start : Z) : string :=
  strip (decode_skip tokenizer (py_slice ids start (start + max_tokens))).

(** What one iteration of the builder leaves behind for a work whose
    chunks are [chunks]. *)
Definition after_work (st : BuildState) (wid : Z) (ttl : string)
    (chunks : list string) : BuildState :=
  match chunks with
  | [] => st
  | _ =>
      {| all_chunks := all_chunks st ++ chunks;
         all_work_ids := all_work_ids st ++ replicate (length chunks) wid;
         works_index := works_index st ++
           [{| work_id := wid; title := ttl; start_row := row_cursor st;
               end_row := row_cursor st + len chunks |}];
         row_cursor := row_cursor st + len chunks |}
  end.

(** The invariant of the builder's loop. *)
Definition index_inv (st : BuildState) : Prop :=
  row_cursor st = len (all_chunks st) ∧
  len (all_work_ids st) = len (all_chunks st) ∧
  Forall (λ rec, 0 ≤ start_row rec < end_row rec ∧ end_row rec ≤ row_cursor st)
      (works_index st) ∧
  StronglySorted (λ a b, end_row a ≤ start_row b) (works_index st) ∧
  ∀ r, 0 ≤ r < row_cursor st →
    ∃ rec, rec ∈ works_index st ∧ covers rec r ∧
           all_work_ids st !! Z.to_nat r = Some (work_id rec).

(** The file [write_hdf5] leaves behind when it returns. *)
Definition written_file (all_chunks : list string) (all_work_ids : list Z)
    (embeddings : ndarray) (works_index : list WorkRec)
    (meta : list (string * string)) : H5File :=
  create_dataset "works/index" (DWorksIndex works_index)
    (create_dataset "chunks/embedding" (DFloat32 embeddings)
      (create_dataset "chunks/work_id" (DInt32 all_work_ids)
        (create_dataset "chunks/text" (DStrings all_chunks)
          (set_attrs "meta" (prod_map id AStr <$> meta) h5_empty)))).

Definition index_row_fits (rec : WorkRec) : Prop :=
  in_int32 (work_id rec) ∧ in_int64 (start_row rec) ∧ in_int64 (end_row rec).

Definition skip_message (out_path : string) : string :=
  "[build] HDF5 already exists at " +:+ out_path +:+ ". Skipping regeneration.".

(** A build-script environment whose download yields a text without tokens. *)
Definition blank_env : BuildMain.Env :=
  {| BuildMain.download_gutenberg_text := λ _, Returns (EmptyString, "http://example.org/100.txt");
     BuildMain.strip_gutenberg_boilerplate := λ t, t;
     BuildMain.load_tokenizer := λ _, char_tokenizer;
     BuildMain.embed_texts := λ _ l, {| shape := [len l; 1]; cells := replicate (length l) 1 |};
     BuildMain.normalized_cells := cells;
     BuildMain.utcnow := "2025-01-01T00:00:00" |}.

Definition default_args : BuildMain.Args :=
  {| BuildMain.gutenberg_id := 100;
     BuildMain.title := "The Complete Works of William Shakespeare";
     BuildMain.out := "data/shakespeare.h5";
     BuildMain.model := "sentence-transformers/all-MiniLM-L6-v2";
     BuildMain.max_tokens := 256;
     BuildMain.stride := 64 |}.

(** An environment in which the build of one short work goes through. *)
Definition one_work_env : Env :=
  {| download_shakespeare_text := Returns "to be";
     split_works := λ t, [("Hamlet", t)];
     bert_tokenizer := char_tokenizer;
     embed_texts := λ l, {| shape := [len l; 1]; cells := replicate (length l) 1 |};
     embed_query := λ _ _, [1];
     utcnow := "2025-01-01T00:00:00";
     gutenberg_urls := "";
     str_lower := ascii_lower;
     h5_str := id |}.

(** ** What the top-k selection guarantees

    [sel] holds [k] distinct positions of [scores], in descending score
    order, and no position left out scores higher than one taken. *)
Record TopK (scores : list Z) (k : nat) (sel : list nat) : Prop := {
  topk_length : length sel = k;
  topk_nodup : NoDup sel;
  topk_bound : Forall (λ i, (i < length scores)%nat) sel;
  topk_descending : Sorted (λ x y, y ≤ x) (keys_of scores sel);
  topk_dominates : ∀ i j : nat,
    i ∈ sel → (j < length scores)%nat → j ∉ sel → scores !!! j ≤ scores !!! i
}.

(** ** The tie-break the specification asks for

    Of two candidates with equal scores the one with the lower row is
    never passed over: if the higher row is among the hits, the lower row
    is too, and earlier. *)
Definition lower_row_first (rows scores : list Z) (hits : list Hit) : Prop :=
  ∀ (i j : nat) (ri rj s : Z),
    rows !! i = Some ri → rows !! j = Some rj →
    scores !! i = Some s → scores !! j = Some s →
    ri < rj → rj ∈ row <$> hits →
    ∃ a b : nat, (a < b)%nat ∧
      (row <$> hits) !! a = Some ri ∧ (row <$> hits) !! b = Some rj.

(** The two hits the scalar numpy returns on [tie_store] for [k = 2]. *)
Definition tie_hits : list Hit :=
  [{| rank := 1; score := 1; row := 2; hit_work_id := 0;
      work_title := "Play"; hit_text := "third" |};
   {| rank := 2; score := 0; row := 1; hit_work_id := 0;
      work_title := "Play"; hit_text := "second" |}].

(** ** Title matching *)

(** The lower-cased title holds the lower-cased filter as a contiguous
    substring. *)
Definition title_matches (lower : string → string) (title_substring : string)
    (rec : WorkRec) : Prop :=
  ∃ pre post, lower (title rec) = pre +:+ lower title_substring +:+ post.

(** ** What the builder computes, work by work *)

(** The chunks of one work, as [build_if_missing] asks for them. *)
Definition work_chunks (tokenizer : Tokenizer) (body : string) : list string :=
  match chunk_by_tokens tokenizer body 256 32 with
  | Returns chunks => chunks
  | Raises _ => []
  end.

(** The index entries of the works [ws], the first of which has id [base]
    and starts at row [cursor]. *)
Fixpoint index_entries (tokenizer : Tokenizer) (base : nat) (cursor : Z)
    (ws : list (string * string)) : list WorkRec :=
  match ws with
  | [] => []
  | (ttl, body) :: ws' =>
      match work_chunks tokenizer body with
      | [] => index_entries tokenizer (S base) cursor ws'
      | chunks =>
          {| work_id := Z.of_nat base; title := ttl; start_row := cursor;
             end_row := cursor + len chunks |}
          :: index_entries tokenizer (S base) (cursor + len chunks) ws'
      end
  end.

(** The work id of every row of the works [ws]. *)
Fixpoint row_ids (tokenizer : Tokenizer) (base : nat) (ws : list (string * string))
  : list Z :=
  match ws with
  | [] => []
  | (_, body) :: ws' =>
      replicate (length (work_chunks tokenizer body)) (Z.of_nat base)
      ++ row_ids tokenizer (S base) ws'
  end.

(** An environment whose download fails. *)
Definition offline_env : Env :=
  {| download_shakespeare_text := Raises RuntimeError;
     split_works := λ t, [("Hamlet", t)];
     bert_tokenizer := char_tokenizer;
     embed_texts := λ l, {| shape := [len l; 1]; cells := replicate (length l) 1 |};
     embed_query := λ _ _, [1];
     utcnow := "2025-01-01T00:00:00";
     gutenberg_urls := "";
     str_lower := ascii_lower;
     h5_str := id |}.

(** ** Downloading from Project Gutenberg, build_shakespeare_hdf5.py *)

Module Gutenberg.

(** What [requests.get] hands back: [resp.ok] and [resp.text]. *)
Record Response : Type := {
  ok : bool;
  text : string
}.

Definition candidate_gutenberg_urls (gutenberg_id : Z) : list string :=
  let gid := pretty gutenberg_id in
  ["https://www.gutenberg.org/ebooks/" +:+ gid +:+ ".txt.utf-8";
   "https://www.gutenberg.org/files/" +:+ gid +:+ "/" +:+ gid +:+ "-0.txt";
   "https://www.gutenberg.org/files/" +:+ gid +:+ "/" +:+ gid +:+ ".txt";
   "https://www.gutenberg.org/cache/epub/" +:+ gid +:+ "/pg" +:+ gid +:+ ".txt";
   "https://www.gutenberg.org/cache/epub/" +:+ gid +:+ "/pg" +:+ gid +:+ ".txt.utf8"].

(** The body of [for url in candidate_gutenberg_urls(gutenberg_id)]: an
    exception of the request is caught and the next address is tried. *)
Fixpoint download_loop (get : string → outcome Response) (urls : list string)
  : outcome (string * string) :=
  match urls with
  | [] => Raises RuntimeError
  | url :: rest =>
      match get url with
      | Returns resp =>
          if ok resp && truthy (text resp) then Returns (text resp, url)
          else download_loop get rest
      | Raises _ => download_loop get rest
      end
  end.

Definition download_gutenberg_text (get : string → outcome Response) (gutenberg_id : Z)
  : outcome (string * string) :=
  download_loop get (candidate_gutenberg_urls gutenberg_id).

(** The request at [url] yields a text the loop accepts. *)
Definition served (get : string → outcome Response) (url : string) (txt : string) : Prop :=
  ∃ resp, get url = Returns resp ∧ ok resp = true ∧ text resp = txt ∧ txt ≠ EmptyString.

End Gutenberg.

(** ** The query demonstration, build_shakespeare_hdf5.py *)

Module BuildQuery.

Record Result : Type := {
  score : Z;
  title : string;
  source_url : string;
  text : string
}.

(** [f["embeddings_normed"][:]] as the list of its rows.  The model covers
    a two-dimensional array; for another rank the product below has
    another rank too, and nothing is stated about that case. *)
Definition nd_matrix (a : ndarray) : outcome (list (list Z)) :=
  match shape a with
  | [N; _] => read_rows a (py_range 0 N 1)
  | _ => Raises ValueError
  end.

(** [l[lo:]]. *)
Definition py_slice_from {A : Type} (l : list A) (lo : Z) : list A :=
  py_slice l lo (len l).

(** [idx = np.argpartition(sims, -k)[-k:]] and
    [idx = idx[np.argsort(-sims[idx])]]. *)
Definition topk_indices `{Numpy} (sims : list Z) (k : Z) : outcome (list nat) :=
  p ← argpartition sims (- k);
  let idx := py_slice_from p (- k) in
  sub ← fancy sims idx;
  fancy idx (argsort (neg sub)).

(** [a[i]] for a position numpy produced. *)
Definition item {A : Type} (a : list A) (i : nat) : outcome A :=
  match a !! i with
  | Some x => Returns x
  | None => Raises IndexError
  end.

(** The body of [for i in idx].  [to_str] is [str] applied to an element
    read from a variable-length string dataset: the string itself, or the
    representation of its bytes, as the installed h5py reads such
    elements. *)
Fixpoint results_of (to_str : string → string) (sims : list Z)
    (titles source_urls texts : list string) (idx : list nat) : outcome (list Result) :=
  match idx with
  | [] => Returns []
  | i :: rest =>
      s ← item sims i;
      t ← item titles i;
      u ← item source_urls i;
      x ← item texts i;
      rs ← results_of to_str sims titles source_urls texts rest;
      Returns ({| score := s; title := to_str t; source_url := to_str u;
                  text := to_str x |} :: rs)
  end.

(** [encode_query] is the query's embedding divided by its norm. *)
Definition topk_cosine_from_hdf5 `{Numpy} (encode_query : string → list Z)
    (to_str : string → string) (h5_path query : string) (k : Z) (w : World)
  : outcome (list Result) :=
  match files w !! h5_path with
  | None => Raises FileNotFoundError
  | Some f =>
      d_emb ← get_dataset f "embeddings_normed";
      d_texts ← get_dataset f "texts";
      d_titles ← get_dataset f "title";
      d_urls ← get_dataset f "source_url";
      match d_emb, d_texts, d_titles, d_urls with
      | DFloat32 emb_normed, DStrings texts, DStrings titles, DStrings source_urls =>
          M ← nd_matrix emb_normed;
          let q := encode_query query in
          sims ← matvec M q;
          idx ← topk_indices sims k;
          results_of to_str sims titles source_urls texts idx
      | _, _, _, _ => Raises ValueError
      end
  end.

(** How many results a [k] inside the accepted interval gives. *)
Definition result_count (n k : Z) : nat :=
  Z.to_nat (if 0 <? k then k else n + k).

End BuildQuery.

(** ** A well-formed flat store

    What [persist_to_hdf5] is meant to leave behind, as far as the query
    demonstration reads it. *)
Record FlatStoreOk (f : H5File) (emb : ndarray) (texts titles source_urls : list string)
    (N D : Z) : Prop := {
  flat_embedding : datasets f !! "embeddings_normed" = Some (DFloat32 emb);
  flat_texts : datasets f !! "texts" = Some (DStrings texts);
  flat_title : datasets f !! "title" = Some (DStrings titles);
  flat_source_url : datasets f !! "source_url" = Some (DStrings source_urls);
  flat_shape : shape emb = [N; D];
  flat_cells : len (cells emb) = N * D;
  flat_dim : 0 ≤ D;
  flat_texts_len : len texts = N;
  flat_title_len : len titles = N;
  flat_source_url_len : len source_urls = N
}.

(** The result read off position [i]. *)
Definition result_at (to_str : string → string) (sims : list Z)
    (titles source_urls texts : list string) (i : nat) : BuildQuery.Result :=
  {| BuildQuery.score := sims !!! i;
     BuildQuery.title := to_str (titles !!! i);
     BuildQuery.source_url := to_str (source_urls !!! i);
     BuildQuery.text := to_str (texts !!! i) |}.

(** A flat store of three rows, the first two equal. *)
Definition flat_store : H5File :=
  {| attrs := ∅;
     datasets :=
       <["embeddings_normed" := DFloat32 tie_embeddings]>
       (<["texts" := DStrings ["first"; "second"; "third"]]>
       (<["title" := DStrings ["Play"; "Play"; "Play"]]>
       (<["source_url" := DStrings ["u"; "u"; "u"]]> ∅))) |}.

Definition flat_world : World :=
  {| files := <["flat.h5" := flat_store]> ∅; stdout := [] |}.

(** The file [persist_to_hdf5] leaves behind when it returns. *)
Definition persisted_file (embeddings embeddings_normed : ndarray)
    (texts : list string) (doc_ids : list Z) (titles source_urls : list string)
    (start_tokens end_tokens : list Z) (model_name : string) (model_dim : Z)
    (license now : string) : H5File :=
  set_attrs "/"
    [("created_at_utc", AStr now);
     ("embedding_model", AStr model_name);
     ("embedding_dim", AInt model_dim);
     ("index_type", AStr "flat_cosine");
     ("license_hint", AStr license);
     ("about", AStr BuildMain.about)]
    (create_dataset "end_token" (DInt32 end_tokens)
      (create_dataset "start_token" (DInt32 start_tokens)
        (create_dataset "doc_id" (DInt32 doc_ids)
          (create_dataset "source_url" (DStrings source_urls)
            (create_dataset "title" (DStrings titles)
              (create_dataset "texts" (DStrings texts)
                (create_dataset "embeddings_normed" (DFloat32 embeddings_normed)
                  (create_dataset "embeddings" (DFloat32 embeddings) h5_empty)))))))).

(** What [main] prints before "Done.". *)
Definition progress_lines (args : BuildMain.Args) (n_chunks : Z) : list string :=
  ["Downloading Gutenberg ebook #" +:+ pretty (BuildMain.gutenberg_id args) +:+ " ...";
   "Loading embedding model: " +:+ BuildMain.model args;
   "Chunking text (max_tokens=" +:+ pretty (BuildMain.max_tokens args) +:+
     ", stride=" +:+ pretty (BuildMain.stride args) +:+ ") ...";
   "Embedding " +:+ pretty n_chunks +:+ " chunks ...";
   "Writing HDF5 to " +:+ BuildMain.out args +:+ " ..."].

(** An environment in which one short text is served and embedded in two
    dimensions, and arguments that cut it into three windows. *)
Definition hamlet_env : BuildMain.Env :=
  {| BuildMain.download_gutenberg_text :=
       λ _, Returns ("to be or not to be", "http://example.org/100.txt");
     BuildMain.strip_gutenberg_boilerplate := λ t, t;
     BuildMain.load_tokenizer := λ _, char_tokenizer;
     BuildMain.embed_texts :=
       λ _ l, {| shape := [len l; 2]; cells := replicate (2 * length l) 1 |};
     BuildMain.normalized_cells := cells;
     BuildMain.utcnow := "2025-01-01T00:00:00" |}.

(** The same with an embedder that returns vectors of length zero. *)
Definition zero_width_env : BuildMain.Env :=
  {| BuildMain.download_gutenberg_text :=
       λ _, Returns ("to be or not to be", "http://example.org/100.txt");
     BuildMain.strip_gutenberg_boilerplate := λ t, t;
     BuildMain.load_tokenizer := λ _, char_tokenizer;
     BuildMain.embed_texts := λ _ l, {| shape := [len l; 0]; cells := [] |};
     BuildMain.normalized_cells := cells;
     BuildMain.utcnow := "2025-01-01T00:00:00" |}.

Definition short_args : BuildMain.Args :=
  {| BuildMain.gutenberg_id := 100;
     BuildMain.title := "Hamlet";
     BuildMain.out := "data/hamlet.h5";
     BuildMain.model := "model";
     BuildMain.max_tokens := 8;
     BuildMain.stride := 2 |}.

(** Row [i] of a two-dimensional array of row length [D], as [nd_row]
    reads it. *)
Definition row_of (embs : ndarray) (D : Z) (i : Z) : list Z :=
  take (Z.to_nat D) (drop (Z.to_nat (i * D)) (cells embs)).

(** * Theorems *)

(** ** Python primitives *)

(** Case analysis on the integer tests of a goal. *)
Ltac zcases :=
  repeat match goal with
  | |- context [?a <? ?b] => destruct (Z.ltb_spec a b)
  | |- context [?a <=? ?b] => destruct (Z.leb_spec a b)
  | |- context [?a =? ?b] => destruct (Z.eqb_spec a b)
  | H : context [?a <? ?b] |- _ => destruct (Z.ltb_spec a b)
  | H : context [?a <=? ?b] |- _ => destruct (Z.leb_spec a b)
  | H : context [?a =? ?b] |- _ => destruct (Z.eqb_spec a b)
  end.

Lemma len_nonneg {A} (l : list A) : 0 ≤ len l.
Proof. unfold len. lia. Qed.

Lemma len_app {A} (l k : list A) : len (l ++ k) = len l + len k.
Proof. unfold len. rewrite length_app. lia. Qed.

Lemma py_range_pos (n step : Z) :
  0 < n → 0 < step →
  py_range 0 n step =
    (λ i : nat, Z.of_nat i * step) <$> seq 0 (Z.to_nat ((n - 1) / step + 1)).
Proof.
  intros Hn Hs. unfold py_range, range_len.
  destruct (Z.ltb_spec 0 step); [|lia].
  destruct (Z.ltb_spec 0 n); [|lia].
  replace (n - 0 - 1) with (n - 1) by lia.
  apply list_fmap_ext. intros _ i _. lia.
Qed.

Lemma py_range_nil (n step : Z) : n ≤ 0 → 0 < step → py_range 0 n step = [].
Proof.
  intros Hn Hs. unfold py_range, range_len.
  destruct (Z.ltb_spec 0 step); [|lia].
  destruct (Z.ltb_spec 0 n); [lia|]. reflexivity.
Qed.

Lemma py_range_bounds (n step : Z) :
  0 < step → Forall (λ s, 0 ≤ s < n) (py_range 0 n step).
Proof.
  intros Hs. destruct (Z.le_gt_cases n 0) as [Hn|Hn].
  { rewrite py_range_nil by lia. constructor. }
  rewrite py_range_pos by lia. apply Forall_fmap, Forall_forall.
  intros i Hi. apply elem_of_seq in Hi. simpl.
  assert (Z.of_nat i ≤ (n - 1) / step).
  { assert (0 ≤ (n - 1) / step) by (apply Z.div_pos; lia). lia. }
  assert (step * ((n - 1) / step) ≤ n - 1) by (apply Z.mul_div_le; lia).
  nia.
Qed.

Lemma adjust_index_id (n i : Z) : 0 ≤ i ≤ n → adjust_index n i = i.
Proof.
  intros. unfold adjust_index. cbv zeta. zcases; lia.
Qed.

Lemma adjust_index_clamp (n i : Z) : 0 ≤ i → 0 ≤ n → adjust_index n i = Z.min i n.
Proof.
  intros. unfold adjust_index. cbv zeta. zcases; lia.
Qed.

Lemma py_slice_take_drop {A} (l : list A) (lo w : Z) :
  0 ≤ lo → 0 ≤ w →
  py_slice l lo (lo + w) = take (Z.to_nat w) (drop (Z.to_nat lo) l).
Proof.
  intros Hlo Hw. unfold py_slice.
  pose proof (len_nonneg l) as Hl.
  rewrite !adjust_index_clamp by lia.
  unfold len in *.
  destruct (Z.le_gt_cases lo (Z.of_nat (length l))).
  - rewrite (Z.min_l lo) by lia.
    destruct (Z.le_gt_cases (lo + w) (Z.of_nat (length l))).
    + f_equal. lia.
    + rewrite (take_ge _ (Z.to_nat w)) by (rewrite length_drop; lia).
      apply take_ge. rewrite length_drop. lia.
  - rewrite !(drop_ge l) by lia. by rewrite !take_nil.
Qed.

Lemma py_slice_length {A} (l : list A) (lo hi : Z) :
  0 ≤ lo → 0 ≤ hi →
  len (py_slice l lo hi) = Z.max 0 (Z.min hi (len l) - Z.min lo (len l)).
Proof.
  intros. unfold py_slice. pose proof (len_nonneg l).
  rewrite !adjust_index_clamp by lia. unfold len in *.
  rewrite length_take, length_drop. lia.
Qed.


Lemma py_slice_to_take {A} (l : list A) (k : Z) :
  0 ≤ k → py_slice_to l k = take (Z.to_nat k) l.
Proof.
  intros. unfold py_slice_to. replace k with (0 + k) at 1 by lia.
  rewrite py_slice_take_drop by lia. reflexivity.
Qed.

(** ** The chunker of build_shakespeare_hdf5.py *)

Lemma build_chunk_loop_spec tokenizer ids max_tokens step (b m a : nat) acc :
  (a ≤ b < a + m)%nat →
  len ids ≤ Z.of_nat b * step + max_tokens →
  (∀ i : nat, (a ≤ i < b)%nat → Z.of_nat i * step + max_tokens < len ids) →
  BuildScript.chunk_loop tokenizer ids max_tokens
    ((λ i : nat, Z.of_nat i * step) <$> seq a m) acc
  = acc ++ (chunk_at tokenizer ids max_tokens step <$> seq a (S b - a)).
Proof.
  revert a acc. induction m as [|m IH]; intros a acc Hab Hb Hlt; [lia|].
  cbn [seq fmap list_fmap BuildScript.chunk_loop].
  destruct (decide (a = b)) as [->|Hne].
  - destruct (Z.leb_spec (len ids) (Z.min (Z.of_nat b * step + max_tokens) (len ids)));
      [|lia].
    replace (S b - b)%nat with 1%nat by lia. reflexivity.
  - assert (Z.of_nat a * step + max_tokens < len ids) by (apply Hlt; lia).
    destruct (Z.leb_spec (len ids) (Z.min (Z.of_nat a * step + max_tokens) (len ids)));
      [lia|].
    rewrite IH by (try lia; intros; apply Hlt; lia).
    replace (S b - a)%nat with (S (S b - S a)) by lia.
    cbn [seq fmap list_fmap]. rewrite <- app_assoc. reflexivity.
Qed.

(** The index of the first window whose end reaches [n]. *)
Lemma last_window_index (n max_tokens step : Z) :
  0 < step → step ≤ max_tokens → max_tokens < n →
  let q := (n - max_tokens + step - 1) / step in
  0 < q ∧ q * step < n ∧ n ≤ q * step + max_tokens ∧
  (∀ i, 0 ≤ i < q → i * step + max_tokens < n) ∧ q ≤ (n - 1) / step.
Proof.
  intros Hs Hm Hn q.
  assert (H1 : step * q ≤ n - max_tokens + step - 1) by (apply Z.mul_div_le; lia).
  assert (H2 : n - max_tokens + step - 1 < step * Z.succ q)
    by (apply Z.mul_succ_div_gt; lia).
  assert (Hq : 0 < q) by (apply Z.div_str_pos; lia).
  repeat split; try nia.
  apply Z.div_le_lower_bound; nia.
Qed.

Lemma chunk_text_by_tokens_spec tokenizer text max_tokens stride :
  0 < max_tokens → 0 ≤ stride < max_tokens →
  let ids := encode tokenizer text in
  let step := max_tokens - stride in
  BuildScript.chunk_text_by_tokens tokenizer text max_tokens stride
  = Returns (chunk_at tokenizer ids max_tokens step <$>
             seq 0 (spec_window_count (len ids) max_tokens step)).
Proof.
  intros Hm Hs ids step. unfold BuildScript.chunk_text_by_tokens.
  fold ids. pose proof (len_nonneg ids) as Hn.
  destruct (Z.ltb_spec 0 max_tokens); [|lia].
  destruct (Z.leb_spec 0 stride); [|lia].
  destruct (Z.ltb_spec stride max_tokens); [|lia]. cbn [andb negb].
  unfold spec_window_count.
  destruct (Z.eqb_spec (len ids) 0) as [Hz|Hz].
  { rewrite Hz. reflexivity. }
  destruct (Z.leb_spec (len ids) 0); [lia|].
  unfold range. fold step. destruct (Z.eqb_spec step 0); [lia|].
  cbn [mbind outcome_bind]. f_equal.
  rewrite py_range_pos by lia.
  destruct (Z.leb_spec (len ids) max_tokens) as [Hle|Hgt].
  - rewrite (build_chunk_loop_spec _ _ _ _ 0) ; [reflexivity| | lia | intros; lia].
    assert (0 ≤ (len ids - 1) / step) by (apply Z.div_pos; lia). lia.
  - destruct (last_window_index (len ids) max_tokens step) as (Hq & Hlt & Hge & Hbefore & Hin);
      [lia..|].
    set (q := (len ids - max_tokens + step - 1) / step) in *.
    rewrite (build_chunk_loop_spec _ _ _ _ (Z.to_nat q)).
    + rewrite app_nil_l.
      replace (S (Z.to_nat q) - 0)%nat with (Z.to_nat (q + 1)) by lia. reflexivity.
    + lia.
    + lia.
    + intros i Hi. apply Hbefore. lia.
Qed.

Lemma chunk_text_by_tokens_windows tokenizer text max_tokens stride :
  0 < max_tokens → 0 ≤ stride < max_tokens →
  ∃ chunks,
    BuildScript.chunk_text_by_tokens tokenizer text max_tokens stride = Returns chunks ∧
    BuildScript.window <$> chunks
    = spec_windows (len (encode tokenizer text)) max_tokens stride.
Proof.
  intros Hm Hs. eexists. split; [by apply chunk_text_by_tokens_spec|].
  unfold spec_windows. rewrite <- list_fmap_compose. reflexivity.
Qed.

(** ** The chunker of shakespeare_hdf5_vectors.py *)

Lemma chunk_loop_spec tokenizer ids max_tokens starts acc :
  0 < max_tokens →
  Forall (λ s, 0 ≤ s < len ids) starts →
  chunk_loop tokenizer ids max_tokens starts acc
  = acc ++ filter (λ s, truthy s) (window_text tokenizer ids max_tokens <$> starts).
Proof.
  intros Hm Hst. revert acc.
  induction Hst as [|s starts Hs _ IH]; intros acc.
  { simpl. by rewrite app_nil_r. }
  cbn [chunk_loop fmap list_fmap].
  rewrite py_slice_take_drop by lia.
  destruct (take (Z.to_nat max_tokens) (drop (Z.to_nat s) ids)) as [|t ts] eqn:Hw.
  { apply (f_equal length) in Hw. rewrite length_take, length_drop in Hw.
    unfold len in Hs. simpl in Hw. lia. }
  rewrite IH. rewrite filter_cons.
  assert (Hwt : strip (decode_skip tokenizer (t :: ts))
                = window_text tokenizer ids max_tokens s).
  { unfold window_text. by rewrite py_slice_take_drop, Hw by lia. }
  rewrite Hwt.
  destruct (truthy (window_text tokenizer ids max_tokens s)) eqn:Ht.
  - rewrite decide_True by (by apply Is_true_true_2). by rewrite <- app_assoc.
  - rewrite decide_False by (by apply Is_true_false_2). reflexivity.
Qed.

Lemma chunk_by_tokens_spec tokenizer text max_tokens overlap :
  0 < max_tokens →
  let ids := encode tokenizer text in
  let step := if overlap <? max_tokens then max_tokens - overlap else max_tokens in
  chunk_by_tokens tokenizer text max_tokens overlap
  = Returns (filter (λ s, truthy s)
               (window_text tokenizer ids max_tokens <$> py_range 0 (len ids) step)).
Proof.
  intros Hm ids step. unfold chunk_by_tokens. fold ids. fold step.
  assert (Hstep : 0 < step) by (unfold step; zcases; lia).
  destruct ids as [|t ts] eqn:Hids.
  { rewrite py_range_nil by (unfold len; simpl; lia). reflexivity. }
  unfold range. destruct (Z.eqb_spec step 0); [lia|].
  cbn [mbind outcome_bind]. f_equal.
  rewrite chunk_loop_spec; [reflexivity|lia|].
  by apply py_range_bounds.
Qed.

Lemma chunk_by_tokens_returns tokenizer text max_tokens overlap :
  0 < max_tokens →
  ∃ chunks, chunk_by_tokens tokenizer text max_tokens overlap = Returns chunks.
Proof. intros. eexists. by apply chunk_by_tokens_spec. Qed.

(** Consecutive slices of width [m] put together give a prefix. *)
Lemma concat_consecutive {A} (l : list A) (m c : nat) :
  concat ((λ i : nat, take m (drop (i * m) l)) <$> seq 0 c) = take (c * m) l.
Proof.
  induction c as [|c IH]; [by rewrite take_0|].
  rewrite seq_S, fmap_app, concat_app, IH. simpl.
  rewrite app_nil_r, take_take_drop. f_equal. lia.
Qed.

(** ** Results on chunking *)

(** C2.  On 256 tokens with [max_tokens = 256] and [overlap = 32] the
    window [[0, 256)] already ends at [n]; [chunk_text_by_tokens] stops
    there, as the specification's windows do, while [chunk_by_tokens]
    goes on and emits the chunk of the window [[224, 256)], which lies
    inside the one before. *)
Theorem chunk_by_tokens_dangling_window :
  let text := repeat_char 256 letter_a in
  len (encode char_tokenizer text) = 256 ∧
  spec_windows 256 256 32 = [(0, 256)] ∧
  BuildScript.window <$$> BuildScript.chunk_text_by_tokens char_tokenizer text 256 32
    = Returns [(0, 256)] ∧
  chunk_by_tokens char_tokenizer text 256 32
    = Returns [repeat_char 256 letter_a; repeat_char 32 letter_a].
Proof. vm_compute. repeat split; reflexivity. Qed.

(** C3.  300 tokens chunked with [max_tokens = 256] and an overlap of 64
    give exactly the two windows [[0, 256)] and [[192, 300)]; a text
    without tokens gives no chunk, whatever the (valid) parameters. *)
Theorem chunk_300_256_64 tokenizer text empty_text max_tokens stride :
  len (encode tokenizer text) = 300 →
  encode tokenizer empty_text = [] →
  0 < max_tokens → 0 ≤ stride < max_tokens →
  (∃ chunks,
     BuildScript.chunk_text_by_tokens tokenizer text 256 64 = Returns chunks ∧
     BuildScript.window <$> chunks = [(0, 256); (192, 300)] ∧
     length chunks = 2%nat) ∧
  BuildScript.chunk_text_by_tokens tokenizer empty_text max_tokens stride = Returns [].
Proof.
  intros Hn Hempty Hm Hs. split.
  - destruct (chunk_text_by_tokens_windows tokenizer text 256 64) as (chunks & Hc & Hw);
      [lia..|].
    exists chunks. rewrite Hn in Hw. split; [done|]. split; [exact Hw|].
    apply (f_equal length) in Hw. by rewrite length_fmap in Hw.
  - rewrite chunk_text_by_tokens_spec by lia. by rewrite Hempty.
Qed.

Lemma chunk_300_256_64_witness :
  (∃ chunks,
     BuildScript.chunk_text_by_tokens char_tokenizer (repeat_char 300 letter_a) 256 64
       = Returns chunks ∧
     BuildScript.window <$> chunks = [(0, 256); (192, 300)] ∧
     length chunks = 2%nat) ∧
  BuildScript.chunk_text_by_tokens char_tokenizer EmptyString 256 64 = Returns [].
Proof.
  apply (chunk_300_256_64 char_tokenizer (repeat_char 300 letter_a) EmptyString 256 64);
    reflexivity || lia.
Defined.

(** C4, as the code has it.  For [chunk_text_by_tokens] the windows are
    those of the specification, a function of the token count and the two
    parameters; two texts with equally many tokens get the same windows.
    [chunk_by_tokens] visits the same starts for both texts, but keeps a
    window only if its decoded text is non-empty after stripping. *)
Theorem chunk_windows_depend_on_length tokenizer text1 text2 max_tokens overlap :
  0 < max_tokens → 0 ≤ overlap < max_tokens →
  len (encode tokenizer text1) = len (encode tokenizer text2) →
  let n := len (encode tokenizer text1) in
  let starts := py_range 0 n (max_tokens - overlap) in
  (∃ chunks1 chunks2,
     BuildScript.chunk_text_by_tokens tokenizer text1 max_tokens overlap = Returns chunks1 ∧
     BuildScript.chunk_text_by_tokens tokenizer text2 max_tokens overlap = Returns chunks2 ∧
     BuildScript.window <$> chunks1 = spec_windows n max_tokens overlap ∧
     BuildScript.window <$> chunks2 = spec_windows n max_tokens overlap ∧
     length chunks1 = length chunks2) ∧
  chunk_by_tokens tokenizer text1 max_tokens overlap
    = Returns (filter (λ s, truthy s)
        (window_text tokenizer (encode tokenizer text1) max_tokens <$> starts)) ∧
  chunk_by_tokens tokenizer text2 max_tokens overlap
    = Returns (filter (λ s, truthy s)
        (window_text tokenizer (encode tokenizer text2) max_tokens <$> starts)).
Proof.
  intros Hm Ho Hlen n starts. split; [|split].
  - destruct (chunk_text_by_tokens_windows tokenizer text1 max_tokens overlap)
      as (c1 & Hc1 & Hw1); [lia..|].
    destruct (chunk_text_by_tokens_windows tokenizer text2 max_tokens overlap)
      as (c2 & Hc2 & Hw2); [lia..|].
    exists c1, c2. rewrite <- Hlen in Hw2. repeat split; try done.
    rewrite <- (length_fmap BuildScript.window c1), Hw1, <- Hw2.
    by rewrite length_fmap.
  - rewrite chunk_by_tokens_spec by lia.
    destruct (Z.ltb_spec overlap max_tokens); [done|lia].
  - rewrite chunk_by_tokens_spec by lia. rewrite <- Hlen.
    destruct (Z.ltb_spec overlap max_tokens); [done|lia].
Qed.

Lemma chunk_windows_depend_on_length_witness :
  (∃ chunks1 chunks2,
     BuildScript.chunk_text_by_tokens char_tokenizer "to be" 4 1 = Returns chunks1 ∧
     BuildScript.chunk_text_by_tokens char_tokenizer "or no" 4 1 = Returns chunks2 ∧
     BuildScript.window <$> chunks1 = spec_windows 5 4 1 ∧
     BuildScript.window <$> chunks2 = spec_windows 5 4 1 ∧
     length chunks1 = length chunks2) ∧
  chunk_by_tokens char_tokenizer "to be" 4 1
    = Returns (filter (λ s, truthy s)
        (window_text char_tokenizer (encode char_tokenizer "to be") 4 <$> py_range 0 5 3)) ∧
  chunk_by_tokens char_tokenizer "or no" 4 1
    = Returns (filter (λ s, truthy s)
        (window_text char_tokenizer (encode char_tokenizer "or no") 4 <$> py_range 0 5 3)).
Proof.
  apply (chunk_windows_depend_on_length char_tokenizer "to be" "or no" 4 1);
    [lia | lia | reflexivity].
Defined.

(** C4 as stated fails for [chunk_by_tokens]: two texts of one token each,
    one chunk for the letter, none for the padding token, whose decoded
    text is empty. *)
Lemma chunk_count_depends_on_content :
  len (encode char_tokenizer "a") = len (encode char_tokenizer pad_text) ∧
  chunk_by_tokens char_tokenizer "a" 256 32 = Returns ["a"] ∧
  chunk_by_tokens char_tokenizer pad_text 256 32 = Returns [] ∧
  ¬ (∀ tokenizer text1 text2 chunks1 chunks2,
       len (encode tokenizer text1) = len (encode tokenizer text2) →
       chunk_by_tokens tokenizer text1 256 32 = Returns chunks1 →
       chunk_by_tokens tokenizer text2 256 32 = Returns chunks2 →
       length chunks1 = length chunks2).
Proof.
  split; [reflexivity|]. split; [reflexivity|]. split; [reflexivity|].
  intros H.
  specialize (H char_tokenizer "a" pad_text ["a"] [] eq_refl eq_refl eq_refl).
  discriminate H.
Qed.

(** C10.  With [overlap ≥ max_tokens > 0] the stride is [max_tokens]: the
    windows are the consecutive slices of width [max_tokens], which do not
    overlap and together are the whole token sequence; the call returns,
    and returns what an overlap of zero returns. *)
Theorem chunk_by_tokens_overlap_fallback tokenizer text max_tokens overlap :
  0 < max_tokens → max_tokens ≤ overlap →
  let ids := encode tokenizer text in
  let count := Z.to_nat ((len ids + max_tokens - 1) / max_tokens) in
  let starts := (λ i : nat, Z.of_nat i * max_tokens) <$> seq 0 count in
  let windows := (λ s, py_slice ids s (s + max_tokens)) <$> starts in
  concat windows = ids ∧
  Forall (λ w, w ≠ [] ∧ len w ≤ max_tokens) windows ∧
  chunk_by_tokens tokenizer text max_tokens overlap
    = Returns (filter (λ s, truthy s) (window_text tokenizer ids max_tokens <$> starts)) ∧
  chunk_by_tokens tokenizer text max_tokens overlap
    = chunk_by_tokens tokenizer text max_tokens 0.
Proof.
  intros Hm Ho ids count starts windows.
  pose proof (len_nonneg ids) as Hn.
  assert (Hstarts : py_range 0 (len ids) max_tokens = starts).
  { destruct (Z.le_gt_cases (len ids) 0).
    - rewrite py_range_nil by lia. unfold starts, count.
      replace (len ids) with 0 by lia. rewrite Z.div_small by lia. reflexivity.
    - rewrite py_range_pos by lia. unfold starts, count. do 3 f_equal.
      replace (len ids + max_tokens - 1) with (len ids - 1 + 1 * max_tokens) by lia.
      rewrite Z.div_add by lia. reflexivity. }
  assert (Hcount : len ids ≤ Z.of_nat count * max_tokens).
  { unfold count.
    assert (0 ≤ (len ids + max_tokens - 1) / max_tokens) by (apply Z.div_pos; lia).
    assert (len ids + max_tokens - 1 < max_tokens * Z.succ ((len ids + max_tokens - 1) / max_tokens))
      by (apply Z.mul_succ_div_gt; lia).
    nia. }
  split; [|split; [|split]].
  - unfold windows, starts. rewrite <- list_fmap_compose.
    rewrite (list_fmap_ext _ (λ i : nat, take (Z.to_nat max_tokens)
                                (drop (i * Z.to_nat max_tokens) ids)) (seq 0 count)).
    + rewrite concat_consecutive. apply take_ge. unfold len in *. nia.
    + intros _ i _. simpl. rewrite py_slice_take_drop by nia. do 2 f_equal. nia.
  - unfold windows. apply Forall_fmap. rewrite <- Hstarts.
    eapply Forall_impl; [apply py_range_bounds; lia|].
    intros s Hs. simpl in Hs. split.
    + intros Hw. apply (f_equal len) in Hw. rewrite py_slice_length in Hw by lia.
      change (len []) with 0 in Hw. lia.
    + rewrite py_slice_length by lia. lia.
  - rewrite chunk_by_tokens_spec by lia.
    destruct (Z.ltb_spec overlap max_tokens); [lia|]. by rewrite <- Hstarts.
  - rewrite !chunk_by_tokens_spec by lia.
    destruct (Z.ltb_spec overlap max_tokens); [lia|].
    destruct (Z.ltb_spec 0 max_tokens); [|lia].
    by rewrite Z.sub_0_r.
Qed.

Lemma chunk_by_tokens_overlap_fallback_witness :
  chunk_by_tokens char_tokenizer "to be or not" 5 9
    = Returns ["to be"; "or n"; "ot"] ∧
  chunk_by_tokens char_tokenizer "to be or not" 5 9
    = chunk_by_tokens char_tokenizer "to be or not" 5 0.
Proof.
  pose proof (chunk_by_tokens_overlap_fallback char_tokenizer "to be or not" 5 9
                ltac:(lia) ltac:(lia)) as (_ & _ & H1 & H2).
  split; [exact H1 | exact H2].
Defined.

(** ** The range index builder *)

Lemma build_step_after tokenizer st wid ttl body :
  ∃ chunks,
    chunk_by_tokens tokenizer body 256 32 = Returns chunks ∧
    build_step tokenizer st (wid, (ttl, body)) = Returns (after_work st wid ttl chunks).
Proof.
  destruct (chunk_by_tokens_returns tokenizer body 256 32) as [chunks Hc]; [lia|].
  exists chunks. split; [done|]. unfold build_step. rewrite Hc.
  by destruct chunks.
Qed.

Lemma after_work_inv st wid ttl chunks :
  index_inv st → index_inv (after_work st wid ttl chunks).
Proof.
  intros (Hcur & Hids & Hrange & Hsorted & Hcover).
  destruct chunks as [|c chunks]; [done|].
  assert (Hpos : 0 < len (c :: chunks)) by (unfold len; simpl; lia).
  unfold after_work, index_inv.
  cbn [all_chunks all_work_ids works_index row_cursor].
  remember (c :: chunks) as cs eqn:Hcs. clear Hcs.
  pose proof (len_nonneg (all_chunks st)) as Hn.
  split; [rewrite len_app; lia|]. split.
  { rewrite !len_app. unfold len at 2. rewrite length_replicate. fold (len cs). lia. }
  split.
  { apply Forall_app. split.
    - eapply Forall_impl; [exact Hrange|]. intros rec ?. simpl in *. lia.
    - constructor; [|constructor]. simpl. lia. }
  split.
  { apply StronglySorted_app_2; [|done|repeat constructor].
    intros a b Ha Hb. apply list_elem_of_singleton in Hb as ->. simpl.
    rewrite Forall_forall in Hrange. specialize (Hrange a Ha). simpl in Hrange. lia. }
  intros r Hr. destruct (Z.lt_ge_cases r (row_cursor st)) as [Hlt|Hge].
  - destruct (Hcover r) as (rec & Hin & Hcov & Hid); [lia|].
    exists rec. split; [apply elem_of_app; by left|]. split; [done|].
    rewrite lookup_app_l; [done|]. unfold len in *. lia.
  - eexists. split; [apply elem_of_app; right; apply list_elem_of_singleton; reflexivity|].
    split; [unfold covers; simpl; lia|]. simpl.
    rewrite lookup_app_r by (unfold len in *; lia).
    apply lookup_replicate_2. unfold len in *. lia.
Qed.

Lemma build_loop_inv tokenizer items st :
  index_inv st →
  ∃ st', build_loop tokenizer items st = Returns st' ∧ index_inv st'.
Proof.
  revert st. induction items as [|[wid [ttl body]] items IH]; intros st Hinv.
  { by exists st. }
  destruct (build_step_after tokenizer st wid ttl body) as (chunks & _ & Hstep).
  cbn [build_loop]. rewrite Hstep. cbn [mbind outcome_bind].
  apply IH. by apply after_work_inv.
Qed.

Lemma build_init_inv : index_inv build_init.
Proof.
  unfold index_inv, build_init; simpl. repeat split; try done; try constructor.
  intros r Hr. lia.
Qed.

Lemma StronglySorted_lookup {A} (R : relation A) (l : list A) (i j : nat) (a b : A) :
  StronglySorted R l → l !! i = Some a → l !! j = Some b → (i < j)%nat → R a b.
Proof.
  intros Hs. revert i j. induction Hs as [|x l Hs IH Hx]; intros i j Hi Hj Hij.
  { by rewrite lookup_nil in Hi. }
  destruct j as [|j]; [lia|]. destruct i as [|i].
  - simpl in Hi, Hj. injection Hi as <-. rewrite Forall_forall in Hx.
    apply Hx. by eapply list_elem_of_lookup_2.
  - simpl in Hi, Hj. apply (IH i j); [done..|lia].
Qed.

(** ** The writer *)

Lemma as_int32_fits l : Forall (λ z, in_int32 z) l → as_int32 l = Returns l.
Proof.
  intros H. unfold as_int32.
  replace (forallb in_int32 l) with true; [done|].
  symmetry. apply Is_true_true_1, forallb_True. exact H.
Qed.

Lemma index_rows_fit works_idx :
  Forall index_row_fits works_idx → index_rows works_idx = Returns works_idx.
Proof.
  induction 1 as [|rec rest (H1 & H2 & H3) _ IH]; [done|].
  cbn [index_rows]. unfold index_row.
  destruct (in_int32 (work_id rec)), (in_int64 (start_row rec)),
    (in_int64 (end_row rec)); try done.
  cbn [andb mbind outcome_bind]. by rewrite IH.
Qed.

Lemma write_hdf5_2d h5_path all_chunks all_work_ids embeddings works_idx meta w N D :
  shape embeddings = [N; D] →
  Forall (λ z, in_int32 z) all_work_ids →
  Forall index_row_fits works_idx →
  write_hdf5 h5_path all_chunks all_work_ids embeddings works_idx meta w
  = if (len all_chunks =? N) && (N =? len all_work_ids)
    then (Returns (),
          put_file h5_path
            (written_file all_chunks all_work_ids embeddings works_idx meta) w)
    else (Raises AssertionError, w).
Proof.
  intros Hshape Hids Hidx. unfold write_hdf5. rewrite Hshape.
  destruct ((len all_chunks =? N) && (N =? len all_work_ids)); [|done].
  cbn [negb]. by rewrite as_int32_fits, index_rows_fit.
Qed.

Lemma main_rejects_no_chunks env args w raw url :
  BuildMain.download_gutenberg_text env (BuildMain.gutenberg_id args) = Returns (raw, url) →
  encode (BuildMain.load_tokenizer env (BuildMain.model args))
    (BuildMain.strip_gutenberg_boilerplate env raw) = [] →
  0 < BuildMain.max_tokens args →
  0 ≤ BuildMain.stride args < BuildMain.max_tokens args →
  ∃ w', BuildMain.main env args w = (Raises RuntimeError, w') ∧ files w' = files w.
Proof.
  intros Hd He Hm Hs. unfold BuildMain.main. rewrite Hd.
  rewrite chunk_text_by_tokens_spec by lia. rewrite He.
  change (len []) with 0. unfold spec_window_count.
  destruct (Z.leb_spec 0 0); [|lia]. cbn [seq fmap list_fmap].
  change (len []) with 0. destruct (Z.eqb_spec 0 0); [|lia].
  eexists. split; reflexivity.
Qed.

(** C6 as stated fails, three times over.  One row of work 7 under a
    range index whose only entry is for work 3: no entry covers the work
    id.  No row at all.  One row whose embedding has length zero.  Each
    time the writer returns, with the file on disk. *)
Lemma write_hdf5_accepts_unchecked_stores :
  let one := {| shape := [1; 1]; cells := [1] |} in
  let none := {| shape := [0; 3]; cells := [] |} in
  let flat := {| shape := [1; 0]; cells := [] |} in
  let other := {| work_id := 3; title := "Other"; start_row := 0; end_row := 1 |} in
  let entry := {| work_id := 7; title := "Play"; start_row := 0; end_row := 1 |} in
  (¬ covered [other] 7 ∧
   ∃ w', write_hdf5 "store.h5" ["a"] [7] one [other] [] empty_world = (Returns (), w') ∧
         files w' !! "store.h5" = Some (written_file ["a"] [7] one [other] [])) ∧
  (∃ w', write_hdf5 "store.h5" [] [] none [] [] empty_world = (Returns (), w') ∧
         files w' !! "store.h5" = Some (written_file [] [] none [] [])) ∧
  (∃ w', write_hdf5 "store.h5" ["a"] [7] flat [entry] [] empty_world = (Returns (), w') ∧
         files w' !! "store.h5" = Some (written_file ["a"] [7] flat [entry] [])).
Proof.
  repeat split.
  - intros (rec & Hin & Hid). apply list_elem_of_singleton in Hin. by subst.
  - eexists. split; [reflexivity|]. apply lookup_insert_eq.
  - eexists. split; [reflexivity|]. apply lookup_insert_eq.
  - eexists. split; [reflexivity|]. apply lookup_insert_eq.
Qed.

(** C6, as the code has it.  For integers that fit their column types,
    everything [write_hdf5] checks comes before the file is opened and
    leaves the world alone: an embedding array without dimensions raises
    [IndexError]; chunk texts, embedding rows and work ids that differ in
    number raise [AssertionError]; an array that is not two-dimensional
    raises [ValueError], so that all embeddings written have one length.
    Everything else is written, whatever the range index contains, however
    long the embeddings are and however many rows there are.  That no
    chunk was produced is reported by [main] of the build script, before
    anything is embedded or written. *)
Theorem write_hdf5_checks h5_path all_chunks all_work_ids embeddings works_idx meta w
    env args w0 raw url :
  Forall (λ z, in_int32 z) all_work_ids →
  Forall index_row_fits works_idx →
  BuildMain.download_gutenberg_text env (BuildMain.gutenberg_id args) = Returns (raw, url) →
  encode (BuildMain.load_tokenizer env (BuildMain.model args))
    (BuildMain.strip_gutenberg_boilerplate env raw) = [] →
  0 < BuildMain.max_tokens args →
  0 ≤ BuildMain.stride args < BuildMain.max_tokens args →
  write_hdf5 h5_path all_chunks all_work_ids embeddings works_idx meta w
  = match shape embeddings with
    | [] => (Raises IndexError, w)
    | N :: rest =>
        if (len all_chunks =? N) && (N =? len all_work_ids)
        then
          match rest with
          | [D] =>
              (Returns (),
               put_file h5_path
                 (written_file all_chunks all_work_ids embeddings works_idx meta) w)
          | _ => (Raises ValueError, w)
          end
        else (Raises AssertionError, w)
    end ∧
  ∃ w', BuildMain.main env args w0 = (Raises RuntimeError, w') ∧ files w' = files w0.
Proof.
  intros Hids Hidx Hd He Hm Hs. split; [|by eapply main_rejects_no_chunks].
  destruct (shape embeddings) as [|N [|D [|? ?]]] eqn:Hshape.
  - unfold write_hdf5. by rewrite Hshape.
  - unfold write_hdf5. rewrite Hshape.
    by destruct ((len all_chunks =? N) && (N =? len all_work_ids)).
  - by apply (write_hdf5_2d _ _ _ _ _ _ _ N D).
  - unfold write_hdf5. rewrite Hshape.
    by destruct ((len all_chunks =? N) && (N =? len all_work_ids)).
Qed.

Lemma write_hdf5_checks_witness :
  write_hdf5 "store.h5" ["a"; "b"] [7] {| shape := [2; 1]; cells := [1; 1] |} [] [] empty_world
  = (Raises AssertionError, empty_world) ∧
  ∃ w', BuildMain.main blank_env default_args empty_world = (Raises RuntimeError, w') ∧
        files w' = files empty_world.
Proof.
  apply (write_hdf5_checks "store.h5" ["a"; "b"] [7] {| shape := [2; 1]; cells := [1; 1] |}
           [] [] empty_world blank_env default_args empty_world
           EmptyString "http://example.org/100.txt");
    try reflexivity; try (repeat constructor); try done.
Defined.

(** ** The builder's early return *)

Lemma files_print line w : files (print line w) = files w.
Proof. reflexivity. Qed.

Lemma write_hdf5_creates h5_path all_chunks all_work_ids embeddings works_idx meta w u w' :
  write_hdf5 h5_path all_chunks all_work_ids embeddings works_idx meta w = (Returns u, w') →
  is_Some (files w' !! h5_path).
Proof.
  unfold write_hdf5. intros H.
  repeat case_match; simplify_eq; simpl; by rewrite lookup_insert_eq.
Qed.

Lemma build_if_missing_creates env out_path rebuild w u w' :
  build_if_missing env out_path rebuild w = (Returns u, w') →
  path_exists w' out_path = true.
Proof.
  unfold build_if_missing. intros H.
  destruct (path_exists w out_path && negb rebuild) eqn:Hskip.
  - simplify_eq. apply andb_true_iff in Hskip as [Hex _]. exact Hex.
  - repeat case_match; simplify_eq.
    unfold path_exists. apply bool_decide_eq_true.
    rewrite files_print. by eapply write_hdf5_creates.
Qed.

(** C9.  When the file is there, be it from the start or because an
    earlier build returned, a build without the rebuild flag returns
    after printing one line and leaves every file as it was. *)
Theorem build_if_missing_idempotent env out_path w :
  (path_exists w out_path = true ∨
   ∃ env0 rebuild w0, build_if_missing env0 out_path rebuild w0 = (Returns (), w)) →
  build_if_missing env out_path false w
    = (Returns (), print (skip_message out_path) w) ∧
  files (print (skip_message out_path) w) = files w ∧
  stdout (print (skip_message out_path) w) = stdout w ++ [skip_message out_path].
Proof.
  intros Hfile.
  assert (Hex : path_exists w out_path = true).
  { destruct Hfile as [?|(env0 & rebuild & w0 & Hrun)]; [done|].
    by eapply build_if_missing_creates. }
  unfold build_if_missing. rewrite Hex. by cbn [andb negb].
Qed.

Lemma build_if_missing_idempotent_witness :
  let w1 := (build_if_missing one_work_env "s.h5" false empty_world).2 in
  build_if_missing one_work_env "s.h5" false w1
    = (Returns (), print (skip_message "s.h5") w1) ∧
  files (print (skip_message "s.h5") w1) = files w1 ∧
  stdout (print (skip_message "s.h5") w1) = stdout w1 ++ [skip_message "s.h5"].
Proof.
  apply (build_if_missing_idempotent one_work_env "s.h5").
  right. exists one_work_env, false, empty_world. reflexivity.
Defined.

(** ** Positions and keys *)

Lemma fancy_in_range {A} `{Inhabited A} (a : list A) (idx : list nat) :
  Forall (λ i, (i < length a)%nat) idx →
  fancy a idx = Returns ((λ i : nat, a !!! i) <$> idx).
Proof.
  induction 1 as [|i idx Hi _ IH]; [done|].
  cbn [fancy]. destruct (lookup_lt_is_Some_2 a i Hi) as [x Hx].
  rewrite Hx, IH. cbn. by rewrite (list_lookup_total_correct _ _ _ Hx).
Qed.

Lemma perm_seq_bound (p : list nat) (n : nat) :
  p ≡ₚ seq 0 n → Forall (λ i, (i < n)%nat) p.
Proof.
  intros Hp. apply Forall_forall. intros i Hi.
  rewrite Hp in Hi. apply elem_of_seq in Hi. lia.
Qed.

Lemma perm_seq_NoDup (p : list nat) (n : nat) : p ≡ₚ seq 0 n → NoDup p.
Proof. intros Hp. rewrite Hp. apply NoDup_seq. Qed.

Lemma perm_seq_length (p : list nat) (n : nat) : p ≡ₚ seq 0 n → length p = n.
Proof. intros Hp. by rewrite Hp, length_seq. Qed.

Lemma total_seq {A} `{Inhabited A} (l : list A) :
  (λ i : nat, l !!! i) <$> seq 0 (length l) = l.
Proof.
  apply list_eq. intros i. rewrite list_lookup_fmap.
  destruct (decide (i < length l)%nat) as [Hi|Hi].
  - rewrite lookup_seq_lt by done. simpl.
    destruct (lookup_lt_is_Some_2 l i Hi) as [x Hx].
    by rewrite Hx, (list_lookup_total_correct _ _ _ Hx).
  - rewrite lookup_seq_ge by lia. simpl. symmetry. apply lookup_ge_None. lia.
Qed.

(** Reading a list through a permutation of its positions permutes it. *)
Lemma total_perm {A} `{Inhabited A} (l : list A) (p : list nat) :
  p ≡ₚ seq 0 (length l) → (λ i : nat, l !!! i) <$> p ≡ₚ l.
Proof. intros Hp. rewrite Hp. by rewrite total_seq. Qed.

Lemma keys_of_perm (a : list Z) (p : list nat) :
  p ≡ₚ seq 0 (length a) → keys_of a p ≡ₚ a.
Proof. apply total_perm. Qed.

Lemma keys_of_neg (a : list Z) (p : list nat) :
  Forall (λ i, (i < length a)%nat) p →
  keys_of (neg a) p = neg (keys_of a p).
Proof.
  intros Hp. unfold keys_of, neg. rewrite <- list_fmap_compose.
  apply Forall_fmap_ext_1. eapply Forall_impl; [exact Hp|].
  intros i Hi. simpl. by apply list_lookup_total_fmap.
Qed.

Lemma neg_involutive (a : list Z) : neg (neg a) = a.
Proof.
  unfold neg. rewrite <- list_fmap_compose. rewrite <- (list_fmap_id a) at 2.
  apply list_fmap_ext. intros _ x _. simpl. lia.
Qed.

Lemma neg_inj (a b : list Z) : neg a = neg b → a = b.
Proof. intros Hab. by rewrite <- (neg_involutive a), Hab, neg_involutive. Qed.

Lemma neg_length (a : list Z) : length (neg a) = length a.
Proof. apply length_fmap. Qed.

(** Keys read through positions that were themselves read through
    positions. *)
Lemma keys_of_compose (a : list Z) (idx order : list nat) :
  Forall (λ i, (i < length idx)%nat) order →
  keys_of a ((λ i : nat, idx !!! i) <$> order) = keys_of (keys_of a idx) order.
Proof.
  intros Ho. unfold keys_of. rewrite <- list_fmap_compose.
  apply Forall_fmap_ext_1. eapply Forall_impl; [exact Ho|].
  intros i Hi. simpl. symmetry.
  by rewrite (list_lookup_total_fmap (λ i0 : nat, a !!! i0) idx i Hi).
Qed.

(** Distinct keys determine the positions. *)
Lemma keys_of_inj (a : list Z) (l1 l2 : list nat) :
  NoDup a →
  Forall (λ i, (i < length a)%nat) l1 →
  Forall (λ i, (i < length a)%nat) l2 →
  keys_of a l1 = keys_of a l2 → l1 = l2.
Proof.
  intros Hnd H1. revert l2. induction H1 as [|i l1 Hi _ IH]; intros l2 H2 Heq.
  { destruct l2; [done|discriminate]. }
  destruct H2 as [|j l2 Hj H2]; [discriminate|].
  cbn in Heq. injection Heq as Hij Hrest. f_equal; [|by apply IH].
  destruct (lookup_lt_is_Some_2 a i Hi) as [x Hx].
  destruct (lookup_lt_is_Some_2 a j Hj) as [y Hy].
  rewrite (list_lookup_total_correct _ _ _ Hx),
    (list_lookup_total_correct _ _ _ Hy) in Hij. subst y.
  by eapply NoDup_lookup.
Qed.

(** ** The stable order *)

#[local] Instance key_pos_le_total a : Total (key_pos_le a).
Proof. intros i j. unfold key_pos_le. lia. Qed.

#[local] Instance key_pos_le_trans a : Transitive (key_pos_le a).
Proof. intros i j k. unfold key_pos_le. lia. Qed.

Lemma argsort_stable_perm a : argsort_stable a ≡ₚ seq 0 (length a).
Proof. apply merge_sort_Permutation. Qed.

Lemma argsort_stable_sorted a : Sorted Z.le (keys_of a (argsort_stable a)).
Proof.
  unfold keys_of, argsort_stable.
  apply (Sorted_fmap _ (key_pos_le a) Z.le).
  - intros i j. unfold key_pos_le. lia.
  - apply Sorted_merge_sort. apply _.
Qed.

Lemma argsort_stable_spec a : argsort_spec a (argsort_stable a).
Proof. split; [apply argsort_stable_perm | apply argsort_stable_sorted]. Qed.

(** Equal keys appear in ascending position. *)
Lemma argsort_stable_ties a :
  StronglySorted (key_pos_le a) (argsort_stable a).
Proof. apply Sorted_StronglySorted; [apply _|]. apply Sorted_merge_sort. apply _. Qed.

(** ** Top-k selection *)

Section TopK.
Context `{Numpy}.

Lemma argpartition_returns (a : list Z) (kth : Z) :
  a = [] ∨ 0 ≤ norm_kth (len a) kth < len a →
  ∃ p, argpartition a kth = Returns p ∧ p ≡ₚ seq 0 (length a) ∧
       (0 ≤ norm_kth (len a) kth < len a →
        partitioned a p (Z.to_nat (norm_kth (len a) kth))).
Proof.
  intros Hk. pose proof (argpartition_ok a kth) as Hspec.
  destruct (argpartition a kth) as [p|e]; cbn in Hspec.
  - exists p. split; [done|].
    destruct Hspec as [[-> ->]|(Hin & Hp & Hpart)].
    + split; [done|]. change (len []) with 0. lia.
    + by split.
  - destruct Hspec as (_ & Hne & Hout). destruct Hk; [done|lia].
Qed.

(** What [top_k_select] computes, in terms of the two numpy calls. *)
Lemma top_k_select_spec (scores : list Z) (top_k : Z) :
  0 ≤ top_k →
  let k := Z.to_nat (Z.min top_k (len scores)) in
  ∃ p,
    p ≡ₚ seq 0 (length scores) ∧
    ((0 < k)%nat → partitioned (neg scores) p (k - 1)) ∧
    top_k_select scores top_k
    = Returns ((λ i : nat, take k p !!! i) <$>
               argsort (neg (keys_of scores (take k p)))).
Proof.
  intros Hk k. pose proof (len_nonneg scores) as Hn.
  set (kz := Z.min top_k (len scores)).
  assert (Hlen : len (neg scores) = len scores) by (unfold len; by rewrite neg_length).
  destruct (argpartition_returns (neg scores) (kz - 1)) as (p & Hp & Hperm & Hpart).
  { rewrite Hlen. destruct scores as [|s scores]; [by left|right].
    assert (0 < len (s :: scores)) by (unfold len; simpl; lia).
    unfold norm_kth. zcases; lia. }
  rewrite neg_length in Hperm.
  exists p. split; [done|]. split.
  { intros Hpos. rewrite Hlen in Hpart.
    assert (Hnorm : norm_kth (len scores) (kz - 1) = kz - 1)
      by (unfold norm_kth; zcases; lia).
    rewrite Hnorm in Hpart. replace (k - 1)%nat with (Z.to_nat (kz - 1)) by lia.
    apply Hpart. lia. }
  unfold top_k_select. fold kz. rewrite Hp. cbn [mbind outcome_bind].
  rewrite py_slice_to_take by lia. fold k.
  pose proof (perm_seq_bound p _ Hperm) as Hbound.
  rewrite fancy_in_range by (by apply Forall_take).
  cbn [mbind outcome_bind]. fold (keys_of scores (take k p)).
  apply fancy_in_range.
  eapply Forall_impl; [apply perm_seq_bound, argsort_ok|].
  intros i Hi. simpl in Hi. unfold neg, keys_of in Hi.
  by rewrite !length_fmap in Hi.
Qed.

End TopK.

Lemma partitioned_cross (a : list Z) (p : list nat) (k i j : nat) :
  partitioned a p k → (k < length p)%nat →
  i ∈ take (S k) p → j ∈ drop (S k) p → a !!! i ≤ a !!! j.
Proof.
  intros Hpart Hk Hi Hj.
  apply elem_of_take in Hi as (x & Hx & Hxk).
  apply list_elem_of_lookup in Hj as (y & Hy). rewrite lookup_drop in Hy.
  destruct (lookup_lt_is_Some_2 p k Hk) as [pk Hpk].
  assert (Hkeys : ∀ pos idx, p !! pos = Some idx → keys_of a p !! pos = Some (a !!! idx)).
  { intros pos idx Hpos. unfold keys_of. by rewrite list_lookup_fmap, Hpos. }
  destruct (Hpart x _ _ (Hkeys _ _ Hx) (Hkeys _ _ Hpk)) as [Hle _].
  destruct (Hpart (S k + y)%nat _ _ (Hkeys _ _ Hy) (Hkeys _ _ Hpk)) as [_ Hge].
  specialize (Hle ltac:(lia)). specialize (Hge ltac:(lia)). lia.
Qed.

Lemma sorted_neg (l : list Z) :
  Sorted Z.le (neg l) → Sorted (λ x y, y ≤ x) l.
Proof.
  intros Hs. rewrite <- (neg_involutive l). unfold neg at 1.
  apply (Sorted_fmap _ Z.le (λ x y, y ≤ x)); [|done]. intros x y. lia.
Qed.

Section TopKProps.
Context `{Numpy}.

(** The selection on the negated scores against the stable full sort. *)
Lemma selection_matches_full_sort (V : list Z) (p sel : list nat) (k : nat) :
  p ≡ₚ seq 0 (length V) →
  (k ≤ length V)%nat →
  ((0 < k)%nat → partitioned V p (k - 1)) →
  sel ≡ₚ take k p →
  Sorted Z.le (keys_of V sel) →
  keys_of V sel = keys_of V (take k (argsort_stable V)).
Proof.
  intros Hperm Hk Hpart Hsel Hsorted.
  set (B := merge_sort Z.le (keys_of V (drop k p))).
  assert (Hp_len : length p = length V) by by apply perm_seq_length.
  assert (Hsel_len : length sel = k).
  { rewrite Hsel, length_take. lia. }
  assert (Hall : keys_of V sel ++ B = keys_of V (argsort_stable V)).
  { apply (StronglySorted_unique Z.le).
    - apply StronglySorted_app_2.
      + intros x1 x2 Hx1 Hx2.
        destruct k as [|k].
        { destruct sel; [|done]. by apply elem_of_nil in Hx1. }
        unfold keys_of in Hx1. rewrite Hsel in Hx1.
        apply list_elem_of_fmap in Hx1 as (i & -> & Hi).
        unfold B in Hx2. rewrite merge_sort_Permutation in Hx2.
        apply list_elem_of_fmap in Hx2 as (j & -> & Hj).
        apply (partitioned_cross V p k i j); try done; try lia.
        replace k with (S k - 1)%nat at 1 by lia. apply Hpart. lia.
      + apply Sorted_StronglySorted; [apply _|done].
      + apply Sorted_StronglySorted; [apply _|]. apply Sorted_merge_sort. apply _.
    - apply Sorted_StronglySorted; [apply _|]. apply argsort_stable_sorted.
    - unfold B. rewrite merge_sort_Permutation.
      rewrite (keys_of_perm V (argsort_stable V)) by apply argsort_stable_perm.
      rewrite <- (keys_of_perm V p) at 3 by done.
      transitivity (keys_of V (take k p ++ drop k p)); [|by rewrite take_drop].
      unfold keys_of. rewrite fmap_app. by rewrite Hsel. }
  unfold keys_of at 2. rewrite fmap_take. fold (keys_of V (argsort_stable V)).
  rewrite <- Hall. symmetry. apply take_app_length'.
  unfold keys_of. by rewrite length_fmap.
Qed.

(** The top-k selection returns, and what it returns. *)
Lemma top_k_select_props (scores : list Z) (top_k : Z) :
  0 ≤ top_k →
  let k := Z.to_nat (Z.min top_k (len scores)) in
  ∃ sel,
    top_k_select scores top_k = Returns sel ∧
    TopK scores k sel ∧
    keys_of scores sel = keys_of scores (take k (argsort_stable (neg scores))) ∧
    (NoDup scores → sel = take k (argsort_stable (neg scores))).
Proof.
  intros Htop k.
  destruct (top_k_select_spec scores top_k Htop) as (p & Hperm & Hpart & Hrun).
  fold k in Hpart, Hrun.
  set (idx := take k p) in *.
  set (order := argsort (neg (keys_of scores idx))) in *.
  set (sel := (λ i : nat, idx !!! i) <$> order) in *.
  assert (Hk : (k ≤ length scores)%nat) by (unfold k, len; lia).
  assert (Hp_len : length p = length scores) by by apply perm_seq_length.
  assert (Hidx_len : length idx = k) by (unfold idx; rewrite length_take; lia).
  assert (Hp_bound : Forall (λ i, (i < length scores)%nat) p) by by apply perm_seq_bound.
  assert (Hidx_bound : Forall (λ i, (i < length scores)%nat) idx) by by apply Forall_take.
  assert (Horder : order ≡ₚ seq 0 (length idx)).
  { pose proof (argsort_ok (neg (keys_of scores idx))) as [Ho _].
    unfold neg, keys_of in Ho. by rewrite !length_fmap in Ho. }
  assert (Hsel : sel ≡ₚ idx) by by apply total_perm.
  assert (Hsel_bound : Forall (λ i, (i < length scores)%nat) sel) by by rewrite Hsel.
  assert (Hfull_bound : Forall (λ i, (i < length scores)%nat)
                          (take k (argsort_stable (neg scores)))).
  { apply Forall_take. rewrite <- (neg_length scores).
    apply perm_seq_bound, argsort_stable_perm. }
  assert (Hsorted : Sorted Z.le (keys_of (neg scores) sel)).
  { unfold sel. rewrite keys_of_compose by (by apply perm_seq_bound).
    rewrite keys_of_neg by done.
    apply (argsort_ok (neg (keys_of scores idx))). }
  assert (Hkeys : keys_of (neg scores) sel
                  = keys_of (neg scores) (take k (argsort_stable (neg scores)))).
  { apply (selection_matches_full_sort _ p); rewrite ?neg_length; done. }
  exists sel. split; [exact Hrun|]. split; [|split].
  - split.
    + by rewrite Hsel.
    + rewrite Hsel. unfold idx.
      assert (Hnd : NoDup (take k p ++ drop k p))
        by (rewrite take_drop; by eapply perm_seq_NoDup).
      by apply NoDup_app in Hnd as [? _].
    + done.
    + apply sorted_neg. by rewrite <- keys_of_neg.
    + intros i j Hi Hlt Hj. rewrite Hsel in Hi, Hj.
      assert (Hjp : j ∈ p) by (rewrite Hperm; apply elem_of_seq; lia).
      rewrite <- (take_drop k p) in Hjp. apply elem_of_app in Hjp as [Hjp|Hjp]; [done|].
      destruct k as [|k']; [by apply elem_of_nil in Hi|].
      assert (Hle : neg scores !!! i ≤ neg scores !!! j).
      { apply (partitioned_cross _ p k'); try done; try lia.
        replace k' with (S k' - 1)%nat at 1 by lia. apply Hpart. lia. }
      assert (Hi_lt : (i < length scores)%nat).
      { rewrite Forall_forall in Hidx_bound. by apply Hidx_bound. }
      unfold neg in Hle.
      rewrite (list_lookup_total_fmap Z.opp scores i Hi_lt),
        (list_lookup_total_fmap Z.opp scores j Hlt) in Hle. lia.
  - apply neg_inj. by rewrite <- !keys_of_neg.
  - intros Hnd. apply (keys_of_inj (neg scores)); rewrite ?neg_length; try done.
    unfold neg. apply NoDup_fmap_2; [|done]. intros x y. lia.
Qed.

End TopKProps.

(** ** numpy's scalar code paths meet the contract *)

Lemma min_scan_spec (v : list Z) (rest pre : list nat) (minidx : nat) (minval : Z) (em : nat) :
  pre !! minidx = Some em → v !!! em = minval →
  Forall (λ e, minval ≤ v !!! e) pre →
  ∃ e, (pre ++ rest) !! min_scan v rest (length pre) minidx minval = Some e ∧
       Forall (λ e', v !!! e ≤ v !!! e') (pre ++ rest).
Proof.
  revert pre minidx minval em.
  induction rest as [|x rest IH]; intros pre minidx minval em Hm Hval Hpre.
  { exists em. rewrite app_nil_r. simpl. split; [done|]. by rewrite Hval. }
  cbn [min_scan]. rewrite (cons_middle x pre rest), app_assoc.
  replace (S (length pre)) with (length (pre ++ [x])) by (rewrite length_app; simpl; lia).
  destruct (Z.ltb_spec (v !!! x) minval) as [Hlt|Hge].
  - apply (IH (pre ++ [x]) (length pre) (v !!! x) x).
    + rewrite lookup_app_r by lia. by rewrite Nat.sub_diag.
    + done.
    + apply Forall_app. split; [|by repeat constructor].
      eapply Forall_impl; [exact Hpre|]. intros e He. simpl in *. lia.
  - apply (IH (pre ++ [x]) minidx minval em).
    + rewrite lookup_app_l; [done|]. by eapply lookup_lt_Some.
    + done.
    + apply Forall_app. split; [done|]. by repeat constructor.
Qed.

Lemma insert_swap_perm (rest : list nat) (m x y : nat) :
  rest !! m = Some y → y :: <[m := x]> rest ≡ₚ x :: rest.
Proof.
  revert m. induction rest as [|a rest IH]; intros m Hm; [done|].
  destruct m as [|m]; simpl in *.
  - injection Hm as ->. apply perm_swap.
  - rewrite perm_swap, (IH m Hm). apply perm_swap.
Qed.

Lemma dumb_select_spec (v : list Z) (count : nat) (tosort : list nat) :
  dumb_select v tosort count ≡ₚ tosort ∧
  ∀ (i j : nat) (vi vj : Z),
    (i < count)%nat → (i ≤ j)%nat →
    keys_of v (dumb_select v tosort count) !! i = Some vi →
    keys_of v (dumb_select v tosort count) !! j = Some vj → vi ≤ vj.
Proof.
  revert tosort. induction count as [|count IH]; intros tosort.
  { split; [done|]. intros; lia. }
  destruct tosort as [|x rest].
  { split; [done|]. intros i j vi vj _ _ Hi.
    change (@nil Z !! i = Some vi) in Hi. by rewrite lookup_nil in Hi. }
  cbn [dumb_select].
  destruct (min_scan_spec v rest [x] 0 (v !!! x) x) as (e & He & Hmin);
    [done|done|by repeat constructor|].
  cbn [length app] in He, Hmin.
  assert (Hstep : ∃ tail, tail ≡ₚ match min_scan v rest 1 0 (v !!! x) with
                                   | O => rest | S m => <[m := x]> rest end ∧
            e :: tail ≡ₚ x :: rest ∧
            match min_scan v rest 1 0 (v !!! x) with
            | O => x :: dumb_select v rest count
            | S m => rest !!! m :: dumb_select v (<[m := x]> rest) count
            end = e :: dumb_select v tail count).
  { destruct (min_scan v rest 1 0 (v !!! x)) as [|m].
    - simpl in He. injection He as <-. by exists rest.
    - simpl in He. exists (<[m := x]> rest). split; [done|]. split.
      + by apply insert_swap_perm.
      + by rewrite (list_lookup_total_correct _ _ _ He). }
  destruct Hstep as (tail & _ & Hperm & ->).
  destruct (IH tail) as [IHperm IHord].
  split; [by rewrite IHperm|].
  intros i j vi vj Hi Hij Hvi Hvj.
  destruct i as [|i].
  - simpl in Hvi. injection Hvi as <-.
    apply list_elem_of_lookup_2 in Hvj. unfold keys_of in Hvj.
    apply list_elem_of_fmap in Hvj as (e' & -> & He').
    change (e' ∈ e :: dumb_select v tail count) in He'.
    rewrite IHperm, Hperm in He'.
    rewrite Forall_forall in Hmin. by apply Hmin.
  - destruct j as [|j]; [lia|]. simpl in Hvi, Hvj.
    apply (IHord i j); [lia|lia|done|done].
Qed.

Lemma argpartition_scalar_spec a kth : argpartition_spec a kth (argpartition_scalar a kth).
Proof.
  unfold argpartition_scalar.
  destruct a as [|x a]; [by left|].
  set (l := x :: a). set (k := norm_kth (len l) kth).
  destruct (Z.leb_spec 0 k), (Z.ltb_spec k (len l)); cbn [andb argpartition_spec];
    try (split; [done|split; [done|fold k; lia]]).
  right. fold k. split; [lia|].
  destruct (dumb_select_spec l (S (Z.to_nat k)) (seq 0 (length l))) as [Hperm Hord].
  split; [exact Hperm|].
  intros i vi vk Hi Hk. split; intros Hik.
  - apply (Hord i (Z.to_nat k)); [lia|lia|done|done].
  - apply (Hord (Z.to_nat k) i); [lia|lia|done|done].
Qed.

Lemma matvec_exact_length M q s : matvec_exact M q = Returns s → length s = length M.
Proof.
  unfold matvec_exact. case_match; [|done]. intros [= <-]. apply length_fmap.
Qed.

Lemma matvec_exact_returns M q :
  Forall (λ r, length r = length q) M → ∃ s, matvec_exact M q = Returns s.
Proof.
  intros HM. unfold matvec_exact.
  replace (forallb (λ r, (length r =? length q)%nat) M) with true; [by eexists|].
  symmetry. apply Is_true_true_1, forallb_True.
  eapply Forall_impl; [exact HM|]. intros r Hr. simpl.
  apply Is_true_true_2, Nat.eqb_eq. exact Hr.
Qed.

(** numpy as it runs on short arrays without vector instructions. *)
Definition scalar_numpy : Numpy :=
  {| matvec := matvec_exact;
     argpartition := argpartition_scalar;
     argsort := argsort_stable;
     matvec_length := matvec_exact_length;
     matvec_returns := matvec_exact_returns;
     argpartition_ok := argpartition_scalar_spec;
     argsort_ok := argsort_stable_spec |}.

(** ** The blocked scan *)

Lemma read_rows_length embs sl M : read_rows embs sl = Returns M → length M = length sl.
Proof.
  revert M. induction sl as [|i sl IH]; intros M HM; cbn [read_rows] in HM.
  { by injection HM as <-. }
  destruct (nd_row embs i); [|done]. cbn in HM.
  destruct (read_rows embs sl) as [rs|]; [|done]. cbn in HM.
  injection HM as <-. simpl. by rewrite (IH rs).
Qed.

Lemma read_rows_returns embs sl N D :
  shape embs = [N; D] → len (cells embs) = N * D → 0 ≤ D →
  Forall (λ r, 0 ≤ r < N) sl →
  ∃ M, read_rows embs sl = Returns M ∧
       Forall (λ r, length r = Z.to_nat D) M.
Proof.
  intros Hshape Hcells HD. induction 1 as [|i sl Hi _ (M & HM & Hrows)].
  { by exists []. }
  cbn [read_rows]. unfold nd_row. rewrite Hshape.
  destruct (Z.leb_spec 0 i), (Z.ltb_spec i N); try lia. cbn [andb].
  rewrite HM. cbn. eexists. split; [done|]. constructor; [|done].
  rewrite length_take, length_drop. unfold len in Hcells. nia.
Qed.

Lemma py_slice_Forall {A} (P : A → Prop) (l : list A) (lo hi : Z) :
  Forall P l → Forall P (py_slice l lo hi).
Proof. intros. unfold py_slice. by apply Forall_take, Forall_drop. Qed.

(** The cells [scores[i : i + len(sl)]] are as many as the block [sl]. *)
Lemma block_slice_arith (i b n ls : Z) :
  0 ≤ i → 0 < b → 0 ≤ n →
  ls = Z.max 0 (Z.min (i + b) n - Z.min i n) →
  Z.max 0 (Z.min (i + ls) n - Z.min i n) = ls.
Proof. lia. Qed.

Section Scan.
Context `{Numpy}.
Variables (embs : ndarray) (qv : list Z) (rows : list Z) (N D : Z).
Hypothesis Hshape : shape embs = [N; D].
Hypothesis Hcells : len (cells embs) = N * D.
Hypothesis Hdim : len qv = D.
Hypothesis Hrows : Forall (λ r, 0 ≤ r < N) rows.

Lemma scan_loop_returns starts scores :
  Forall (λ i, 0 ≤ i) starts → length scores = length rows →
  ∃ scores', scan_loop embs qv rows starts scores = Returns scores' ∧
             length scores' = length rows.
Proof.
  intros Hstarts. revert scores.
  induction Hstarts as [|i starts Hi _ IH]; intros scores Hlen.
  { by exists scores. }
  cbn [scan_loop]. pose proof (len_nonneg qv) as HD.
  set (sl := py_slice rows i (i + block)).
  destruct (read_rows_returns embs sl N D) as (M & HM & HMrows);
    [done | done | lia | by apply py_slice_Forall |].
  rewrite HM. cbn [mbind outcome_bind].
  destruct (matvec_returns M qv) as [s Hs].
  { eapply Forall_impl; [exact HMrows|]. intros r Hr. simpl in *. unfold len in Hdim. lia. }
  rewrite Hs. cbn [mbind outcome_bind].
  assert (Hs_len : len s = len sl).
  { unfold len. by rewrite (matvec_length _ _ _ Hs), (read_rows_length _ _ _ HM). }
  assert (Hsl_len : len sl = Z.max 0 (Z.min (i + block) (len rows) - Z.min i (len rows))).
  { unfold sl. apply py_slice_length; unfold block; lia. }
  unfold assign_slice.
  pose proof (len_nonneg rows). pose proof (len_nonneg sl).
  assert (Hscores : len scores = len rows) by (unfold len; by rewrite Hlen).
  rewrite py_slice_length by lia. rewrite Hscores, Hs_len.
  rewrite (block_slice_arith i block (len rows) (len sl)), Z.eqb_refl by done.
  cbn [mbind outcome_bind]. apply IH. by rewrite length_inserts.
Qed.

Lemma scan_scores_returns :
  ∃ scores, scan_scores embs qv rows = Returns scores ∧ length scores = length rows.
Proof.
  unfold scan_scores, range. change (block =? 0) with false. cbn [mbind outcome_bind].
  apply scan_loop_returns; [|by rewrite length_replicate].
  eapply Forall_impl; [apply py_range_bounds; by unfold block|].
  intros i Hi. simpl in Hi. lia.
Qed.

End Scan.


(** ** A run of the query *)

Lemma h5_item_Some {A} (l : list A) (i : Z) (x : A) :
  0 ≤ i → l !! Z.to_nat i = Some x → h5_item l i = Returns x.
Proof.
  intros Hi Hx. unfold h5_item. destruct (Z.leb_spec 0 i); [|lia]. by rewrite Hx.
Qed.

Lemma collect_spec to_str rows scores work_ids texts works_idx N rnk idx :
  len work_ids = N → len texts = N →
  Forall (λ r, 0 ≤ r < N) rows →
  length scores = length rows →
  Forall (λ i, (i < length rows)%nat) idx →
  ∃ hits,
    collect to_str rows scores work_ids texts works_idx rnk idx = Returns hits ∧
    row <$> hits = (λ i : nat, rows !!! i) <$> idx ∧
    score <$> hits = keys_of scores idx ∧
    rank <$> hits = seqZ rnk (len idx).
Proof.
  intros Hids Htexts Hrows Hscores Hidx. revert rnk.
  induction Hidx as [|i idx Hi _ IH]; intros rnk.
  { by exists []. }
  cbn [collect].
  destruct (lookup_lt_is_Some_2 rows i Hi) as [r Hr].
  destruct (lookup_lt_is_Some_2 scores i ltac:(lia)) as [sc Hsc].
  rewrite (h5_item_Some rows (Z.of_nat i) r), (h5_item_Some scores (Z.of_nat i) sc)
    by (try lia; by rewrite Nat2Z.id).
  cbn [mbind outcome_bind].
  assert (Hrange : 0 ≤ r < N).
  { rewrite Forall_forall in Hrows. apply Hrows. by eapply list_elem_of_lookup_2. }
  destruct (lookup_lt_is_Some_2 work_ids (Z.to_nat r)) as [wid Hwid];
    [unfold len in Hids; lia|].
  destruct (lookup_lt_is_Some_2 texts (Z.to_nat r)) as [txt Htxt];
    [unfold len in Htexts; lia|].
  rewrite (h5_item_Some work_ids r wid), (h5_item_Some texts r txt) by (done || lia).
  cbn [mbind outcome_bind].
  destruct (IH (rnk + 1)) as (hits & Hrun & Hrow & Hscore & Hrank).
  rewrite Hrun. cbn [mbind outcome_bind]. eexists. split; [done|].
  cbn [fmap list_fmap row score rank]. split; [|split].
  - f_equal; [|exact Hrow]. by rewrite (list_lookup_total_correct _ _ _ Hr).
  - unfold keys_of. cbn [fmap list_fmap]. f_equal; [|exact Hscore].
    by rewrite (list_lookup_total_correct _ _ _ Hsc).
  - rewrite (seqZ_cons rnk) by (unfold len; simpl; lia). f_equal.
    change (list_fmap Hit Z rank hits) with (rank <$> hits). rewrite Hrank.
    f_equal; unfold len; simpl; lia.
Qed.

Section Run.
Context `{Numpy}.
Variables (env : Env) (w : World) (h5_path query_text model_name : string)
  (top_k : Z) (work_filter : option string).
Variables (h5 : H5File) (embs : ndarray) (texts : list string)
  (work_ids : list Z) (works_idx : list WorkRec) (N D : Z) (rows : list Z).
Hypothesis Hfile : files w !! h5_path = Some h5.
Hypothesis Hstore : StoreOk h5 embs texts work_ids works_idx N D.
Hypothesis Hquery : len (embed_query env model_name query_text) = D.
Hypothesis Hcand :
  candidate_rows (str_lower env) (load_rec (h5_str env) <$> works_idx) work_filter embs
  = Returns rows.
Hypothesis Hrows : Forall (λ r, 0 ≤ r < N) rows.
Hypothesis Htop : 0 ≤ top_k.

Lemma query_hdf5_run :
  let qv := embed_query env model_name query_text in
  let k := Z.to_nat (Z.min top_k (len rows)) in
  ∃ scores sel hits,
    scan_scores embs qv rows = Returns scores ∧
    length scores = length rows ∧
    top_k_select scores top_k = Returns sel ∧
    TopK scores k sel ∧
    keys_of scores sel = keys_of scores (take k (argsort_stable (neg scores))) ∧
    (NoDup scores → sel = take k (argsort_stable (neg scores))) ∧
    query_hdf5 env h5_path query_text top_k work_filter model_name w = Returns hits ∧
    row <$> hits = (λ i : nat, rows !!! i) <$> sel ∧
    score <$> hits = keys_of scores sel ∧
    rank <$> hits = seqZ 1 (len sel).
Proof.
  intros qv k. destruct Hstore.
  destruct (scan_scores_returns embs qv rows N D) as (scores & Hscan & Hlen); try done.
  destruct (top_k_select_props scores top_k Htop) as (sel & Hsel & Htopk & Hkeys & Hnd).
  assert (Hlen' : len scores = len rows) by (unfold len; by rewrite Hlen).
  rewrite Hlen' in Htopk, Hkeys, Hnd. fold k in Htopk, Hkeys, Hnd.
  destruct (collect_spec (h5_str env) rows scores work_ids texts
              (load_rec (h5_str env) <$> works_idx) N 1 sel)
    as (hits & Hcollect & Hrow & Hscore & Hrank); try done.
  { rewrite <- Hlen. apply Htopk. }
  exists scores, sel, hits. repeat split; try done; try apply Htopk.
  unfold query_hdf5. rewrite Hfile. unfold load_works_index, get_dataset.
  rewrite ok_embedding0, ok_text0, ok_work_id0, ok_index0. cbn [mbind outcome_bind].
  rewrite Hcand. cbn [mbind outcome_bind]. fold qv. rewrite Hscan.
  cbn [mbind outcome_bind]. rewrite Hsel. cbn [mbind outcome_bind]. exact Hcollect.
Qed.

End Run.

Lemma tie_store_ok :
  StoreOk tie_store tie_embeddings ["first"; "second"; "third"] [0; 0; 0] tie_index 3 2.
Proof. split; reflexivity || lia. Qed.

(** ** Results on the query *)

Lemma py_range_seqZ (lo hi : Z) : py_range lo hi 1 = seqZ lo (hi - lo).
Proof.
  unfold py_range, range_len, seqZ. cbn [Z.ltb Z.compare].
  destruct (Z.ltb_spec lo hi).
  - rewrite Z.div_1_r. replace (hi - lo - 1 + 1) with (hi - lo) by lia.
    apply list_fmap_ext. intros _ i _. lia.
  - replace (Z.to_nat (hi - lo)) with 0%nat by lia. reflexivity.
Qed.

(** A query over the rows [lo, hi) of a store that has them. *)
Lemma query_hdf5_range `{Numpy} env w h5_path query_text model_name top_k work_filter
    h5 embs texts work_ids works_idx N D lo hi :
  files w !! h5_path = Some h5 →
  StoreOk h5 embs texts work_ids works_idx N D →
  len (embed_query env model_name query_text) = D →
  0 ≤ top_k →
  candidate_rows (str_lower env) (load_rec (h5_str env) <$> works_idx) work_filter embs
  = Returns (py_range lo hi 1) →
  (lo < hi → 0 ≤ lo ∧ hi ≤ N) →
  ∃ hits,
    query_hdf5 env h5_path query_text top_k work_filter model_name w = Returns hits ∧
    len hits = Z.min top_k (Z.max 0 (hi - lo)) ∧
    Forall (λ h, lo ≤ row h < hi) hits.
Proof.
  intros Hfile Hstore Hq Htop Hcand Hin.
  assert (Hrows : Forall (λ r, lo ≤ r < hi) (py_range lo hi 1)).
  { rewrite py_range_seqZ, Forall_forall. intros r Hr.
    apply elem_of_seqZ in Hr. lia. }
  destruct (query_hdf5_run env w h5_path query_text model_name top_k work_filter
              h5 embs texts work_ids works_idx N D (py_range lo hi 1))
    as (scores & sel & hits & _ & Hlen & _ & Htopk & _ & _ & Hrun & Hrow & _); try done.
  { eapply Forall_impl; [exact Hrows|]. intros r Hr. simpl in Hr. lia. }
  exists hits. split; [done|]. split.
  - unfold len at 1. rewrite <- (length_fmap row hits), Hrow, length_fmap.
    rewrite (topk_length _ _ _ Htopk).
    assert (len (py_range lo hi 1) = Z.max 0 (hi - lo)) as ->; [|lia].
    unfold len. rewrite py_range_seqZ, length_seqZ. lia.
  - apply (Forall_fmap row (λ r, lo ≤ r < hi) hits).
    rewrite Hrow. apply Forall_fmap, Forall_forall. intros i Hi. simpl.
    pose proof (topk_bound _ _ _ Htopk) as Hb. rewrite Forall_forall in Hb.
    specialize (Hb i Hi). rewrite Hlen in Hb.
    destruct (lookup_lt_is_Some_2 _ i Hb) as [r Hr].
    rewrite (list_lookup_total_correct _ _ _ Hr).
    rewrite Forall_forall in Hrows. apply Hrows. by eapply list_elem_of_lookup_2.
Qed.

(** C1.  On a store whose datasets are in place, with [N] rows, for a
    query vector of the store's dimension and [top_k ≥ 0], the query
    returns, and the number of hits is [min(top_k, candidate count)]:
    without a title filter (or with the empty one) the candidates are the
    [N] rows of the store, and there are [min(top_k, N)] hits; with a
    filter whose first matching work of the loaded index has the range
    [lo, hi), inside the store unless empty, the candidates are the
    [max(0, hi - lo)] rows of that range, there are
    [min(top_k, max(0, hi - lo))] hits, all of them rows of the range, and
    an empty range ([hi ≤ lo]) gives the empty list and no error. *)
Theorem query_result_length `{Numpy} env w h5_path query_text model_name top_k
    h5 embs texts work_ids works_idx N D :
  files w !! h5_path = Some h5 →
  StoreOk h5 embs texts work_ids works_idx N D →
  len (embed_query env model_name query_text) = D →
  0 ≤ top_k →
  (∀ work_filter, work_filter = None ∨ work_filter = Some EmptyString →
     ∃ hits,
       query_hdf5 env h5_path query_text top_k work_filter model_name w = Returns hits ∧
       len hits = Z.min top_k N ∧
       Forall (λ h, 0 ≤ row h < N) hits) ∧
  (∀ flt lo hi,
     flt ≠ EmptyString →
     find_work_rows (str_lower env) (load_rec (h5_str env) <$> works_idx) flt
     = Some (lo, hi) →
     (lo < hi → 0 ≤ lo ∧ hi ≤ N) →
     ∃ hits,
       query_hdf5 env h5_path query_text top_k (Some flt) model_name w = Returns hits ∧
       len hits = Z.min top_k (Z.max 0 (hi - lo)) ∧
       Forall (λ h, lo ≤ row h < hi) hits ∧
       (hi ≤ lo → hits = [])).
Proof.
  intros Hfile Hstore Hq Htop.
  assert (HN : 0 ≤ N).
  { destruct Hstore. rewrite <- ok_texts0. apply len_nonneg. }
  split.
  - intros work_filter Hflt.
    destruct (query_hdf5_range env w h5_path query_text model_name top_k work_filter
                h5 embs texts work_ids works_idx N D 0 N)
      as (hits & Hrun & Hlen & Hrows); try done.
    { unfold candidate_rows. destruct Hstore. rewrite ok_shape0.
      by destruct Hflt as [->| ->]. }
    exists hits. split; [done|]. split; [|done].
    rewrite Hlen. lia.
  - intros flt lo hi Hne Hfind Hin.
    destruct (query_hdf5_range env w h5_path query_text model_name top_k (Some flt)
                h5 embs texts work_ids works_idx N D lo hi)
      as (hits & Hrun & Hlen & Hrows); try done.
    { unfold candidate_rows. destruct flt as [|c flt]; [done|]. cbn [truthy].
      by rewrite Hfind. }
    exists hits. split; [done|]. split; [done|]. split; [done|].
    intros Hempty. destruct hits as [|h hits]; [done|].
    unfold len in Hlen. simpl in Hlen. lia.
Qed.

Lemma query_result_length_witness :
  (∃ hits,
     query_hdf5 (H := scalar_numpy) repr_env "tie.h5" "dagger" 2 None "model" tie_world
     = Returns hits ∧
     len hits = Z.min 2 3 ∧ Forall (λ h, 0 ≤ row h < 3) hits) ∧
  (∃ hits,
     query_hdf5 (H := scalar_numpy) repr_env "tie.h5" "dagger" 2 (Some "PLAY") "model"
       tie_world = Returns hits ∧
     len hits = Z.min 2 (Z.max 0 (3 - 0)) ∧ Forall (λ h, 0 ≤ row h < 3) hits ∧
     (3 ≤ 0 → hits = [])) ∧
  (∃ hits,
     query_hdf5 (H := scalar_numpy) repr_env "tie.h5" "dagger" 2 (Some "epilogue") "model"
       tie_world = Returns hits ∧
     len hits = Z.min 2 (Z.max 0 (3 - 3)) ∧ Forall (λ h, 3 ≤ row h < 3) hits ∧
     (3 ≤ 3 → hits = [])).
Proof.
  destruct (query_result_length (H := scalar_numpy) repr_env tie_world "tie.h5" "dagger"
              "model" 2 tie_store tie_embeddings ["first"; "second"; "third"] [0; 0; 0]
              tie_index 3 2 eq_refl tie_store_ok eq_refl ltac:(lia)) as [Hall Hflt].
  split; [|split].
  - apply Hall. by left.
  - apply Hflt; [discriminate|reflexivity|lia].
  - apply Hflt; [discriminate|reflexivity|lia].
Defined.

(** C7 as stated fails: rows 0 and 1 of [tie_store] hold the same vector
    and score the same, and of the two hits for [k = 2] the second is
    row 1; row 0 is left out. *)
Lemma query_passes_over_lower_row :
  scan_scores (H := scalar_numpy) tie_embeddings [0; 1] [0; 1; 2] = Returns [0; 0; 1] ∧
  query_hdf5 (H := scalar_numpy) unit_env "tie.h5" "dagger" 2 None "model" tie_world
    = Returns tie_hits ∧
  ¬ lower_row_first [0; 1; 2] [0; 0; 1] tie_hits.
Proof.
  split; [reflexivity|]. split; [reflexivity|].
  intros Hl.
  destruct (Hl 0%nat 1%nat 0 1 0) as (a & b & Hab & Ha & Hb);
    [reflexivity | reflexivity | reflexivity | reflexivity | lia | |].
  - cbn. apply list_elem_of_In. simpl. tauto.
  - destruct a as [|[|a]]; cbn in Ha; discriminate.
Qed.

(** C7, as the code has it.  The hits come in descending score order,
    each hit is a candidate row with its score, and no candidate left out
    scores higher than a hit; among equal scores the order, and which of
    them is taken at the cut, is numpy's. *)
Theorem query_ranking `{Numpy} env w h5_path query_text model_name top_k
    work_filter h5 embs texts work_ids works_idx N D rows :
  files w !! h5_path = Some h5 →
  StoreOk h5 embs texts work_ids works_idx N D →
  len (embed_query env model_name query_text) = D →
  candidate_rows (str_lower env) (load_rec (h5_str env) <$> works_idx) work_filter embs
  = Returns rows →
  Forall (λ r, 0 ≤ r < N) rows →
  0 ≤ top_k →
  ∃ scores hits,
    scan_scores embs (embed_query env model_name query_text) rows = Returns scores ∧
    query_hdf5 env h5_path query_text top_k work_filter model_name w = Returns hits ∧
    Sorted (λ x y, y ≤ x) (score <$> hits) ∧
    (∀ h, h ∈ hits →
       ∃ i : nat, rows !! i = Some (row h) ∧ scores !! i = Some (score h)) ∧
    (∀ h (j : nat) rj sj,
       h ∈ hits → rows !! j = Some rj → scores !! j = Some sj →
       rj ∉ row <$> hits → sj ≤ score h).
Proof.
  intros Hfile Hstore Hq Hcand Hrows Htop.
  destruct (query_hdf5_run env w h5_path query_text model_name top_k work_filter
              h5 embs texts work_ids works_idx N D rows)
    as (scores & sel & hits & Hscan & Hlen & _ & Htopk & _ & _ & Hrun & Hrow & Hscore & _);
    try done.
  exists scores, hits. split; [done|]. split; [done|].
  assert (Hhit : ∀ h, h ∈ hits →
            ∃ i : nat, i ∈ sel ∧ row h = rows !!! i ∧ score h = scores !!! i).
  { intros h Hh. apply list_elem_of_lookup in Hh as [a Ha].
    assert (Hra : (row <$> hits) !! a = Some (row h)) by by rewrite list_lookup_fmap, Ha.
    assert (Hsa : (score <$> hits) !! a = Some (score h)) by by rewrite list_lookup_fmap, Ha.
    rewrite Hrow, list_lookup_fmap in Hra. unfold keys_of in Hscore.
    rewrite Hscore, list_lookup_fmap in Hsa.
    destruct (sel !! a) as [i|] eqn:Hi; [|done]. simpl in Hra, Hsa.
    exists i. split; [by eapply list_elem_of_lookup_2|]. split; congruence. }
  split; [rewrite Hscore; apply Htopk|]. split.
  - intros h Hh. destruct (Hhit h Hh) as (i & Hi & -> & ->). exists i.
    pose proof (topk_bound _ _ _ Htopk) as Hb. rewrite Forall_forall in Hb.
    specialize (Hb i Hi). simpl in Hb. split.
    + apply list_lookup_lookup_total_lt. lia.
    + by apply list_lookup_lookup_total_lt.
  - intros h j rj sj Hh Hj Hsj Hout.
    destruct (Hhit h Hh) as (i & Hi & _ & ->).
    rewrite <- (list_lookup_total_correct _ _ _ Hsj).
    apply (topk_dominates _ _ _ Htopk); [done|by eapply lookup_lt_Some|].
    intros Hjsel. apply Hout. rewrite Hrow.
    apply list_elem_of_fmap. exists j. split; [|done].
    by rewrite (list_lookup_total_correct _ _ _ Hj).
Qed.

Lemma query_ranking_witness :
  ∃ scores hits,
    scan_scores (H := scalar_numpy) tie_embeddings
      (embed_query unit_env "model" "dagger") [0; 1; 2] = Returns scores ∧
    query_hdf5 (H := scalar_numpy) unit_env "tie.h5" "dagger" 2 None "model" tie_world
      = Returns hits ∧
    Sorted (λ x y, y ≤ x) (score <$> hits) ∧
    (∀ h, h ∈ hits →
       ∃ i : nat, [0; 1; 2] !! i = Some (row h) ∧ scores !! i = Some (score h)) ∧
    (∀ h (j : nat) rj sj,
       h ∈ hits → [0; 1; 2] !! j = Some rj → scores !! j = Some sj →
       rj ∉ row <$> hits → sj ≤ score h).
Proof.
  apply (query_ranking (H := scalar_numpy) unit_env tie_world "tie.h5" "dagger"
           "model" 2 None tie_store tie_embeddings
           ["first"; "second"; "third"] [0; 0; 0] tie_index 3 2 [0; 1; 2]).
  - reflexivity.
  - exact tie_store_ok.
  - reflexivity.
  - reflexivity.
  - repeat constructor; lia.
  - lia.
Defined.




(** * Further properties *)

(** ** Looking a work up by its title *)

Lemma prefix_app (sub s : string) :
  String.prefix sub s = true ↔ ∃ post, s = sub +:+ post.
Proof.
  revert s. induction sub as [|a sub IH]; intros s.
  { split; [intros _; by exists s | by destruct s]. }
  destruct s as [|b s]; simpl.
  { split; [done | intros [post Hpost]; discriminate]. }
  destruct (Ascii.ascii_dec a b) as [->|Hne].
  - rewrite IH. split; intros [post Hpost]; exists post.
    + by rewrite Hpost.
    + by injection Hpost.
  - split; [done | intros [post Hpost]]. injection Hpost as Hab _. by subst.
Qed.

Lemma contains_app (sub s : string) :
  contains sub s = true ↔ ∃ pre post, s = pre +:+ sub +:+ post.
Proof.
  induction s as [|c s IH]; cbn [contains].
  - rewrite orb_false_r, prefix_app. split.
    + intros [post Hpost]. by exists EmptyString, post.
    + intros (pre & post & Hs). destruct pre; [by exists post|discriminate].
  - rewrite orb_true_iff, prefix_app, IH. split.
    + intros [[post Hpost]|(pre & post & Hs)].
      * by exists EmptyString, post.
      * exists (String c pre), post. simpl. by rewrite Hs.
    + intros (pre & post & Hs). destruct pre as [|c' pre]; simpl in Hs.
      * left. by exists post.
      * right. exists pre, post. by injection Hs.
Qed.

Lemma contains_title_matches lower q rec :
  contains (lower q) (lower (title rec)) = true ↔ title_matches lower q rec.
Proof. apply contains_app. Qed.

Lemma find_work_rows_none lower works_idx q :
  (∀ rec, rec ∈ works_idx → ¬ title_matches lower q rec) →
  find_work_rows lower works_idx q = None.
Proof.
  induction works_idx as [|r rest IH]; intros Hnone; [done|].
  cbn [find_work_rows].
  destruct (contains (lower q) (lower (title r))) eqn:Hc.
  - exfalso. apply (Hnone r); [apply list_elem_of_here|].
    by apply contains_title_matches.
  - apply IH. intros rec Hin. apply Hnone. by apply list_elem_of_further.
Qed.

(** X1.  Whatever [str.lower] maps, [find_work_rows] gives the rows of
    the first entry of the index whose lower-cased title contains the
    lower-cased filter, and [None] exactly when no entry has such a
    title. *)
Theorem find_work_rows_first_match (lower : string → string)
    (works_idx : list WorkRec) (q : string) :
  match find_work_rows lower works_idx q with
  | Some (lo, hi) =>
      ∃ (i : nat) rec,
        works_idx !! i = Some rec ∧ lo = start_row rec ∧ hi = end_row rec ∧
        title_matches lower q rec ∧
        ∀ (j : nat) rec', (j < i)%nat → works_idx !! j = Some rec' →
                          ¬ title_matches lower q rec'
  | None => ∀ rec, rec ∈ works_idx → ¬ title_matches lower q rec
  end.
Proof.
  induction works_idx as [|r rest IH]; cbn [find_work_rows].
  { intros rec Hin. by apply elem_of_nil in Hin. }
  destruct (contains (lower q) (lower (title r))) eqn:Hc.
  - exists 0%nat, r. repeat split; try done.
    + by apply contains_title_matches.
    + intros j rec' Hj. lia.
  - assert (Hr : ¬ title_matches lower q r).
    { rewrite <- contains_title_matches. by rewrite Hc. }
    destruct (find_work_rows lower rest q) as [[lo hi]|].
    + destruct IH as (i & rec & Hi & Hlo & Hhi & Hm & Hfirst).
      exists (S i), rec. repeat split; try done.
      intros [|j] rec' Hj Hlook; simpl in Hlook.
      * by injection Hlook as <-.
      * apply (Hfirst j); [lia|done].
    + intros rec Hin. apply elem_of_cons in Hin as [->|Hin]; [done|by apply IH].
Qed.

(** ** Writing a store and reading it back *)

Lemma as_int32_inv l r : as_int32 l = r →
  match r with Returns l' => l' = l | Raises e => e = OverflowError end.
Proof. unfold as_int32. intros <-. by destruct (forallb in_int32 l). Qed.

Lemma index_rows_inv works_idx r : index_rows works_idx = r →
  match r with Returns rows => rows = works_idx | Raises e => e = OverflowError end.
Proof.
  revert r. induction works_idx as [|rec rest IH]; intros r <-; [done|].
  cbn [index_rows]. unfold index_row.
  destruct (in_int32 (work_id rec) && in_int64 (start_row rec) && in_int64 (end_row rec));
    [|done].
  cbn [mbind outcome_bind]. specialize (IH _ eq_refl).
  destruct (index_rows rest); cbn [mbind outcome_bind]; [by subst|done].
Qed.

Lemma written_file_datasets all_chunks all_work_ids embeddings works_idx meta :
  let f := written_file all_chunks all_work_ids embeddings works_idx meta in
  datasets f !! "chunks/text" = Some (DStrings all_chunks) ∧
  datasets f !! "chunks/work_id" = Some (DInt32 all_work_ids) ∧
  datasets f !! "chunks/embedding" = Some (DFloat32 embeddings) ∧
  datasets f !! "works/index" = Some (DWorksIndex works_idx).
Proof.
  unfold written_file, create_dataset. cbn [datasets].
  repeat split;
    repeat (rewrite lookup_insert_ne by done); apply lookup_insert_eq.
Qed.

(** What a call of [write_hdf5] that returns has done. *)
Lemma write_hdf5_returns_inv h5_path all_chunks all_work_ids embeddings works_idx meta
    w u w' :
  write_hdf5 h5_path all_chunks all_work_ids embeddings works_idx meta w = (Returns u, w') →
  w' = put_file h5_path
         (written_file all_chunks all_work_ids embeddings works_idx meta) w ∧
  len all_chunks = len all_work_ids ∧
  ∃ D, shape embeddings = [len all_chunks; D].
Proof.
  unfold write_hdf5. intros Hrun.
  destruct (shape embeddings) as [|N [|D [|? ?]]] eqn:Hshape; try done;
    destruct ((len all_chunks =? N) && (N =? len all_work_ids)) eqn:Hassert;
    cbn [negb] in Hrun; try done.
  apply andb_true_iff in Hassert as [H1 H2].
  apply Z.eqb_eq in H1, H2.
  pose proof (as_int32_inv all_work_ids _ eq_refl) as Hids.
  destruct (as_int32 all_work_ids) as [ids|]; [subst ids|done].
  pose proof (index_rows_inv works_idx _ eq_refl) as Hidx.
  destruct (index_rows works_idx) as [rows|]; [subst rows|done].
  injection Hrun as _ <-. split; [done|]. split; [lia|]. exists D. by rewrite H1.
Qed.

Lemma write_hdf5_early_raise h5_path all_chunks all_work_ids embeddings works_idx meta
    w e w' :
  write_hdf5 h5_path all_chunks all_work_ids embeddings works_idx meta w = (Raises e, w') →
  e = AssertionError ∨ e = IndexError ∨ length (shape embeddings) ≠ 2%nat →
  w' = w.
Proof.
  unfold write_hdf5. intros Hrun Hearly.
  destruct (shape embeddings) as [|N [|D [|? ?]]] eqn:Hshape;
    try (injection Hrun as _ <-; done);
    destruct (negb ((len all_chunks =? N) && (N =? len all_work_ids)));
    try (injection Hrun as _ <-; done).
  pose proof (as_int32_inv all_work_ids _ eq_refl) as Hids.
  destruct (as_int32 all_work_ids) as [ids|e1].
  - pose proof (index_rows_inv works_idx _ eq_refl) as Hidx.
    destruct (index_rows works_idx) as [rows|e2]; [done|].
    injection Hrun as <- _. subst e2. by destruct Hearly as [|[|]].
  - injection Hrun as <- _. subst e1. by destruct Hearly as [|[|]].
Qed.

(** X3.  A [write_hdf5] that returns has replaced the file at the path by
    one whose datasets hold the chunk texts, the work ids, the embeddings
    and the range index as they were given; the three row-wise inputs
    are then equally many, other files and the output are untouched.  A
    [write_hdf5] that raises [AssertionError] or [IndexError], or raises
    on an array that is not two-dimensional, has not touched the world at
    all: these come before the file is opened. *)
Theorem write_hdf5_round_trip h5_path all_chunks all_work_ids embeddings works_idx meta w :
  match write_hdf5 h5_path all_chunks all_work_ids embeddings works_idx meta w with
  | (Returns _, w') =>
      ∃ f, files w' !! h5_path = Some f ∧
        get_dataset f "chunks/text" = Returns (DStrings all_chunks) ∧
        get_dataset f "chunks/work_id" = Returns (DInt32 all_work_ids) ∧
        get_dataset f "chunks/embedding" = Returns (DFloat32 embeddings) ∧
        get_dataset f "works/index" = Returns (DWorksIndex works_idx) ∧
        len all_chunks = len all_work_ids ∧
        (∃ D, shape embeddings = [len all_chunks; D]) ∧
        (∀ p, p ≠ h5_path → files w' !! p = files w !! p) ∧
        stdout w' = stdout w
  | (Raises e, w') =>
      e = AssertionError ∨ e = IndexError ∨ length (shape embeddings) ≠ 2%nat → w' = w
  end.
Proof.
  destruct (write_hdf5 h5_path all_chunks all_work_ids embeddings works_idx meta w)
    as [[u|e] w'] eqn:Hrun.
  - apply write_hdf5_returns_inv in Hrun as (-> & Hlen & HD).
    destruct (written_file_datasets all_chunks all_work_ids embeddings works_idx meta)
      as (Ht & Hi & He & Hx).
    eexists. split; [apply lookup_insert_eq|].
    unfold get_dataset. rewrite Ht, Hi, He, Hx.
    repeat split; try done.
    intros p Hp. cbn. by rewrite lookup_insert_ne.
  - by eapply write_hdf5_early_raise.
Qed.

(** ** The builder, work by work *)

Lemma work_chunks_returns tokenizer body :
  chunk_by_tokens tokenizer body 256 32 = Returns (work_chunks tokenizer body).
Proof.
  unfold work_chunks.
  destruct (chunk_by_tokens_returns tokenizer body 256 32) as [chunks ->]; [lia|done].
Qed.

Lemma build_step_work_chunks tokenizer st wid ttl body :
  build_step tokenizer st (wid, (ttl, body))
  = Returns (after_work st wid ttl (work_chunks tokenizer body)).
Proof.
  unfold build_step. rewrite work_chunks_returns. cbn [mbind outcome_bind].
  by destruct (work_chunks tokenizer body).
Qed.

Lemma build_loop_entries tokenizer ws base st :
  build_loop tokenizer (imap (λ (i : nat) x, (Z.of_nat (base + i), x)) ws) st
  = Returns
      {| all_chunks := all_chunks st ++ concat ((λ w, work_chunks tokenizer w.2) <$> ws);
         all_work_ids := all_work_ids st ++ row_ids tokenizer base ws;
         works_index := works_index st ++ index_entries tokenizer base (row_cursor st) ws;
         row_cursor :=
           row_cursor st + len (concat ((λ w, work_chunks tokenizer w.2) <$> ws)) |}.
Proof.
  revert base st. induction ws as [|[ttl body] ws IH]; intros base st.
  { cbn. destruct st. cbn. by rewrite !app_nil_r, Z.add_0_r. }
  cbn [imap build_loop]. rewrite Nat.add_0_r, build_step_work_chunks.
  cbn [mbind outcome_bind].
  rewrite (imap_ext _ (λ (i : nat) x, (Z.of_nat (S base + i), x)))
    by (intros i x _; simpl; do 2 f_equal; lia).
  rewrite IH. cbn [fmap list_fmap concat index_entries row_ids snd].
  destruct (work_chunks tokenizer body) as [|c chunks] eqn:Hc.
  - reflexivity.
  - cbn [after_work all_chunks all_work_ids works_index row_cursor].
    f_equal. rewrite <- !app_assoc, len_app. f_equal. lia.
Qed.

Lemma build_index_entries tokenizer works :
  build_index tokenizer works
  = Returns
      {| all_chunks := concat ((λ w, work_chunks tokenizer w.2) <$> works);
         all_work_ids := row_ids tokenizer 0 works;
         works_index := index_entries tokenizer 0 0 works;
         row_cursor := len (concat ((λ w, work_chunks tokenizer w.2) <$> works)) |}.
Proof.
  unfold build_index, enumerate.
  rewrite (imap_ext _ (λ (i : nat) x, (Z.of_nat (0 + i), x))) by done.
  by rewrite build_loop_entries.
Qed.

Lemma index_entries_sound tokenizer base cursor ws rec :
  rec ∈ index_entries tokenizer base cursor ws →
  ∃ (i : nat) ttl body,
    ws !! i = Some (ttl, body) ∧ work_id rec = Z.of_nat (base + i) ∧
    title rec = ttl ∧ work_chunks tokenizer body ≠ [] ∧
    end_row rec - start_row rec = len (work_chunks tokenizer body).
Proof.
  revert base cursor. induction ws as [|[ttl body] ws IH]; intros base cursor Hin.
  { by apply elem_of_nil in Hin. }
  cbn [index_entries] in Hin.
  assert (Hrest : ∀ c, rec ∈ index_entries tokenizer (S base) c ws →
            ∃ (i : nat) ttl0 body0,
              ((ttl, body) :: ws) !! i = Some (ttl0, body0) ∧
              work_id rec = Z.of_nat (base + i) ∧ title rec = ttl0 ∧
              work_chunks tokenizer body0 ≠ [] ∧
              end_row rec - start_row rec = len (work_chunks tokenizer body0)).
  { intros c Hc. destruct (IH _ _ Hc) as (i & t & b & Hi & Hid & Ht & Hne & Hlen).
    exists (S i), t, b. repeat split; try done. rewrite Hid. f_equal. lia. }
  destruct (work_chunks tokenizer body) as [|c chunks] eqn:Hc; [by eapply Hrest|].
  apply elem_of_cons in Hin as [->|Hin]; [|by eapply Hrest].
  exists 0%nat, ttl, body. rewrite Hc. cbn. repeat split; try done.
  - f_equal. lia.
  - lia.
Qed.

Lemma index_entries_complete tokenizer base cursor ws (i : nat) ttl body :
  ws !! i = Some (ttl, body) → work_chunks tokenizer body ≠ [] →
  ∃ rec, rec ∈ index_entries tokenizer base cursor ws ∧
         work_id rec = Z.of_nat (base + i) ∧ title rec = ttl.
Proof.
  revert base cursor i. induction ws as [|[t b] ws IH]; intros base cursor i Hi Hne.
  { by rewrite lookup_nil in Hi. }
  cbn [index_entries]. destruct i as [|i]; simpl in Hi.
  - injection Hi as -> ->. destruct (work_chunks tokenizer body) as [|c chunks]; [done|].
    eexists. split; [apply list_elem_of_here|]. cbn. split; [f_equal; lia|done].
  - assert (Hrest : ∀ c, ∃ rec, rec ∈ index_entries tokenizer (S base) c ws ∧
                       work_id rec = Z.of_nat (base + S i) ∧ title rec = ttl).
    { intros c. destruct (IH (S base) c i Hi Hne) as (rec & Hin & Hid & Ht).
      exists rec. repeat split; try done. rewrite Hid. f_equal. lia. }
    destruct (work_chunks tokenizer b) as [|c chunks].
    + apply Hrest.
    + destruct (Hrest (cursor + len (c :: chunks))) as (rec & Hin & Hid & Ht).
      exists rec. split; [by apply list_elem_of_further|done].
Qed.

Lemma index_entries_ids tokenizer base cursor ws :
  Forall (λ wid, Z.of_nat base ≤ wid) (work_id <$> index_entries tokenizer base cursor ws) ∧
  StronglySorted Z.lt (work_id <$> index_entries tokenizer base cursor ws).
Proof.
  revert base cursor. induction ws as [|[ttl body] ws IH]; intros base cursor.
  { split; constructor. }
  cbn [index_entries].
  assert (Hrest : ∀ c,
    Forall (λ wid, Z.of_nat base < wid)
      (work_id <$> index_entries tokenizer (S base) c ws)).
  { intros c. destruct (IH (S base) c) as [Hge _].
    eapply Forall_impl; [exact Hge|]. intros wid Hwid. simpl in Hwid. lia. }
  destruct (work_chunks tokenizer body) as [|c chunks].
  - destruct (IH (S base) cursor) as [_ Hs]. split; [|done].
    eapply Forall_impl; [apply Hrest|]. intros wid Hwid. simpl in Hwid. lia.
  - destruct (IH (S base) (cursor + len (c :: chunks))) as [_ Hs].
    cbn [fmap list_fmap work_id]. split.
    + constructor; [lia|]. eapply Forall_impl; [apply Hrest|].
      intros wid Hwid. simpl in Hwid. lia.
    + constructor; [done|apply Hrest].
Qed.

(** The entries of the works [ws], one by one: the entry of a work with
    chunks starts where the chunks of the works before it end. *)
Lemma index_entries_spec tokenizer base cursor ws rec :
  rec ∈ index_entries tokenizer base cursor ws ↔
  ∃ (i : nat) ttl body,
    ws !! i = Some (ttl, body) ∧ work_chunks tokenizer body ≠ [] ∧
    rec = {| work_id := Z.of_nat (base + i); title := ttl;
             start_row :=
               cursor + len (concat ((λ w, work_chunks tokenizer w.2) <$> take i ws));
             end_row :=
               cursor + len (concat ((λ w, work_chunks tokenizer w.2) <$> take i ws))
               + len (work_chunks tokenizer body) |}.
Proof.
  revert base cursor. induction ws as [|[t b] ws IH]; intros base cursor.
  { cbn. split; [intros Hin; by apply elem_of_nil in Hin|].
    intros (i & ttl & body & Hi & _). by rewrite lookup_nil in Hi. }
  cbn [index_entries].
  assert (Hshift : ∀ c,
    rec ∈ index_entries tokenizer (S base) (c + len (work_chunks tokenizer b)) ws ↔
    ∃ (i : nat) ttl body,
      ((t, b) :: ws) !! S i = Some (ttl, body) ∧ work_chunks tokenizer body ≠ [] ∧
      rec = {| work_id := Z.of_nat (base + S i); title := ttl;
               start_row :=
                 c + len (concat ((λ w, work_chunks tokenizer w.2)
                                    <$> take (S i) ((t, b) :: ws)));
               end_row :=
                 c + len (concat ((λ w, work_chunks tokenizer w.2)
                                    <$> take (S i) ((t, b) :: ws)))
                 + len (work_chunks tokenizer body) |}).
  { intros c. rewrite IH. cbn [lookup list_lookup firstn fmap list_fmap concat].
    change (concat (list_fmap _ _ ?f ?l)) with (concat (f <$> l)).
    split; intros (i & ttl & body & Hi & Hne & ->); exists i, ttl, body;
      (split; [exact Hi|]); (split; [exact Hne|]);
      cbn [snd]; rewrite !len_app; f_equal; lia. }
  assert (Hsplit : ∀ P : nat → Prop, (∃ i, P i) ↔ P 0%nat ∨ ∃ i, P (S i)).
  { intros P. split.
    - intros [[|i] Hi]; [by left|right; by exists i].
    - intros [H0|[i Hi]]; eauto. }
  rewrite (Hsplit (λ i, ∃ ttl body, _ !! i = Some (ttl, body) ∧ _ ∧ _)).
  destruct (work_chunks tokenizer b) as [|c cs] eqn:Hb.
  - pose proof (Hshift cursor) as Hs.
    change (len []) with 0 in Hs. rewrite Z.add_0_r in Hs. rewrite Hs.
    split; [by right|].
    intros [(ttl & body & Hi & Hne & _)|Hrest]; [|exact Hrest].
    cbn in Hi. injection Hi as <- <-. by rewrite Hb in Hne.
  - rewrite elem_of_cons. rewrite (Hshift cursor).
    apply or_iff_compat_r. split.
    + intros ->. exists t, b. split; [done|]. split; [by rewrite Hb|].
      rewrite Hb. cbn. change (len []) with 0. by rewrite Nat.add_0_r, !Z.add_0_r.
    + intros (ttl & body & Hi & _ & ->). cbn in Hi. injection Hi as <- <-.
      rewrite Hb. cbn. change (len []) with 0. by rewrite Nat.add_0_r, !Z.add_0_r.
Qed.

(** C5.  The cursor starts at 0; a work with [m > 0] chunks adds the one
    entry [(cursor, cursor + m)] and moves the cursor by [m], a work
    without chunks changes nothing.  The builder always returns.  In the
    state it returns the entries are sorted by [start_row], do not
    overlap, and every row below the cursor lies in exactly one entry,
    whose work id is the one recorded for the row.  The entries are those
    of the works: the [i]-th work, when it has [m > 0] chunks, has exactly
    one entry, with id [i], from the number of chunks of the works before
    it up to that number plus [m]; a work without chunks has none; there
    is no other entry; and the cursor ends at the number of all chunks. *)
Theorem range_index_tiles_rows tokenizer works :
  row_cursor build_init = 0 ∧
  (∀ st wid ttl body, ∃ chunks,
     chunk_by_tokens tokenizer body 256 32 = Returns chunks ∧
     build_step tokenizer st (wid, (ttl, body)) = Returns (after_work st wid ttl chunks) ∧
     (chunks = [] → after_work st wid ttl chunks = st) ∧
     (chunks ≠ [] →
        works_index (after_work st wid ttl chunks)
          = works_index st ++
            [{| work_id := wid; title := ttl; start_row := row_cursor st;
                end_row := row_cursor st + len chunks |}] ∧
        row_cursor (after_work st wid ttl chunks) = row_cursor st + len chunks)) ∧
  ∃ st,
    build_index tokenizer works = Returns st ∧
    row_cursor st = len (all_chunks st) ∧
    len (all_work_ids st) = len (all_chunks st) ∧
    Forall (λ rec, 0 ≤ start_row rec < end_row rec ∧ end_row rec ≤ row_cursor st)
      (works_index st) ∧
    StronglySorted (λ a b, start_row a < start_row b) (works_index st) ∧
    (∀ i j a b, works_index st !! i = Some a → works_index st !! j = Some b →
                (i < j)%nat → end_row a ≤ start_row b) ∧
    (∀ r, 0 ≤ r < row_cursor st →
       ∃ i rec, works_index st !! i = Some rec ∧ covers rec r ∧
                all_work_ids st !! Z.to_nat r = Some (work_id rec) ∧
                ∀ j rec', works_index st !! j = Some rec' → covers rec' r → j = i) ∧
    all_chunks st = concat ((λ w, work_chunks tokenizer w.2) <$> works) ∧
    NoDup (work_id <$> works_index st) ∧
    (∀ (i : nat) ttl body chunks,
       works !! i = Some (ttl, body) →
       chunk_by_tokens tokenizer body 256 32 = Returns chunks →
       let cursor := len (concat ((λ w, work_chunks tokenizer w.2) <$> take i works)) in
       (chunks ≠ [] →
        {| work_id := Z.of_nat i; title := ttl; start_row := cursor;
           end_row := cursor + len chunks |} ∈ works_index st) ∧
       (chunks = [] → ∀ rec, rec ∈ works_index st → work_id rec ≠ Z.of_nat i)) ∧
    (∀ rec, rec ∈ works_index st →
       ∃ (i : nat) ttl body,
         works !! i = Some (ttl, body) ∧
         work_chunks tokenizer body ≠ [] ∧
         rec = {| work_id := Z.of_nat i; title := ttl;
                  start_row :=
                    len (concat ((λ w, work_chunks tokenizer w.2) <$> take i works));
                  end_row :=
                    len (concat ((λ w, work_chunks tokenizer w.2) <$> take i works))
                    + len (work_chunks tokenizer body) |}).
Proof.
  split; [reflexivity|]. split.
  { intros st wid ttl body.
    destruct (build_step_after tokenizer st wid ttl body) as (chunks & Hc & Hstep).
    exists chunks. repeat split; try done.
    - by intros ->.
    - by destruct chunks.
    - by destruct chunks. }
  destruct (build_loop_inv tokenizer (enumerate works) build_init build_init_inv)
    as (st & Hrun & Hcur & Hids & Hrange & Hsorted & Hcover).
  exists st. split; [exact Hrun|]. split; [done|]. split; [done|]. split; [done|].
  assert (Hdisj : ∀ i j a b, works_index st !! i = Some a → works_index st !! j = Some b →
                             (i < j)%nat → end_row a ≤ start_row b).
  { intros i j a b Hi Hj Hij.
    exact (StronglySorted_lookup _ _ i j a b Hsorted Hi Hj Hij). }
  assert (Hne : ∀ i a, works_index st !! i = Some a → start_row a < end_row a).
  { intros i a Hi. rewrite Forall_forall in Hrange.
    apply list_elem_of_lookup_2 in Hi. specialize (Hrange a Hi). simpl in Hrange. lia. }
  split.
  { clear Hcover Hdisj Hne. induction Hsorted as [|x l Hs IH Hx]; constructor.
    - apply IH. by inversion Hrange.
    - inversion Hrange as [|?? Hxr Hlr]; subst.
      rewrite Forall_forall in Hx, Hlr |- *. intros y Hy.
      specialize (Hx y Hy). simpl in *. lia. }
  split; [exact Hdisj|].
  split.
  { intros r Hr. destruct (Hcover r Hr) as (rec & Hin & Hcov & Hid).
    apply list_elem_of_lookup in Hin as [i Hi].
    exists i, rec. repeat split; try done; try apply Hcov.
    intros j rec' Hj Hcov'. unfold covers in *.
    destruct (lt_eq_lt_dec i j) as [[Hlt|Heq]|Hgt]; [|done|].
    - pose proof (Hdisj i j rec rec' Hi Hj Hlt). lia.
    - pose proof (Hdisj j i rec' rec Hj Hi Hgt). lia. }
  unfold build_index in Hrun. fold (build_index tokenizer works) in Hrun.
  rewrite build_index_entries in Hrun. injection Hrun as <-.
  cbn [all_chunks works_index].
  split; [reflexivity|]. split.
  { destruct (index_entries_ids tokenizer 0 0 works) as [_ Hlt].
    clear -Hlt. induction Hlt as [|x l _ IH Hx]; constructor; [|exact IH].
    intros Hin. rewrite Forall_forall in Hx. specialize (Hx x Hin). lia. }
  split.
  - intros i ttl body chunks Hi Hchunks.
    rewrite work_chunks_returns in Hchunks. injection Hchunks as <-.
    split.
    + intros Hnonempty. apply index_entries_spec.
      exists i, ttl, body. split; [done|]. split; [done|].
      f_equal; lia.
    + intros Hempty rec Hin Hid.
      apply index_entries_spec in Hin as (j & ttl' & body' & Hj & Hne' & ->).
      cbn in Hid. assert (j = i) as -> by lia.
      rewrite Hi in Hj. injection Hj as <- <-. by rewrite Hempty in Hne'.
  - intros rec Hin.
    apply index_entries_spec in Hin as (i & ttl & body & Hi & Hne' & ->).
    exists i, ttl, body. split; [done|]. split; [done|]. f_equal; lia.
Qed.

(** X4.  The state the builder returns, read off the works: the chunk
    texts are the chunks of the works in order; the work ids in the index
    increase strictly; an entry with id [i] stands for the [i]-th work,
    carries its title and spans as many rows as the work has chunks; and
    every work with a chunk has its entry. *)
Theorem build_index_follows_works tokenizer works st :
  build_index tokenizer works = Returns st →
  all_chunks st = concat ((λ w, work_chunks tokenizer w.2) <$> works) ∧
  StronglySorted Z.lt (work_id <$> works_index st) ∧
  (∀ rec, rec ∈ works_index st →
     ∃ (i : nat) ttl body,
       works !! i = Some (ttl, body) ∧ work_id rec = Z.of_nat i ∧ title rec = ttl ∧
       work_chunks tokenizer body ≠ [] ∧
       end_row rec - start_row rec = len (work_chunks tokenizer body)) ∧
  (∀ (i : nat) ttl body,
     works !! i = Some (ttl, body) → work_chunks tokenizer body ≠ [] →
     ∃ rec, rec ∈ works_index st ∧ work_id rec = Z.of_nat i ∧ title rec = ttl).
Proof.
  rewrite build_index_entries. intros [= <-].
  cbn [all_chunks works_index]. split; [done|]. split.
  { apply index_entries_ids. }
  split.
  - intros rec Hin. by apply index_entries_sound in Hin.
  - intros i ttl body Hi Hne.
    by apply (index_entries_complete tokenizer 0 0 works i ttl body).
Qed.

Lemma build_index_follows_works_witness :
  let st := {| all_chunks := ["to b"; "or n"];
               all_work_ids := [0; 2];
               works_index :=
                 [{| work_id := 0; title := "Hamlet"; start_row := 0; end_row := 1 |};
                  {| work_id := 2; title := "Sonnet I"; start_row := 1; end_row := 2 |}];
               row_cursor := 2 |} in
  let works := [("Hamlet", "to b"); ("Blank", "   "); ("Sonnet I", "or n")] in
  all_chunks st = concat ((λ w, work_chunks char_tokenizer w.2) <$> works) ∧
  StronglySorted Z.lt (work_id <$> works_index st) ∧
  (∀ rec, rec ∈ works_index st →
     ∃ (i : nat) ttl body,
       works !! i = Some (ttl, body) ∧ work_id rec = Z.of_nat i ∧ title rec = ttl ∧
       work_chunks char_tokenizer body ≠ [] ∧
       end_row rec - start_row rec = len (work_chunks char_tokenizer body)) ∧
  (∀ (i : nat) ttl body,
     works !! i = Some (ttl, body) → work_chunks char_tokenizer body ≠ [] →
     ∃ rec, rec ∈ works_index st ∧ work_id rec = Z.of_nat i ∧ title rec = ttl).
Proof.
  apply (build_index_follows_works char_tokenizer
           [("Hamlet", "to b"); ("Blank", "   "); ("Sonnet I", "or n")]).
  reflexivity.
Defined.

Lemma title_of_in works_idx rec :
  StronglySorted Z.lt (work_id <$> works_idx) → rec ∈ works_idx →
  title_of works_idx (work_id rec) = title rec.
Proof.
  induction works_idx as [|r rest IH]; intros Hs Hin.
  { by apply elem_of_nil in Hin. }
  cbn [fmap list_fmap] in Hs. apply StronglySorted_cons in Hs as [Hhd Hs].
  cbn [title_of]. apply elem_of_cons in Hin as [->|Hin].
  - by rewrite Z.eqb_refl.
  - rewrite Forall_forall in Hhd.
    assert (work_id r < work_id rec) by (apply Hhd; by apply list_elem_of_fmap_2).
    destruct (Z.eqb_spec (work_id r) (work_id rec)); [lia|]. by apply IH.
Qed.

(** X5.  In the state the builder returns, a stored row belongs to exactly
    the work whose id is recorded for it, and the title the query shows
    for that id is the title of that work. *)
Theorem built_rows_have_titles tokenizer works st r :
  build_index tokenizer works = Returns st →
  0 ≤ r < len (all_chunks st) →
  ∃ rec, rec ∈ works_index st ∧ covers rec r ∧
         all_work_ids st !! Z.to_nat r = Some (work_id rec) ∧
         title_of (works_index st) (work_id rec) = title rec.
Proof.
  intros Hrun Hr.
  destruct (build_loop_inv tokenizer (enumerate works) build_init build_init_inv)
    as (st' & Hrun' & Hcur & _ & _ & _ & Hcover).
  unfold build_index in Hrun. rewrite Hrun in Hrun'. injection Hrun' as <-.
  destruct (Hcover r) as (rec & Hin & Hcov & Hid); [lia|].
  exists rec. repeat split; try done; try apply Hcov.
  apply title_of_in; [|done].
  pose proof (build_index_entries tokenizer works) as Hspec.
  unfold build_index in Hspec. rewrite Hrun in Hspec. injection Hspec as ->.
  apply index_entries_ids.
Qed.

Lemma built_rows_have_titles_witness :
  let st := {| all_chunks := ["to b"; "or n"];
               all_work_ids := [0; 2];
               works_index :=
                 [{| work_id := 0; title := "Hamlet"; start_row := 0; end_row := 1 |};
                  {| work_id := 2; title := "Sonnet I"; start_row := 1; end_row := 2 |}];
               row_cursor := 2 |} in
  ∃ rec, rec ∈ works_index st ∧ covers rec 1 ∧
         all_work_ids st !! Z.to_nat 1 = Some (work_id rec) ∧
         title_of (works_index st) (work_id rec) = title rec.
Proof.
  apply (built_rows_have_titles char_tokenizer
           [("Hamlet", "to b"); ("Blank", "   "); ("Sonnet I", "or n")]).
  - reflexivity.
  - unfold len. simpl. lia.
Defined.

(** ** A build from start to end *)

Lemma build_if_missing_returns_inv env out_path rebuild w u w' :
  path_exists w out_path && negb rebuild = false →
  build_if_missing env out_path rebuild w = (Returns u, w') →
  ∃ text st meta,
    download_shakespeare_text env = Returns text ∧
    build_index (bert_tokenizer env) (split_works env text) = Returns st ∧
    files w' = <[out_path :=
                   written_file (all_chunks st) (all_work_ids st)
                     (embed_texts env (all_chunks st)) (works_index st) meta]> (files w) ∧
    len (all_chunks st) = len (all_work_ids st) ∧
    ∃ D, shape (embed_texts env (all_chunks st)) = [len (all_chunks st); D].
Proof.
  intros Hskip. unfold build_if_missing. rewrite Hskip.
  destruct (download_shakespeare_text env) as [text|]; [|done].
  destruct (build_index (bert_tokenizer env) (split_works env text)) as [st|] eqn:Hidx;
    [|done].
  destruct (build_meta env (embed_texts env (all_chunks st))) as [meta|]; [|done].
  destruct (write_hdf5 _ _ _ _ _ _ _) as [[u'|e] w1] eqn:Hw; [|done].
  apply write_hdf5_returns_inv in Hw as (-> & Hlen & HD).
  intros Hret. injection Hret as Hw'. subst w'.
  exists text, st, meta. by repeat split.
Qed.

(** X6.  A build that ran and returned has left at the output path a
    store holding the chunks, work ids and range index the builder
    computed and the embeddings of those chunks; texts, work ids and
    embedding rows are equally many; every work id of a row has an entry
    in the range index and every entry lies inside the rows; no other
    file changed.  When the embedding array has as many cells as its shape
    says, the store is well-formed in the sense the query needs. *)
Theorem build_leaves_store env out_path rebuild w w' :
  path_exists w out_path && negb rebuild = false →
  build_if_missing env out_path rebuild w = (Returns (), w') →
  ∃ text st f N D,
    download_shakespeare_text env = Returns text ∧
    build_index (bert_tokenizer env) (split_works env text) = Returns st ∧
    files w' !! out_path = Some f ∧
    shape (embed_texts env (all_chunks st)) = [N; D] ∧
    len (all_chunks st) = N ∧ len (all_work_ids st) = N ∧
    get_dataset f "chunks/text" = Returns (DStrings (all_chunks st)) ∧
    get_dataset f "chunks/work_id" = Returns (DInt32 (all_work_ids st)) ∧
    get_dataset f "chunks/embedding"
      = Returns (DFloat32 (embed_texts env (all_chunks st))) ∧
    get_dataset f "works/index" = Returns (DWorksIndex (works_index st)) ∧
    Forall (covered (works_index st)) (all_work_ids st) ∧
    Forall (λ rec, 0 ≤ start_row rec < end_row rec ∧ end_row rec ≤ N) (works_index st) ∧
    (len (cells (embed_texts env (all_chunks st))) = N * D → 0 ≤ D →
     StoreOk f (embed_texts env (all_chunks st)) (all_chunks st) (all_work_ids st)
       (works_index st) N D) ∧
    (∀ p, p ≠ out_path → files w' !! p = files w !! p).
Proof.
  intros Hskip Hrun.
  destruct (build_if_missing_returns_inv _ _ _ _ _ _ Hskip Hrun)
    as (text & st & meta & Hd & Hidx & Hfiles & Hlen & D & Hshape).
  destruct (build_loop_inv (bert_tokenizer env) (enumerate (split_works env text))
              build_init build_init_inv)
    as (st' & Hrun' & Hcur & Hids & Hrange & _ & Hcover).
  unfold build_index in Hidx. rewrite Hidx in Hrun'. injection Hrun' as <-.
  destruct (written_file_datasets (all_chunks st) (all_work_ids st)
              (embed_texts env (all_chunks st)) (works_index st) meta)
    as (Ht & Hi & He & Hx).
  eexists text, st, _, (len (all_chunks st)), D.
  split; [done|]. split; [done|].
  split; [rewrite Hfiles; apply lookup_insert_eq|].
  unfold get_dataset. rewrite Ht, Hi, He, Hx.
  repeat split; try done.
  - apply Forall_lookup. intros i wid Hi_look.
    destruct (Hcover (Z.of_nat i)) as (rec & Hin & _ & Hid).
    { apply lookup_lt_Some in Hi_look. unfold len in *. lia. }
    rewrite Nat2Z.id, Hi_look in Hid. injection Hid as ->. by exists rec.
  - by rewrite <- Hcur.
  - intros p Hp. rewrite Hfiles. by apply lookup_insert_ne.
Qed.

Lemma build_leaves_store_witness :
  let w' := (build_if_missing one_work_env "s.h5" false empty_world).2 in
  ∃ text st f N D,
    download_shakespeare_text one_work_env = Returns text ∧
    build_index (bert_tokenizer one_work_env) (split_works one_work_env text)
      = Returns st ∧
    files w' !! "s.h5" = Some f ∧
    shape (embed_texts one_work_env (all_chunks st)) = [N; D] ∧
    len (all_chunks st) = N ∧ len (all_work_ids st) = N ∧
    get_dataset f "chunks/text" = Returns (DStrings (all_chunks st)) ∧
    get_dataset f "chunks/work_id" = Returns (DInt32 (all_work_ids st)) ∧
    get_dataset f "chunks/embedding"
      = Returns (DFloat32 (embed_texts one_work_env (all_chunks st))) ∧
    get_dataset f "works/index" = Returns (DWorksIndex (works_index st)) ∧
    Forall (covered (works_index st)) (all_work_ids st) ∧
    Forall (λ rec, 0 ≤ start_row rec < end_row rec ∧ end_row rec ≤ N) (works_index st) ∧
    (len (cells (embed_texts one_work_env (all_chunks st))) = N * D → 0 ≤ D →
     StoreOk f (embed_texts one_work_env (all_chunks st)) (all_chunks st)
       (all_work_ids st) (works_index st) N D) ∧
    (∀ p, p ≠ "s.h5" → files w' !! p = files empty_world !! p).
Proof.
  apply (build_leaves_store one_work_env "s.h5" false empty_world); reflexivity.
Defined.

(** X7.  The build writes nothing when it fails before the write: when the
    download raises, when the embedder's array has fewer than two
    dimensions ([IndexError]), and when it has two dimensions but not one
    row per chunk ([AssertionError]).  A store that was there, with a
    rebuild requested, is still there as it was. *)
Theorem build_failure_keeps_files env out_path rebuild w :
  path_exists w out_path && negb rebuild = false →
  match download_shakespeare_text env with
  | Raises e =>
      ∃ w1, build_if_missing env out_path rebuild w = (Raises e, w1) ∧ files w1 = files w
  | Returns text =>
      ∃ st, build_index (bert_tokenizer env) (split_works env text) = Returns st ∧
        match shape (embed_texts env (all_chunks st)) with
        | [] | [_] =>
            ∃ w1, build_if_missing env out_path rebuild w = (Raises IndexError, w1) ∧
                  files w1 = files w
        | [N; D] =>
            N ≠ len (all_chunks st) →
            ∃ w1, build_if_missing env out_path rebuild w = (Raises AssertionError, w1) ∧
                  files w1 = files w
        | _ => True
        end
  end.
Proof.
  intros Hskip. unfold build_if_missing. rewrite Hskip.
  destruct (download_shakespeare_text env) as [text|e].
  2: { eexists. split; reflexivity. }
  destruct (build_loop_inv (bert_tokenizer env) (enumerate (split_works env text))
              build_init build_init_inv) as (st & Hrun & _).
  exists st. split; [exact Hrun|]. unfold build_index. rewrite Hrun.
  unfold build_meta, write_hdf5.
  destruct (shape (embed_texts env (all_chunks st))) as [|N [|D [|? ?]]] eqn:Hshape;
    try done; try (eexists; split; reflexivity).
  intros Hne.
  destruct (Z.eqb_spec (len (all_chunks st)) N) as [Heq|Hneq]; [lia|].
  cbn [andb negb]. eexists. split; reflexivity.
Qed.

Lemma build_failure_keeps_files_witness :
  ∃ w1, build_if_missing offline_env "tie.h5" true tie_world = (Raises RuntimeError, w1) ∧
        files w1 = files tie_world.
Proof.
  exact (build_failure_keeps_files offline_env "tie.h5" true tie_world eq_refl).
Defined.

(** ** The hits of a query *)

Lemma h5_item_inv {A} (l : list A) (i : Z) (x : A) :
  h5_item l i = Returns x → 0 ≤ i ∧ l !! Z.to_nat i = Some x.
Proof.
  unfold h5_item. destruct (Z.leb_spec 0 i); [|done].
  destruct (l !! Z.to_nat i) eqn:Hl; [|done]. by intros [= ->].
Qed.

Lemma collect_fields to_str rows scores work_ids texts works_idx rnk idx hits :
  collect to_str rows scores work_ids texts works_idx rnk idx = Returns hits →
  Forall (λ h, row h ∈ rows ∧
               work_ids !! Z.to_nat (row h) = Some (hit_work_id h) ∧
               to_str <$> texts !! Z.to_nat (row h) = Some (hit_text h) ∧
               work_title h = title_of works_idx (hit_work_id h)) hits.
Proof.
  revert rnk hits. induction idx as [|i idx IH]; intros rnk hits Hrun.
  { injection Hrun as <-. constructor. }
  cbn [collect] in Hrun.
  destruct (h5_item rows (Z.of_nat i)) as [r|] eqn:Hr; [|done].
  destruct (h5_item scores (Z.of_nat i)) as [sc|] eqn:Hsc; [|done].
  cbn [mbind outcome_bind] in Hrun.
  destruct (h5_item work_ids r) as [wid|] eqn:Hwid; [|done].
  destruct (h5_item texts r) as [txt|] eqn:Htxt; [|done].
  cbn [mbind outcome_bind] in Hrun.
  destruct (collect to_str rows scores work_ids texts works_idx (rnk + 1) idx)
    as [rest|] eqn:Hrest; [|done].
  cbn [mbind outcome_bind] in Hrun. injection Hrun as <-.
  apply h5_item_inv in Hr as [_ Hr], Hwid as [_ Hwid], Htxt as [_ Htxt].
  constructor; [|by eapply IH]. cbn. repeat split; try done.
  - by eapply list_elem_of_lookup_2.
  - by rewrite Htxt.
Qed.

Lemma candidate_rows_range lower works_idx work_filter embs rows :
  candidate_rows lower works_idx work_filter embs = Returns rows →
  ∃ lo hi, rows = seqZ lo (hi - lo) ∧
    ∀ flt lo' hi', work_filter = Some flt → flt ≠ EmptyString →
                   find_work_rows lower works_idx flt = Some (lo', hi') →
                   lo = lo' ∧ hi = hi'.
Proof.
  unfold candidate_rows. intros Hc.
  assert (Hall : match shape embs with
                 | [] => Raises IndexError
                 | n :: _ => Returns (py_range 0 n 1)
                 end = Returns rows →
                 ∃ lo hi, rows = seqZ lo (hi - lo)).
  { destruct (shape embs) as [|n ?]; [done|]. intros [= <-].
    exists 0, n. apply py_range_seqZ. }
  destruct work_filter as [flt|].
  - destruct (truthy flt) eqn:Ht.
    + destruct (find_work_rows lower works_idx flt) as [[lo hi]|] eqn:Hfw; [|done].
      injection Hc as <-. exists lo, hi. split; [apply py_range_seqZ|].
      intros flt' lo' hi' Hf _ Hfind. injection Hf as <-.
      rewrite Hfw in Hfind. by injection Hfind as -> ->.
    + destruct (Hall Hc) as (lo & hi & ->). exists lo, hi. split; [done|].
      intros flt' lo' hi' Hf Hne. injection Hf as <-. by destruct flt.
  - destruct (Hall Hc) as (lo & hi & ->). exists lo, hi. split; [done|]. done.
Qed.

Lemma NoDup_total_fmap (l : list Z) (sel : list nat) :
  NoDup l → NoDup sel → Forall (λ i, (i < length l)%nat) sel →
  NoDup ((λ i : nat, l !!! i) <$> sel).
Proof.
  intros Hl Hsel Hb. apply NoDup_fmap_2_strong; [|done].
  intros i j Hi Hj Heq. rewrite Forall_forall in Hb.
  destruct (lookup_lt_is_Some_2 l i (Hb i Hi)) as [x Hx].
  destruct (lookup_lt_is_Some_2 l j (Hb j Hj)) as [y Hy].
  rewrite (list_lookup_total_correct _ _ _ Hx), (list_lookup_total_correct _ _ _ Hy) in Heq.
  subst y. exact (NoDup_lookup l i j x Hl Hx Hy).
Qed.

Lemma query_hdf5_unfold `{Numpy} env w h5_path query_text model_name top_k work_filter
    h5 embs texts work_ids works_idx N D rows :
  files w !! h5_path = Some h5 →
  StoreOk h5 embs texts work_ids works_idx N D →
  candidate_rows (str_lower env) (load_rec (h5_str env) <$> works_idx) work_filter embs
  = Returns rows →
  query_hdf5 env h5_path query_text top_k work_filter model_name w
  = (scores ← scan_scores embs (embed_query env model_name query_text) rows;
     idx ← top_k_select scores top_k;
     collect (h5_str env) rows scores work_ids texts
       (load_rec (h5_str env) <$> works_idx) 1 idx).
Proof.
  intros Hfile [] Hcand. unfold query_hdf5. rewrite Hfile.
  unfold load_works_index, get_dataset.
  rewrite ok_embedding0, ok_text0, ok_work_id0, ok_index0. cbn [mbind outcome_bind].
  by rewrite Hcand.
Qed.

(** X2.  The title filter of [query_hdf5], on a store whose four
    datasets are in place.  A non-empty filter that no title of the loaded
    index contains, lower-cased, makes the query raise [ValueError],
    whatever [top_k] and the query are; an empty filter string is no
    filter.  The titles compared are those [load_works_index] hands on,
    that is, [str] of the stored ones. *)
Theorem query_filter_unmatched `{Numpy} env w h5_path query_text model_name top_k
    h5 embs texts work_ids works_idx N D flt :
  files w !! h5_path = Some h5 →
  StoreOk h5 embs texts work_ids works_idx N D →
  flt ≠ EmptyString →
  (∀ rec, rec ∈ works_idx →
          ¬ title_matches (str_lower env) flt (load_rec (h5_str env) rec)) →
  query_hdf5 env h5_path query_text top_k (Some flt) model_name w = Raises ValueError ∧
  query_hdf5 env h5_path query_text top_k (Some EmptyString) model_name w
  = query_hdf5 env h5_path query_text top_k None model_name w.
Proof.
  intros Hfile [] Hne Hnone. unfold query_hdf5. rewrite Hfile.
  unfold load_works_index, get_dataset.
  rewrite ok_embedding0, ok_text0, ok_work_id0, ok_index0. cbn [mbind outcome_bind].
  split; [|reflexivity].
  unfold candidate_rows.
  destruct flt as [|c flt]; [done|]. cbn [truthy].
  pose proof (find_work_rows_none (str_lower env) (load_rec (h5_str env) <$> works_idx)
                (String c flt)) as Hfind.
  rewrite Hfind; [done|].
  intros rec Hin. apply list_elem_of_fmap in Hin as (rec0 & -> & Hin0). by apply Hnone.
Qed.

Lemma query_filter_unmatched_witness :
  query_hdf5 (H := scalar_numpy) repr_env "tie.h5" "dagger" 2 (Some "sonnet") "model"
    tie_world = Raises ValueError ∧
  query_hdf5 (H := scalar_numpy) repr_env "tie.h5" "dagger" 2 (Some EmptyString) "model"
    tie_world
  = query_hdf5 (H := scalar_numpy) repr_env "tie.h5" "dagger" 2 None "model" tie_world.
Proof.
  apply (query_filter_unmatched (H := scalar_numpy) repr_env tie_world "tie.h5" "dagger"
           "model" 2 tie_store tie_embeddings ["first"; "second"; "third"] [0; 0; 0]
           tie_index 3 2 "sonnet").
  - reflexivity.
  - exact tie_store_ok.
  - discriminate.
  - intros rec Hin. rewrite <- contains_title_matches.
    apply list_elem_of_In in Hin. simpl in Hin.
    destruct Hin as [<-|[<-|[]]]; by vm_compute.
Defined.

(** X8.  Every hit of a query is one of the candidate rows, no row is hit
    twice and the ranks count 1, 2, ….  A hit carries the work id stored
    for its row, [str] of the text stored for its row, and the title the
    loaded index gives for that work id, which is [str] of a stored
    title.  With a title filter every hit lies in the range of the first
    work whose loaded title matches. *)
Theorem query_hits_fields `{Numpy} env w h5_path query_text model_name top_k
    work_filter h5 embs texts work_ids works_idx N D rows :
  files w !! h5_path = Some h5 →
  StoreOk h5 embs texts work_ids works_idx N D →
  len (embed_query env model_name query_text) = D →
  candidate_rows (str_lower env) (load_rec (h5_str env) <$> works_idx) work_filter embs
  = Returns rows →
  Forall (λ r, 0 ≤ r < N) rows →
  0 ≤ top_k →
  ∃ hits,
    query_hdf5 env h5_path query_text top_k work_filter model_name w = Returns hits ∧
    Forall (λ h, row h ∈ rows ∧
                 work_ids !! Z.to_nat (row h) = Some (hit_work_id h) ∧
                 h5_str env <$> texts !! Z.to_nat (row h) = Some (hit_text h) ∧
                 work_title h
                 = title_of (load_rec (h5_str env) <$> works_idx) (hit_work_id h)) hits ∧
    NoDup (row <$> hits) ∧
    rank <$> hits = seqZ 1 (len hits) ∧
    (∀ flt lo hi, work_filter = Some flt → flt ≠ EmptyString →
                  find_work_rows (str_lower env) (load_rec (h5_str env) <$> works_idx) flt
                  = Some (lo, hi) →
                  Forall (λ h, lo ≤ row h < hi) hits).
Proof.
  intros Hfile Hstore Hq Hcand Hrows Htop.
  destruct (query_hdf5_run env w h5_path query_text model_name top_k work_filter
              h5 embs texts work_ids works_idx N D rows)
    as (scores & sel & hits & Hscan & Hlen & Hsel & Htopk & _ & _ & Hrun & Hrow & _ & Hrank);
    try done.
  pose proof Hrun as Hcollect.
  rewrite (query_hdf5_unfold env w h5_path query_text model_name top_k work_filter
             h5 embs texts work_ids works_idx N D rows) in Hcollect by done.
  rewrite Hscan in Hcollect. cbn [mbind outcome_bind] in Hcollect.
  rewrite Hsel in Hcollect. cbn [mbind outcome_bind] in Hcollect.
  pose proof (collect_fields _ _ _ _ _ _ _ _ _ Hcollect) as Hfields.
  destruct (candidate_rows_range _ _ _ _ _ Hcand) as (lo & hi & Hseq & Hflt).
  exists hits. split; [done|]. split; [exact Hfields|].
  split; [|split].
  - rewrite Hrow. apply NoDup_total_fmap.
    + rewrite Hseq. apply NoDup_seqZ.
    + apply Htopk.
    + rewrite <- Hlen. apply Htopk.
  - rewrite Hrank. f_equal. unfold len.
    by rewrite <- (length_fmap row hits), Hrow, length_fmap.
  - intros flt lo' hi' Hwf Hne Hfind.
    destruct (Hflt flt lo' hi' Hwf Hne Hfind) as [<- <-].
    eapply Forall_impl; [exact Hfields|]. intros h (Hin & _). simpl.
    rewrite Hseq in Hin. apply elem_of_seqZ in Hin. lia.
Qed.

Lemma query_hits_fields_witness :
  ∃ hits,
    query_hdf5 (H := scalar_numpy) repr_env "tie.h5" "dagger" 2 (Some "PLAY") "model"
      tie_world = Returns hits ∧
    Forall (λ h, row h ∈ [0; 1; 2] ∧
                 [0; 0; 0] !! Z.to_nat (row h) = Some (hit_work_id h) ∧
                 bytes_repr <$> ["first"; "second"; "third"] !! Z.to_nat (row h)
                 = Some (hit_text h) ∧
                 work_title h
                 = title_of (load_rec bytes_repr <$> tie_index) (hit_work_id h)) hits ∧
    NoDup (row <$> hits) ∧
    rank <$> hits = seqZ 1 (len hits) ∧
    (∀ flt lo hi, Some "PLAY" = Some flt → flt ≠ EmptyString →
                  find_work_rows ascii_lower (load_rec bytes_repr <$> tie_index) flt
                  = Some (lo, hi) →
                  Forall (λ h, lo ≤ row h < hi) hits).
Proof.
  apply (query_hits_fields (H := scalar_numpy) repr_env tie_world "tie.h5" "dagger"
           "model" 2 (Some "PLAY") tie_store tie_embeddings
           ["first"; "second"; "third"] [0; 0; 0] tie_index 3 2 [0; 1; 2]).
  - reflexivity.
  - exact tie_store_ok.
  - reflexivity.
  - reflexivity.
  - repeat constructor; lia.
  - lia.
Defined.

(** ** A negative [top_k] *)

Section Negative.
Context `{Numpy}.

(** The exact sort of the first [k] positions of a partition. *)
Lemma sorted_selection_topk (scores : list Z) (p : list nat) (k : nat) :
  p ≡ₚ seq 0 (length scores) →
  (k ≤ length scores)%nat →
  ((0 < k)%nat → partitioned (neg scores) p (k - 1)) →
  ∃ sel,
    (sub ← fancy scores (take k p); fancy (take k p) (argsort (neg sub))) = Returns sel ∧
    TopK scores k sel.
Proof.
  intros Hperm Hk Hpart.
  set (idx := take k p).
  set (order := argsort (neg (keys_of scores idx))).
  set (sel := (λ i : nat, idx !!! i) <$> order).
  assert (Hp_len : length p = length scores) by by apply perm_seq_length.
  assert (Hidx_len : length idx = k) by (unfold idx; rewrite length_take; lia).
  assert (Hidx_bound : Forall (λ i, (i < length scores)%nat) idx)
    by (by apply Forall_take, perm_seq_bound).
  assert (Horder : order ≡ₚ seq 0 (length idx)).
  { pose proof (argsort_ok (neg (keys_of scores idx))) as [Ho _].
    unfold neg, keys_of in Ho. by rewrite !length_fmap in Ho. }
  assert (Hsel : sel ≡ₚ idx) by by apply total_perm.
  exists sel. split.
  { rewrite fancy_in_range by done. cbn [mbind outcome_bind].
    fold (keys_of scores idx). apply fancy_in_range. by apply perm_seq_bound. }
  split.
  - by rewrite Hsel.
  - rewrite Hsel. unfold idx.
    assert (Hnd : NoDup (take k p ++ drop k p))
      by (rewrite take_drop; by eapply perm_seq_NoDup).
    by apply NoDup_app in Hnd as [? _].
  - by rewrite Hsel.
  - apply sorted_neg. rewrite <- keys_of_neg by (by rewrite Hsel).
    unfold sel. rewrite keys_of_compose by (by apply perm_seq_bound).
    rewrite keys_of_neg by done.
    apply (argsort_ok (neg (keys_of scores idx))).
  - intros i j Hi Hlt Hj. rewrite Hsel in Hi, Hj.
    assert (Hjp : j ∈ p) by (rewrite Hperm; apply elem_of_seq; lia).
    rewrite <- (take_drop k p) in Hjp. apply elem_of_app in Hjp as [Hjp|Hjp]; [done|].
    destruct k as [|k']; [by apply elem_of_nil in Hi|].
    assert (Hle : neg scores !!! i ≤ neg scores !!! j).
    { apply (partitioned_cross _ p k'); try done; try lia.
      replace k' with (S k' - 1)%nat at 1 by lia. apply Hpart. lia. }
    assert (Hi_lt : (i < length scores)%nat).
    { rewrite Forall_forall in Hidx_bound. by apply Hidx_bound. }
    unfold neg in Hle.
    rewrite (list_lookup_total_fmap Z.opp scores i Hi_lt),
      (list_lookup_total_fmap Z.opp scores j Hlt) in Hle. lia.
Qed.

Lemma top_k_select_negative (scores : list Z) (top_k : Z) :
  1 - len scores ≤ top_k → top_k < 0 →
  ∃ sel, top_k_select scores top_k = Returns sel ∧
         TopK scores (Z.to_nat (len scores + top_k)) sel.
Proof.
  intros Hlo Hneg. pose proof (len_nonneg scores) as Hn.
  assert (Hlen : len (neg scores) = len scores) by (unfold len; by rewrite neg_length).
  unfold top_k_select. rewrite Z.min_l by lia.
  destruct (argpartition_returns (neg scores) (top_k - 1)) as (p & Hp & Hperm & Hpart).
  { right. rewrite Hlen. unfold norm_kth. zcases; lia. }
  rewrite neg_length in Hperm. rewrite Hp. cbn [mbind outcome_bind].
  assert (Hslice : py_slice_to p top_k = take (Z.to_nat (len scores + top_k)) p).
  { unfold py_slice_to, py_slice.
    assert (len p = len scores) as -> by (unfold len; by rewrite (perm_seq_length _ _ Hperm)).
    unfold adjust_index. cbv zeta. zcases; try lia.
    rewrite drop_0. f_equal. lia. }
  rewrite Hslice.
  apply sorted_selection_topk; [done|unfold len; lia|].
  intros Hpos. rewrite Hlen in Hpart.
  assert (Hnorm : norm_kth (len scores) (top_k - 1) = len scores + top_k - 1)
    by (unfold norm_kth; zcases; lia).
  rewrite Hnorm in Hpart.
  replace (Z.to_nat (len scores + top_k) - 1)%nat
    with (Z.to_nat (len scores + top_k - 1)) by lia.
  apply Hpart. lia.
Qed.

Lemma top_k_select_too_negative (scores : list Z) (top_k : Z) :
  scores ≠ [] → top_k ≤ - len scores →
  top_k_select scores top_k = Raises ValueError.
Proof.
  intros Hne Hk. pose proof (len_nonneg scores) as Hn.
  assert (Hlen : len (neg scores) = len scores) by (unfold len; by rewrite neg_length).
  unfold top_k_select. rewrite Z.min_l by lia.
  pose proof (argpartition_ok (neg scores) (top_k - 1)) as Hspec.
  destruct (argpartition (neg scores) (top_k - 1)) as [p|e]; cbn in Hspec.
  - destruct Hspec as [[Hnil _]|(Hin & _)].
    + destruct scores; [done|discriminate].
    + rewrite Hlen in Hin. unfold norm_kth in Hin.
      destruct (Z.ltb_spec (top_k - 1) 0); lia.
  - by destruct Hspec as (-> & _).
Qed.

End Negative.

(** X9.  A negative [top_k] is not refused as such.  With [N ≥ 1]
    candidates, [top_k = −m] for [1 ≤ m < N] returns the [N − m]
    best-scoring candidates in descending order, that is, it leaves out
    the [m] worst; [top_k ≤ −N] raises [ValueError]. *)
Theorem query_negative_top_k `{Numpy} env w h5_path query_text model_name top_k
    work_filter h5 embs texts work_ids works_idx N D rows :
  files w !! h5_path = Some h5 →
  StoreOk h5 embs texts work_ids works_idx N D →
  len (embed_query env model_name query_text) = D →
  candidate_rows (str_lower env) (load_rec (h5_str env) <$> works_idx) work_filter embs
  = Returns rows →
  Forall (λ r, 0 ≤ r < N) rows →
  rows ≠ [] → top_k < 0 →
  (1 - len rows ≤ top_k →
   ∃ scores hits,
     scan_scores embs (embed_query env model_name query_text) rows = Returns scores ∧
     query_hdf5 env h5_path query_text top_k work_filter model_name w = Returns hits ∧
     len hits = len rows + top_k ∧
     Sorted (λ x y, y ≤ x) (score <$> hits) ∧
     (∀ h (j : nat) rj sj,
        h ∈ hits → rows !! j = Some rj → scores !! j = Some sj →
        rj ∉ row <$> hits → sj ≤ score h)) ∧
  (top_k ≤ - len rows →
   query_hdf5 env h5_path query_text top_k work_filter model_name w = Raises ValueError).
Proof.
  intros Hfile Hstore Hq Hcand Hrows Hne Hneg.
  rewrite (query_hdf5_unfold env w h5_path query_text model_name top_k work_filter
             h5 embs texts work_ids works_idx N D rows) by done.
  destruct Hstore.
  destruct (scan_scores_returns embs (embed_query env model_name query_text) rows N D)
    as (scores & Hscan & Hlen); try done.
  rewrite Hscan. cbn [mbind outcome_bind].
  assert (Hlen' : len scores = len rows) by (unfold len; by rewrite Hlen).
  split.
  - intros Hlo.
    destruct (top_k_select_negative scores top_k) as (sel & Hsel & Htopk); [lia|done|].
    rewrite Hsel. cbn [mbind outcome_bind].
    destruct (collect_spec (h5_str env) rows scores work_ids texts
                (load_rec (h5_str env) <$> works_idx) N 1 sel)
      as (hits & Hcollect & Hrow & Hscore & _); try done.
    { rewrite <- Hlen. apply Htopk. }
    exists scores, hits. split; [done|]. split; [done|]. split; [|split].
    + unfold len at 1. rewrite <- (length_fmap row hits), Hrow, length_fmap.
      rewrite (topk_length _ _ _ Htopk). lia.
    + rewrite Hscore. apply Htopk.
    + intros h j rj sj Hh Hj Hsj Hout.
      apply (list_elem_of_fmap_2 score) in Hh. rewrite Hscore in Hh.
      unfold keys_of in Hh. apply list_elem_of_fmap in Hh as (i & -> & Hi).
      rewrite <- (list_lookup_total_correct _ _ _ Hsj).
      apply (topk_dominates _ _ _ Htopk); [done|by eapply lookup_lt_Some|].
      intros Hjsel. apply Hout. rewrite Hrow.
      apply list_elem_of_fmap. exists j. split; [|done].
      by rewrite (list_lookup_total_correct _ _ _ Hj).
  - intros Hhi. rewrite top_k_select_too_negative; [done| |lia].
    intros ->. destruct rows; [done|discriminate].
Qed.

Lemma query_negative_top_k_witness :
  (1 - len [0; 1; 2] ≤ -1 →
   ∃ scores hits,
     scan_scores (H := scalar_numpy) tie_embeddings
       (embed_query unit_env "model" "dagger") [0; 1; 2] = Returns scores ∧
     query_hdf5 (H := scalar_numpy) unit_env "tie.h5" "dagger" (-1) None "model" tie_world
       = Returns hits ∧
     len hits = len [0; 1; 2] + -1 ∧
     Sorted (λ x y, y ≤ x) (score <$> hits) ∧
     (∀ h (j : nat) rj sj,
        h ∈ hits → [0; 1; 2] !! j = Some rj → scores !! j = Some sj →
        rj ∉ row <$> hits → sj ≤ score h)) ∧
  (-1 ≤ - len [0; 1; 2] →
   query_hdf5 (H := scalar_numpy) unit_env "tie.h5" "dagger" (-1) None "model" tie_world
     = Raises ValueError).
Proof.
  apply (query_negative_top_k (H := scalar_numpy) unit_env tie_world "tie.h5" "dagger"
           "model" (-1) None tie_store tie_embeddings
           ["first"; "second"; "third"] [0; 0; 0] tie_index 3 2 [0; 1; 2]).
  - reflexivity.
  - exact tie_store_ok.
  - reflexivity.
  - reflexivity.
  - repeat constructor; lia.
  - done.
  - lia.
Defined.

(** ** The windows of the build script's chunker *)

(** The last window is the first one whose end reaches [n]. *)
Lemma spec_window_count_last (n max_tokens step : Z) :
  0 < n → 0 < step → step ≤ max_tokens →
  let c := Z.of_nat (spec_window_count n max_tokens step) in
  0 < c ∧ (c - 1) * step < n ∧ n ≤ (c - 1) * step + max_tokens ∧
  (∀ i, 0 ≤ i < c - 1 → i * step + max_tokens < n).
Proof.
  intros Hn Hs Hm. unfold spec_window_count.
  destruct (Z.leb_spec n 0); [lia|].
  destruct (Z.leb_spec n max_tokens).
  - cbn. repeat split; try lia.
  - destruct (last_window_index n max_tokens step) as (Hq & Hlt & Hge & Hbefore & _);
      [lia..|].
    cbv zeta. rewrite Z2Nat.id by lia.
    replace ((n - max_tokens + step - 1) / step + 1 - 1)
      with ((n - max_tokens + step - 1) / step) by lia.
    repeat split; try lia. exact Hbefore.
Qed.

(** X10.  The windows [chunk_text_by_tokens] cuts.  The [i]-th chunk
    starts at token [i · (max_tokens − stride)], is non-empty, at most
    [max_tokens] tokens wide, lies inside the token list and carries the
    decoding of exactly its tokens; the chunk whose window ends at the
    last token is the last chunk and no other; every token position lies
    in the window of some chunk; and there is no chunk only when the text
    has no token. *)
Theorem chunk_text_by_tokens_covers tokenizer text max_tokens stride :
  0 < max_tokens → 0 ≤ stride < max_tokens →
  let ids := encode tokenizer text in
  ∃ chunks,
    BuildScript.chunk_text_by_tokens tokenizer text max_tokens stride = Returns chunks ∧
    (∀ (i : nat) t s e,
       chunks !! i = Some (t, s, e) →
       s = Z.of_nat i * (max_tokens - stride) ∧
       0 ≤ s ∧ s < e ∧ e ≤ len ids ∧ e - s ≤ max_tokens ∧
       len (py_slice ids s e) = e - s ∧
       t = decode_clean tokenizer (py_slice ids s e) ∧
       (e = len ids ↔ S i = length chunks)) ∧
    (∀ p, 0 ≤ p < len ids →
       ∃ t s e, (t, s, e) ∈ chunks ∧ s ≤ p ∧ p < e) ∧
    (chunks = [] ↔ ids = []).
Proof.
  intros Hm Hs ids. eexists. split; [by apply chunk_text_by_tokens_spec|].
  fold ids. set (step := max_tokens - stride).
  set (c := spec_window_count (len ids) max_tokens step).
  pose proof (len_nonneg ids) as Hn.
  assert (Hstep : 0 < step ∧ step ≤ max_tokens) by (unfold step; lia).
  split; [|split].
  - intros i t s e Hi.
    rewrite list_lookup_fmap in Hi.
    destruct (seq 0 c !! i) as [j|] eqn:Hj; [|discriminate].
    apply lookup_seq in Hj as [-> Hlt]. simpl in Hi, Hlt.
    assert (Hpos : 0 < len ids).
    { unfold c, spec_window_count in Hlt. destruct (Z.leb_spec (len ids) 0); lia. }
    destruct (spec_window_count_last (len ids) max_tokens step)
      as (Hc & Hlast & Hreach & Hbefore); [lia..|]. fold c in Hc, Hlast, Hreach, Hbefore.
    unfold chunk_at, spec_window in Hi. cbn in Hi.
    injection Hi as <- <- <-.
    assert (Hstart : Z.of_nat i * step < len ids) by nia.
    assert (Hend : Z.of_nat i * step < Z.min (Z.of_nat i * step + max_tokens) (len ids))
      by lia.
    repeat split; try lia.
    + rewrite py_slice_length by lia. lia.
    + intros He. rewrite length_fmap, length_seq.
      destruct (decide (Z.of_nat i < Z.of_nat c - 1)) as [Hlt'|]; [|lia].
      specialize (Hbefore (Z.of_nat i)). lia.
    + rewrite length_fmap, length_seq. intros Heq.
      assert (Z.of_nat i = Z.of_nat c - 1) as -> by lia. lia.
  - intros p Hp.
    destruct (spec_window_count_last (len ids) max_tokens step)
      as (Hc & Hlast & Hreach & Hbefore); [lia..|]. fold c in Hc, Hlast, Hreach, Hbefore.
    set (i := Z.to_nat (Z.min (p / step) (Z.of_nat c - 1))).
    assert (Hdiv : 0 ≤ p / step) by (apply Z.div_pos; lia).
    assert (Hmul : step * (p / step) ≤ p) by (apply Z.mul_div_le; lia).
    assert (Hsucc : p < step * Z.succ (p / step)) by (apply Z.mul_succ_div_gt; lia).
    exists (decode_clean tokenizer
              (py_slice ids (Z.of_nat i * step)
                 (Z.min (Z.of_nat i * step + max_tokens) (len ids)))),
      (Z.of_nat i * step), (Z.min (Z.of_nat i * step + max_tokens) (len ids)).
    split; [|split].
    + apply list_elem_of_fmap. exists i. split; [reflexivity|].
      apply elem_of_seq. unfold i. lia.
    + unfold i. rewrite Z2Nat.id by lia. nia.
    + unfold i. rewrite Z2Nat.id by lia.
      destruct (Z.le_gt_cases (p / step) (Z.of_nat c - 1)).
      * rewrite (Z.min_l (p / step)) by lia. apply Z.min_glb_lt; nia.
      * rewrite (Z.min_r (p / step)) by lia. apply Z.min_glb_lt; lia.
  - split.
    + intros Hnil. apply fmap_nil_inv in Hnil.
      apply (f_equal length) in Hnil. rewrite length_seq in Hnil. simpl in Hnil.
      destruct (decide (0 < len ids)) as [Hpos|Hz].
      * destruct (spec_window_count_last (len ids) max_tokens step) as (Hc & _); [lia..|].
        fold c in Hc. lia.
      * destruct ids; [done|]. unfold len in Hz. simpl in Hz. lia.
    + intros ->. reflexivity.
Qed.

Lemma chunk_text_by_tokens_covers_witness :
  let ids := encode char_tokenizer "to be" in
  ∃ chunks,
    BuildScript.chunk_text_by_tokens char_tokenizer "to be" 4 1 = Returns chunks ∧
    (∀ (i : nat) t s e,
       chunks !! i = Some (t, s, e) →
       s = Z.of_nat i * (4 - 1) ∧
       0 ≤ s ∧ s < e ∧ e ≤ len ids ∧ e - s ≤ 4 ∧
       len (py_slice ids s e) = e - s ∧
       t = decode_clean char_tokenizer (py_slice ids s e) ∧
       (e = len ids ↔ S i = length chunks)) ∧
    (∀ p, 0 ≤ p < len ids →
       ∃ t s e, (t, s, e) ∈ chunks ∧ s ≤ p ∧ p < e) ∧
    (chunks = [] ↔ ids = []).
Proof.
  apply (chunk_text_by_tokens_covers char_tokenizer "to be" 4 1); lia.
Defined.

(** ** The chunks of [chunk_by_tokens] *)

(** The width in bytes of the whitespace character a byte sequence begins
    with, 0 when it begins with none. *)
Definition space_width (w1 : Z → bool) (w2 : Z → Z → bool) (w3 : Z → Z → Z → bool)
    (s : list Ascii.ascii) : nat :=
  match s with
  | [] => 0
  | c :: s1 =>
      if w1 (byte_of c) then 1
      else
        match s1 with
        | [] => 0
        | d :: s2 =>
            if w2 (byte_of c) (byte_of d) then 2
            else
              match s2 with
              | [] => 0
              | e :: _ => if w3 (byte_of c) (byte_of d) (byte_of e) then 3 else 0
              end
        end
  end%nat.

Section Strip.
Variables (w1 : Z → bool) (w2 : Z → Z → bool) (w3 : Z → Z → Z → bool).

Lemma lstrip_with_unfold s :
  lstrip_with w1 w2 w3 s
  = match space_width w1 w2 w3 s with
    | O => s
    | k => lstrip_with w1 w2 w3 (drop k s)
    end.
Proof.
  destruct s as [|c s1]; [done|]. cbn [lstrip_with space_width].
  destruct (w1 (byte_of c)); [done|].
  destruct s1 as [|d s2]; [done|].
  destruct (w2 (byte_of c) (byte_of d)); [done|].
  destruct s2 as [|e s3]; [done|].
  by destruct (w3 (byte_of c) (byte_of d) (byte_of e)).
Qed.

Lemma space_width_le s : (space_width w1 w2 w3 s ≤ length s)%nat.
Proof.
  destruct s as [|c [|d [|e s3]]]; cbn [space_width length];
    repeat case_match; lia.
Qed.

(** The first bytes decide. *)
Lemma space_width_app p t :
  space_width w1 w2 w3 p ≠ 0%nat →
  space_width w1 w2 w3 (p ++ t) = space_width w1 w2 w3 p.
Proof.
  destruct p as [|c [|d [|e p3]]]; cbn [space_width app]; try done;
    repeat case_match; try done.
Qed.

Lemma lstrip_with_bounded (n : nat) :
  ∀ s, (length s ≤ n)%nat →
       (∃ pre, s = pre ++ lstrip_with w1 w2 w3 s) ∧
       lstrip_with w1 w2 w3 (lstrip_with w1 w2 w3 s) = lstrip_with w1 w2 w3 s.
Proof.
  induction n as [|n IH]; intros s Hlen.
  { destruct s; [|simpl in Hlen; lia]. split; [by exists []|done]. }
  pose proof (space_width_le s) as Hw.
  rewrite (lstrip_with_unfold s).
  destruct (space_width w1 w2 w3 s) as [|k] eqn:Hk.
  - split; [by exists []|]. by rewrite lstrip_with_unfold, Hk.
  - destruct (IH (drop (S k) s)) as [[pre Hpre] Hidem].
    { rewrite length_drop. lia. }
    split; [|exact Hidem].
    exists (take (S k) s ++ pre). rewrite <- app_assoc, <- Hpre. by rewrite take_drop.
Qed.

Lemma lstrip_with_suffix s : ∃ pre, s = pre ++ lstrip_with w1 w2 w3 s.
Proof. by apply (lstrip_with_bounded (length s)). Qed.

Lemma lstrip_with_idemp s :
  lstrip_with w1 w2 w3 (lstrip_with w1 w2 w3 s) = lstrip_with w1 w2 w3 s.
Proof. by apply (lstrip_with_bounded (length s)). Qed.

(** A sequence that begins with no whitespace has no prefix that does. *)
Lemma lstrip_with_prefix x p :
  lstrip_with w1 w2 w3 x = x → p `prefix_of` x → lstrip_with w1 w2 w3 p = p.
Proof.
  intros Hx [t ->]. rewrite (lstrip_with_unfold p).
  destruct (space_width w1 w2 w3 p) as [|k] eqn:Hk; [done|exfalso].
  assert (Hkt : space_width w1 w2 w3 (p ++ t) = S k)
    by (rewrite space_width_app by (rewrite Hk; lia); exact Hk).
  rewrite lstrip_with_unfold, Hkt in Hx.
  destruct (lstrip_with_suffix (drop (S k) (p ++ t))) as [pre Hpre].
  pose proof (space_width_le (p ++ t)) as Hle. rewrite Hkt in Hle.
  apply (f_equal length) in Hpre. rewrite Hx, length_app, length_drop in Hpre. lia.
Qed.

End Strip.

(** What [strip] returns neither begins nor ends with a whitespace
    character. *)
Lemma strip_stripped (s : string) :
  lstrip (strip s) = strip s ∧ rstrip (strip s) = strip s.
Proof.
  unfold strip, rstrip, lstrip.
  rewrite !String.list_ascii_of_string_of_list_ascii.
  set (y := lstrip_with space1 space2 space3 (String.list_ascii_of_string s)).
  set (w2' := λ c d, space2 d c). set (w3' := λ c d e, space3 e d c).
  split; f_equal.
  - apply (lstrip_with_prefix _ _ _ y); [apply lstrip_with_idemp|].
    destruct (lstrip_with_suffix space1 w2' w3' (rev y)) as [pre Hpre].
    exists (rev pre). rewrite <- rev_app_distr, <- Hpre. by rewrite rev_involutive.
  - by rewrite rev_involutive, lstrip_with_idemp.
Qed.

(** A no-break space at the end of a window is stripped like a space. *)
Example chunk_by_tokens_strips_no_break_space :
  chunk_by_tokens char_tokenizer (" ab" +:+ no_break_space) 8 1 = Returns ["ab"].
Proof. reflexivity. Qed.

(** X11.  The chunks [chunk_by_tokens] returns for a positive
    [max_tokens]: none is empty, none begins or ends with a whitespace
    character ([lstrip], [rstrip] and [strip] leave it as it is), each is
    the stripped decoding of the window of at most [max_tokens] tokens that
    starts at some multiple of the step inside the token list, and there
    are at most as many chunks as there are such starts: a window that
    decodes to whitespace only gives no chunk. *)
Theorem chunk_by_tokens_chunks_stripped tokenizer text max_tokens overlap :
  0 < max_tokens →
  let ids := encode tokenizer text in
  let step := if overlap <? max_tokens then max_tokens - overlap else max_tokens in
  ∃ chunks,
    chunk_by_tokens tokenizer text max_tokens overlap = Returns chunks ∧
    Forall (λ c,
      c ≠ EmptyString ∧
      lstrip c = c ∧ rstrip c = c ∧ strip c = c ∧
      ∃ i : nat,
        Z.of_nat i * step < len ids ∧
        0 < len (py_slice ids (Z.of_nat i * step) (Z.of_nat i * step + max_tokens))
          ≤ max_tokens ∧
        c = strip (decode_skip tokenizer
                     (py_slice ids (Z.of_nat i * step) (Z.of_nat i * step + max_tokens))))
      chunks ∧
    len chunks ≤ (len ids + step - 1) / step.
Proof.
  intros Hm ids step. eexists. split; [by apply chunk_by_tokens_spec|].
  fold ids step. pose proof (len_nonneg ids) as Hn.
  assert (Hstep : 0 < step) by (unfold step; zcases; lia).
  split.
  - apply Forall_forall. intros c Hc.
    apply list_elem_of_filter in Hc as [Hne Hc].
    apply list_elem_of_fmap in Hc as (s & -> & Hs).
    assert (Hpos : 0 < len ids).
    { destruct (Z.le_gt_cases (len ids) 0); [|done].
      rewrite py_range_nil in Hs by lia. by apply elem_of_nil in Hs. }
    pose proof (py_range_bounds (len ids) step Hstep) as Hb.
    rewrite Forall_forall in Hb. specialize (Hb s Hs).
    rewrite py_range_pos in Hs by lia.
    apply list_elem_of_fmap in Hs as (i & -> & _).
    unfold window_text in *.
    destruct (strip_stripped (decode_skip tokenizer
                (py_slice ids (Z.of_nat i * step) (Z.of_nat i * step + max_tokens))))
      as [Hl Hr].
    split.
    { intros Hempty. rewrite Hempty in Hne. by destruct Hne. }
    split; [exact Hl|]. split; [exact Hr|]. split.
    { unfold strip at 1. by rewrite Hl, Hr. }
    exists i. split; [lia|]. split; [|reflexivity].
    rewrite py_slice_length by lia. lia.
  - etransitivity.
    { unfold len. apply inj_le, length_filter. }
    rewrite length_fmap. unfold py_range. rewrite length_fmap, length_seq.
    unfold range_len. destruct (Z.ltb_spec 0 step); [|lia].
    change (Z.of_nat (length ids)) with (len ids).
    destruct (Z.ltb_spec 0 (len ids)).
    + rewrite Z2Nat.id.
      * replace (len ids + step - 1) with (len ids - 0 - 1 + 1 * step) by lia.
        rewrite Z.div_add by lia. lia.
      * assert (0 ≤ (len ids - 0 - 1) / step) by (apply Z.div_pos; lia). lia.
    + simpl. apply Z.div_pos; lia.
Qed.

Lemma chunk_by_tokens_chunks_stripped_witness :
  let text := " to be" +:+ no_break_space in
  let ids := encode char_tokenizer text in
  let step := if 1 <? 16 then 16 - 1 else 16 in
  ∃ chunks,
    chunk_by_tokens char_tokenizer text 16 1 = Returns chunks ∧
    Forall (λ c,
      c ≠ EmptyString ∧
      lstrip c = c ∧ rstrip c = c ∧ strip c = c ∧
      ∃ i : nat,
        Z.of_nat i * step < len ids ∧
        0 < len (py_slice ids (Z.of_nat i * step) (Z.of_nat i * step + 16)) ≤ 16 ∧
        c = strip (decode_skip char_tokenizer
                     (py_slice ids (Z.of_nat i * step) (Z.of_nat i * step + 16))))
      chunks ∧
    len chunks ≤ (len ids + step - 1) / step.
Proof.
  apply (chunk_by_tokens_chunks_stripped char_tokenizer (" to be" +:+ no_break_space) 16 1).
  lia.
Defined.

(** X12.  [chunk_by_tokens] does not check its parameters.  On a text
    with at least one token, [max_tokens = 0] with a non-negative
    [overlap] makes the step zero and [range] raises [ValueError];
    [max_tokens = 0] with a negative [overlap] returns no chunk, because
    the first window is empty; and a negative [max_tokens] with
    [overlap ≥ max_tokens] returns no chunk, because the range of starts
    is empty. *)
Theorem chunk_by_tokens_unchecked_width tokenizer text max_tokens overlap :
  encode tokenizer text ≠ [] →
  max_tokens ≤ 0 →
  (max_tokens = 0 → 0 ≤ overlap →
   chunk_by_tokens tokenizer text max_tokens overlap = Raises ValueError) ∧
  (max_tokens = 0 → overlap < 0 →
   chunk_by_tokens tokenizer text max_tokens overlap = Returns []) ∧
  (max_tokens < 0 → max_tokens ≤ overlap →
   chunk_by_tokens tokenizer text max_tokens overlap = Returns []).
Proof.
  intros Hne Hm. unfold chunk_by_tokens.
  destruct (encode tokenizer text) as [|t ts] eqn:Hids; [done|].
  assert (Hlen : 0 < len (t :: ts)) by (unfold len; simpl; lia).
  split; [|split].
  - intros -> Ho. destruct (Z.ltb_spec overlap 0); [lia|]. reflexivity.
  - intros -> Ho. destruct (Z.ltb_spec overlap 0); [|lia].
    unfold range. destruct (Z.eqb_spec (0 - overlap) 0); [lia|].
    cbn [mbind outcome_bind]. f_equal.
    rewrite py_range_pos by lia.
    destruct (Z.to_nat ((len (t :: ts) - 1) / (0 - overlap) + 1)) as [|k]; [done|].
    cbn [seq fmap list_fmap chunk_loop].
    replace (py_slice (t :: ts) (Z.of_nat 0 * (0 - overlap))
               (Z.of_nat 0 * (0 - overlap) + 0)) with (@nil token); [done|].
    unfold py_slice. rewrite !adjust_index_clamp by lia.
    by rewrite Z.sub_diag.
  - intros Hneg Ho. destruct (Z.ltb_spec overlap max_tokens); [lia|].
    unfold range. destruct (Z.eqb_spec max_tokens 0); [lia|].
    cbn [mbind outcome_bind]. f_equal.
    unfold py_range, range_len.
    destruct (Z.ltb_spec 0 max_tokens); [lia|].
    destruct (Z.ltb_spec max_tokens 0); [|lia].
    destruct (Z.ltb_spec (len (t :: ts)) 0); [lia|]. reflexivity.
Qed.

Lemma chunk_by_tokens_unchecked_width_witness :
  (0 = 0 → 0 ≤ 32 →
   chunk_by_tokens char_tokenizer "to be" 0 32 = Raises ValueError) ∧
  (0 = 0 → 32 < 0 →
   chunk_by_tokens char_tokenizer "to be" 0 32 = Returns []) ∧
  (0 < 0 → 0 ≤ 32 →
   chunk_by_tokens char_tokenizer "to be" 0 32 = Returns []).
Proof.
  apply (chunk_by_tokens_unchecked_width char_tokenizer "to be" 0 32); [done|lia].
Defined.

(** ** Downloading from Project Gutenberg *)

Lemma download_loop_first_served get urls :
  match Gutenberg.download_loop get urls with
  | Returns (txt, url) =>
      ∃ i : nat, urls !! i = Some url ∧ Gutenberg.served get url txt ∧
        ∀ (j : nat) u, (j < i)%nat → urls !! j = Some u →
                       ¬ ∃ t, Gutenberg.served get u t
  | Raises e =>
      e = RuntimeError ∧ ∀ u, u ∈ urls → ¬ ∃ t, Gutenberg.served get u t
  end.
Proof.
  induction urls as [|url rest IH].
  { cbn. split; [done|]. intros u Hu. by apply elem_of_nil in Hu. }
  cbn [Gutenberg.download_loop].
  assert (Hskip : (¬ ∃ t, Gutenberg.served get url t) →
    match Gutenberg.download_loop get rest with
    | Returns (txt, url') =>
        ∃ i : nat, (url :: rest) !! i = Some url' ∧ Gutenberg.served get url' txt ∧
          ∀ (j : nat) u, (j < i)%nat → (url :: rest) !! j = Some u →
                         ¬ ∃ t, Gutenberg.served get u t
    | Raises e =>
        e = RuntimeError ∧ ∀ u, u ∈ url :: rest → ¬ ∃ t, Gutenberg.served get u t
    end).
  { intros Hno. destruct (Gutenberg.download_loop get rest) as [[txt url']|e].
    - destruct IH as (i & Hi & Hs & Hbefore). exists (S i). split; [done|]. split; [done|].
      intros [|j] u Hj Hu.
      + injection Hu as <-. exact Hno.
      + apply (Hbefore j); [lia|done].
    - destruct IH as [-> Hall]. split; [done|].
      intros u Hu. apply elem_of_cons in Hu as [->|Hu]; [exact Hno|by apply Hall]. }
  destruct (get url) as [resp|e] eqn:Hget.
  - destruct (Gutenberg.ok resp) eqn:Hok; cbn [andb].
    + destruct (Gutenberg.text resp) as [|c r] eqn:Htxt; cbn [truthy].
      * apply Hskip. intros (t & resp' & Hr & _ & Ht & Hne).
        rewrite Hget in Hr. injection Hr as <-. congruence.
      * exists 0%nat. split; [done|]. split.
        -- exists resp. by rewrite Htxt.
        -- intros j u Hj. lia.
    + apply Hskip. intros (t & resp' & Hr & Hok' & _).
      rewrite Hget in Hr. injection Hr as <-. congruence.
  - apply Hskip. intros (t & resp' & Hr & _). by rewrite Hget in Hr.
Qed.

(** X13.  [download_gutenberg_text] returns the text and the address of
    the first of the five candidate addresses whose request succeeds with
    a non-empty text, whatever the requests before it did: an exception
    of a request is not passed on.  When no candidate serves a text it
    raises [RuntimeError] and nothing else. *)
Theorem download_gutenberg_text_first_served get gutenberg_id :
  let urls := Gutenberg.candidate_gutenberg_urls gutenberg_id in
  length urls = 5%nat ∧
  match Gutenberg.download_gutenberg_text get gutenberg_id with
  | Returns (txt, url) =>
      ∃ i : nat, urls !! i = Some url ∧ Gutenberg.served get url txt ∧
        ∀ (j : nat) u, (j < i)%nat → urls !! j = Some u →
                       ¬ ∃ t, Gutenberg.served get u t
  | Raises e =>
      e = RuntimeError ∧ ∀ u, u ∈ urls → ¬ ∃ t, Gutenberg.served get u t
  end.
Proof.
  split; [reflexivity|]. apply download_loop_first_served.
Qed.

(** ** The selection of the query demonstration *)

Section Demo.
Context `{Numpy}.

Lemma sorted_tail_topk (sims : list Z) (p : list nat) (c : nat) :
  p ≡ₚ seq 0 (length sims) →
  (c < length sims)%nat →
  partitioned sims p c →
  ∃ sel,
    (sub ← fancy sims (drop c p); fancy (drop c p) (argsort (neg sub))) = Returns sel ∧
    TopK sims (length sims - c) sel.
Proof.
  intros Hperm Hc Hpart.
  set (idx := drop c p).
  set (order := argsort (neg (keys_of sims idx))).
  set (sel := (λ i : nat, idx !!! i) <$> order).
  assert (Hp_len : length p = length sims) by by apply perm_seq_length.
  assert (Hidx_len : length idx = (length sims - c)%nat)
    by (unfold idx; rewrite length_drop; lia).
  assert (Hidx_bound : Forall (λ i, (i < length sims)%nat) idx)
    by (by apply Forall_drop, perm_seq_bound).
  assert (Horder : order ≡ₚ seq 0 (length idx)).
  { pose proof (argsort_ok (neg (keys_of sims idx))) as [Ho _].
    unfold neg, keys_of in Ho. by rewrite !length_fmap in Ho. }
  assert (Hsel : sel ≡ₚ idx) by by apply total_perm.
  exists sel. split.
  { rewrite fancy_in_range by done. cbn [mbind outcome_bind].
    fold (keys_of sims idx). apply fancy_in_range. by apply perm_seq_bound. }
  split.
  - by rewrite Hsel.
  - rewrite Hsel. unfold idx.
    assert (Hnd : NoDup (take c p ++ drop c p))
      by (rewrite take_drop; by eapply perm_seq_NoDup).
    by apply NoDup_app in Hnd as (_ & _ & ?).
  - by rewrite Hsel.
  - apply sorted_neg. rewrite <- keys_of_neg by (by rewrite Hsel).
    unfold sel. rewrite keys_of_compose by (by apply perm_seq_bound).
    rewrite keys_of_neg by done.
    apply (argsort_ok (neg (keys_of sims idx))).
  - intros i j Hi Hlt Hj. rewrite Hsel in Hi, Hj.
    assert (Hjp : j ∈ p) by (rewrite Hperm; apply elem_of_seq; lia).
    rewrite <- (take_drop c p) in Hjp. apply elem_of_app in Hjp as [Hjp|Hjp]; [|done].
    apply elem_of_take in Hjp as (y & Hy & Hyc).
    apply list_elem_of_lookup in Hi as (x & Hx). unfold idx in Hx.
    rewrite lookup_drop in Hx.
    destruct (lookup_lt_is_Some_2 p c ltac:(lia)) as [pc Hpc].
    assert (Hkeys : ∀ pos ix, p !! pos = Some ix →
                              keys_of sims p !! pos = Some (sims !!! ix)).
    { intros pos ix Hpos. unfold keys_of. by rewrite list_lookup_fmap, Hpos. }
    destruct (Hpart y _ _ (Hkeys _ _ Hy) (Hkeys _ _ Hpc)) as [Hle _].
    destruct (Hpart (c + x)%nat _ _ (Hkeys _ _ Hx) (Hkeys _ _ Hpc)) as [_ Hge].
    specialize (Hle ltac:(lia)). specialize (Hge ltac:(lia)). lia.
Qed.

Lemma topk_indices_accepts (sims : list Z) (k : Z) :
  - len sims < k → k ≤ len sims →
  ∃ sel, BuildQuery.topk_indices sims k = Returns sel ∧
         TopK sims (BuildQuery.result_count (len sims) k) sel.
Proof.
  intros Hlo Hhi. pose proof (len_nonneg sims) as Hn.
  set (c := if 0 <? k then len sims - k else - k).
  assert (Hc : 0 ≤ c < len sims) by (unfold c; zcases; lia).
  assert (Hnorm : norm_kth (len sims) (- k) = c) by (unfold norm_kth, c; zcases; lia).
  unfold BuildQuery.topk_indices.
  destruct (argpartition_returns sims (- k)) as (p & Hp & Hperm & Hpart).
  { right. by rewrite Hnorm. }
  rewrite Hp. cbn [mbind outcome_bind].
  rewrite Hnorm in Hpart. specialize (Hpart Hc).
  assert (Hp_len : len p = len sims) by (unfold len; by rewrite (perm_seq_length _ _ Hperm)).
  assert (Hslice : BuildQuery.py_slice_from p (- k) = drop (Z.to_nat c) p).
  { unfold BuildQuery.py_slice_from, py_slice. rewrite Hp_len.
    assert (adjust_index (len sims) (- k) = c) as ->
      by (unfold adjust_index, c; cbv zeta; zcases; lia).
    assert (adjust_index (len sims) (len sims) = len sims) as ->
      by (unfold adjust_index; cbv zeta; zcases; lia).
    apply take_ge. rewrite length_drop. unfold len in *. lia. }
  rewrite Hslice.
  destruct (sorted_tail_topk sims p (Z.to_nat c)) as (sel & Hsel & Htopk);
    [done|unfold len in *; lia|done|].
  exists sel. split; [done|].
  replace (BuildQuery.result_count (len sims) k) with (length sims - Z.to_nat c)%nat;
    [done|].
  unfold BuildQuery.result_count, c, len in *. zcases; lia.
Qed.

Lemma topk_indices_refuses (sims : list Z) (k : Z) :
  sims ≠ [] → len sims < k ∨ k ≤ - len sims →
  BuildQuery.topk_indices sims k = Raises ValueError.
Proof.
  intros Hne Hk. pose proof (len_nonneg sims) as Hn.
  unfold BuildQuery.topk_indices.
  pose proof (argpartition_ok sims (- k)) as Hspec.
  destruct (argpartition sims (- k)) as [p|e]; cbn in Hspec.
  - destruct Hspec as [[Hnil _]|(Hin & _)]; [done|].
    unfold norm_kth in Hin. destruct (Z.ltb_spec (- k) 0); lia.
  - by destruct Hspec as (-> & _).
Qed.

End Demo.

(** X14.  The selection of the query demonstration,
    [np.argpartition(sims, -k)[-k:]] followed by the exact sort, on [N ≥ 1]
    similarities.  For [1 ≤ k ≤ N] it gives the [k] highest-scoring
    positions in descending order.  [k = 0] gives all [N] positions, and
    [k = −m] with [0 < m < N] gives the best [N − m].  A [k] above [N]
    is not clamped: it raises [ValueError], and so does [k ≤ −N]. *)
Theorem topk_indices_cases `{Numpy} (sims : list Z) (k : Z) :
  sims ≠ [] →
  (- len sims < k ≤ len sims →
   ∃ sel, BuildQuery.topk_indices sims k = Returns sel ∧
          TopK sims (BuildQuery.result_count (len sims) k) sel ∧
          (0 < k → len sel = k) ∧ (k = 0 → sel ≡ₚ seq 0 (length sims))) ∧
  (len sims < k ∨ k ≤ - len sims →
   BuildQuery.topk_indices sims k = Raises ValueError).
Proof.
  intros Hne. split; [|by apply topk_indices_refuses].
  intros [Hlo Hhi].
  destruct (topk_indices_accepts sims k Hlo Hhi) as (sel & Hsel & Htopk).
  exists sel. split; [done|]. split; [done|]. split.
  - intros Hk. unfold len at 1. rewrite (topk_length _ _ _ Htopk).
    unfold BuildQuery.result_count. destruct (Z.ltb_spec 0 k); lia.
  - intros ->. apply NoDup_Permutation.
    + apply Htopk.
    + apply NoDup_seq.
    + intros i. split.
      * intros Hi. apply elem_of_seq.
        pose proof (topk_bound _ _ _ Htopk) as Hb. rewrite Forall_forall in Hb.
        specialize (Hb i Hi). lia.
      * intros Hi. apply elem_of_seq in Hi.
        destruct (decide (i ∈ sel)) as [|Hout]; [done|exfalso].
        assert (Hsub : sel ⊆+ seq 0 (length sims)).
        { apply NoDup_submseteq; [apply Htopk|].
          intros j Hj. apply elem_of_seq.
          pose proof (topk_bound _ _ _ Htopk) as Hb. rewrite Forall_forall in Hb.
          specialize (Hb j Hj). lia. }
        assert (Hall : seq 0 (length sims) ≡ₚ sel).
        { symmetry. apply submseteq_length_Permutation; [done|].
          rewrite length_seq, (topk_length _ _ _ Htopk).
          unfold BuildQuery.result_count, len. simpl. lia. }
        apply Hout. rewrite <- Hall. apply elem_of_seq. lia.
Qed.

Lemma topk_indices_cases_witness :
  (- len [3; 1; 2] < 5 ≤ len [3; 1; 2] →
   ∃ sel, BuildQuery.topk_indices (H := scalar_numpy) [3; 1; 2] 5 = Returns sel ∧
          TopK [3; 1; 2] (BuildQuery.result_count (len [3; 1; 2]) 5) sel ∧
          (0 < 5 → len sel = 5) ∧ (5 = 0 → sel ≡ₚ seq 0 (length [3; 1; 2]))) ∧
  (len [3; 1; 2] < 5 ∨ 5 ≤ - len [3; 1; 2] →
   BuildQuery.topk_indices (H := scalar_numpy) [3; 1; 2] 5 = Raises ValueError).
Proof.
  apply (topk_indices_cases (H := scalar_numpy) [3; 1; 2] 5). done.
Defined.

(** ** The query demonstration on a flat store *)

Lemma py_range_unit_length (n : Z) : 0 ≤ n → length (py_range 0 n 1) = Z.to_nat n.
Proof.
  intros Hn. unfold py_range, range_len. rewrite length_fmap, length_seq.
  cbn [Z.ltb Z.compare]. destruct (Z.ltb_spec 0 n).
  - rewrite Z.div_1_r. lia.
  - replace n with 0 by lia. reflexivity.
Qed.

Lemma results_of_in_range to_str sims titles source_urls texts idx :
  Forall (λ i, (i < length sims)%nat ∧ (i < length titles)%nat ∧
               (i < length source_urls)%nat ∧ (i < length texts)%nat) idx →
  BuildQuery.results_of to_str sims titles source_urls texts idx
  = Returns (result_at to_str sims titles source_urls texts <$> idx).
Proof.
  induction 1 as [|i idx (Hs & Ht & Hu & Hx) _ IH]; [done|].
  cbn [BuildQuery.results_of]. unfold BuildQuery.item.
  destruct (lookup_lt_is_Some_2 sims i Hs) as [s Es].
  destruct (lookup_lt_is_Some_2 titles i Ht) as [t Et].
  destruct (lookup_lt_is_Some_2 source_urls i Hu) as [u Eu].
  destruct (lookup_lt_is_Some_2 texts i Hx) as [x Ex].
  rewrite Es, Et, Eu, Ex, IH. cbn. unfold result_at.
  by rewrite (list_lookup_total_correct _ _ _ Es), (list_lookup_total_correct _ _ _ Et),
    (list_lookup_total_correct _ _ _ Eu), (list_lookup_total_correct _ _ _ Ex).
Qed.

Section FlatQuery.
Context `{Numpy}.
Variables (encode_query : string → list Z) (to_str : string → string).
Variables (w : World) (h5_path query : string) (f : H5File) (emb : ndarray).
Variables (texts titles source_urls : list string) (N D : Z).
Hypothesis Hfile : files w !! h5_path = Some f.
Hypothesis Hstore : FlatStoreOk f emb texts titles source_urls N D.
Hypothesis Hq : len (encode_query query) = D.

Lemma flat_rows_nonneg : 0 ≤ N.
Proof. destruct Hstore. pose proof (len_nonneg texts). lia. Qed.

Lemma flat_sims :
  ∃ sims, (M ← BuildQuery.nd_matrix emb; matvec M (encode_query query)) = Returns sims ∧
          len sims = N.
Proof.
  pose proof flat_rows_nonneg as HN. destruct Hstore.
  unfold BuildQuery.nd_matrix. rewrite flat_shape0.
  destruct (read_rows_returns emb (py_range 0 N 1) N D) as (M & HM & Hrows); try done.
  { apply py_range_bounds. lia. }
  rewrite HM. cbn [mbind outcome_bind].
  destruct (matvec_returns M (encode_query query)) as [sims Hs].
  { eapply Forall_impl; [exact Hrows|]. intros r Hr. simpl in Hr.
    rewrite Hr. unfold len in Hq. lia. }
  exists sims. split; [done|].
  unfold len. rewrite (matvec_length _ _ _ Hs), (read_rows_length _ _ _ HM).
  rewrite py_range_unit_length by done. lia.
Qed.

Lemma topk_cosine_unfold k :
  BuildQuery.topk_cosine_from_hdf5 encode_query to_str h5_path query k w
  = (sims ← (M ← BuildQuery.nd_matrix emb; matvec M (encode_query query));
     idx ← BuildQuery.topk_indices sims k;
     BuildQuery.results_of to_str sims titles source_urls texts idx).
Proof.
  destruct Hstore. unfold BuildQuery.topk_cosine_from_hdf5, get_dataset.
  rewrite Hfile, flat_embedding0, flat_texts0, flat_title0, flat_source_url0.
  cbn [mbind outcome_bind].
  destruct (BuildQuery.nd_matrix emb) as [M|e]; [|done]. cbn [mbind outcome_bind].
  by destruct (matvec M (encode_query query)).
Qed.

End FlatQuery.

(** X15.  [topk_cosine_from_hdf5] on a flat store of [N ≥ 1] rows whose
    four datasets have [N] entries each.  For [1 ≤ k ≤ N] it returns [k]
    results, in descending score order; each result carries the score of
    one row and the title, address and text stored at that same row, no
    row is returned twice, and no row left out scores higher than one
    returned.  For [k > N], as when the demonstration asks for five
    results from a file of fewer chunks, it raises [ValueError]. *)
Theorem topk_cosine_results `{Numpy} encode_query to_str w h5_path query k f emb
    texts titles source_urls N D :
  files w !! h5_path = Some f →
  FlatStoreOk f emb texts titles source_urls N D →
  len (encode_query query) = D →
  0 < N →
  ∃ sims,
    (M ← BuildQuery.nd_matrix emb; matvec M (encode_query query)) = Returns sims ∧
    len sims = N ∧
    (1 ≤ k ≤ N →
     ∃ sel,
       BuildQuery.topk_cosine_from_hdf5 encode_query to_str h5_path query k w
       = Returns (result_at to_str sims titles source_urls texts <$> sel) ∧
       len sel = k ∧ NoDup sel ∧
       Forall (λ i, 0 ≤ Z.of_nat i < N) sel ∧
       Sorted (λ x y, y ≤ x)
         (BuildQuery.score <$> (result_at to_str sims titles source_urls texts <$> sel)) ∧
       (∀ i j : nat, i ∈ sel → Z.of_nat j < N → j ∉ sel → sims !!! j ≤ sims !!! i)) ∧
    (N < k →
     BuildQuery.topk_cosine_from_hdf5 encode_query to_str h5_path query k w
     = Raises ValueError).
Proof.
  intros Hfile Hstore Hq HN.
  destruct (flat_sims encode_query query f emb texts titles source_urls N D Hstore Hq)
    as (sims & Hsims & Hlen).
  exists sims. split; [done|]. split; [done|].
  rewrite !(topk_cosine_unfold encode_query to_str w h5_path query f emb
              texts titles source_urls N D) by done.
  rewrite Hsims. cbn [mbind outcome_bind].
  assert (Hne : sims ≠ []) by (intros ->; unfold len in Hlen; simpl in Hlen; lia).
  split.
  - intros Hk.
    destruct (topk_indices_accepts sims k) as (sel & Hsel & Htopk); [lia..|].
    rewrite Hsel. cbn [mbind outcome_bind].
    assert (Hcount : BuildQuery.result_count (len sims) k = Z.to_nat k).
    { unfold BuildQuery.result_count. destruct (Z.ltb_spec 0 k); [done|lia]. }
    rewrite Hcount in Htopk.
    pose proof (topk_bound _ _ _ Htopk) as Hb.
    exists sel. split; [|split; [|split; [|split; [|split]]]].
    + apply results_of_in_range. destruct Hstore.
      eapply Forall_impl; [exact Hb|]. intros i Hi. simpl in Hi. unfold len in *. lia.
    + unfold len. rewrite (topk_length _ _ _ Htopk). lia.
    + apply Htopk.
    + eapply Forall_impl; [exact Hb|]. intros i Hi. simpl in Hi. unfold len in *. lia.
    + rewrite <- list_fmap_compose.
      exact (topk_descending _ _ _ Htopk).
    + intros i j Hi Hj Hout. apply (topk_dominates _ _ _ Htopk); [done| |done].
      unfold len in *. lia.
  - intros Hk. rewrite topk_indices_refuses; [done|done|lia].
Qed.

Lemma topk_cosine_results_witness :
  ∃ sims,
    (M ← BuildQuery.nd_matrix tie_embeddings;
     matvec (Numpy := scalar_numpy) M [0; 1]) = Returns sims ∧
    len sims = 3 ∧
    (1 ≤ 2 ≤ 3 →
     ∃ sel,
       BuildQuery.topk_cosine_from_hdf5 (H := scalar_numpy) (λ _, [0; 1]) id
         "flat.h5" "dagger" 2 flat_world
       = Returns (result_at id sims ["Play"; "Play"; "Play"] ["u"; "u"; "u"]
                    ["first"; "second"; "third"] <$> sel) ∧
       len sel = 2 ∧ NoDup sel ∧
       Forall (λ i, 0 ≤ Z.of_nat i < 3) sel ∧
       Sorted (λ x y, y ≤ x)
         (BuildQuery.score <$>
            (result_at id sims ["Play"; "Play"; "Play"] ["u"; "u"; "u"]
               ["first"; "second"; "third"] <$> sel)) ∧
       (∀ i j : nat, i ∈ sel → Z.of_nat j < 3 → j ∉ sel → sims !!! j ≤ sims !!! i)) ∧
    (3 < 2 →
     BuildQuery.topk_cosine_from_hdf5 (H := scalar_numpy) (λ _, [0; 1]) id
       "flat.h5" "dagger" 2 flat_world
     = Raises ValueError).
Proof.
  apply (topk_cosine_results (H := scalar_numpy) (λ _, [0; 1]) id flat_world "flat.h5"
           "dagger" 2 flat_store tie_embeddings ["first"; "second"; "third"]
           ["Play"; "Play"; "Play"] ["u"; "u"; "u"] 3 2).
  - reflexivity.
  - by split.
  - reflexivity.
  - lia.
Defined.

(** ** What [main] of the build script persists *)

Lemma create_chunked_fits name a f n d :
  shape a = [n; d] → 0 < n → 0 < d →
  BuildMain.create_chunked name a f = Returns (create_dataset name (DFloat32 a) f).
Proof.
  intros Hshape Hn Hd. unfold BuildMain.create_chunked. rewrite Hshape.
  destruct (Z.eqb_spec (Z.min n 1024) 0); [lia|].
  destruct (Z.eqb_spec d 0); [lia|]. reflexivity.
Qed.

Lemma persist_to_hdf5_fits out_path embeddings embeddings_normed texts doc_ids titles
    source_urls start_tokens end_tokens model_name model_dim license now w n d n' d' :
  shape embeddings = [n; d] → 0 < n → 0 < d →
  shape embeddings_normed = [n'; d'] → 0 < n' → 0 < d' →
  Forall (λ z, in_int32 z) doc_ids →
  Forall (λ z, in_int32 z) start_tokens →
  Forall (λ z, in_int32 z) end_tokens →
  BuildMain.persist_to_hdf5 out_path embeddings embeddings_normed texts doc_ids titles
    source_urls start_tokens end_tokens model_name model_dim license now w
  = (Returns (),
     put_file out_path
       (persisted_file embeddings embeddings_normed texts doc_ids titles source_urls
          start_tokens end_tokens model_name model_dim license now) w).
Proof.
  intros He Hn Hd He' Hn' Hd' Hdoc Hs Ht. unfold BuildMain.persist_to_hdf5.
  rewrite (create_chunked_fits _ _ _ n d), (create_chunked_fits _ _ _ n' d') by done.
  by rewrite !as_int32_fits.
Qed.

Lemma spec_window_count_pos (n max_tokens step : Z) :
  0 < n → 0 < step → step ≤ max_tokens →
  (0 < spec_window_count n max_tokens step)%nat.
Proof.
  intros Hn Hs Hm.
  destruct (spec_window_count_last n max_tokens step) as (Hc & _); [lia..|]. lia.
Qed.

Lemma spec_window_start_bounds (n max_tokens step : Z) (i : nat) :
  0 < n → 0 < step → step ≤ max_tokens →
  (i < spec_window_count n max_tokens step)%nat →
  0 ≤ Z.of_nat i * step < n.
Proof.
  intros Hn Hs Hm Hi.
  destruct (spec_window_count_last n max_tokens step) as (Hc & Hlast & _); [lia..|]. nia.
Qed.

Lemma nonempty_len_pos {A} (l : list A) : l ≠ [] → 0 < len l.
Proof. destruct l; [done|]. intros _. unfold len. simpl. lia. Qed.

Section Main.
Variables (env : BuildMain.Env) (args : BuildMain.Args) (w : World).
Variables (raw url : string) (N' D : Z).

Let tokenizer := BuildMain.load_tokenizer env (BuildMain.model args).
Let ids := encode tokenizer (BuildMain.strip_gutenberg_boilerplate env raw).
Let step := BuildMain.max_tokens args - BuildMain.stride args.
Let count := spec_window_count (len ids) (BuildMain.max_tokens args) step.
Let chunks := chunk_at tokenizer ids (BuildMain.max_tokens args) step <$> seq 0 count.
Let texts := (λ c : string * Z * Z, c.1.1) <$> chunks.
Let embeddings := BuildMain.embed_texts env (BuildMain.model args) texts.
Let embeddings_normed : ndarray :=
  {| shape := [N'; D]; cells := BuildMain.normalized_cells env embeddings |}.

Hypothesis Hdownload :
  BuildMain.download_gutenberg_text env (BuildMain.gutenberg_id args) = Returns (raw, url).
Hypothesis Hmax : 0 < BuildMain.max_tokens args.
Hypothesis Hstride : 0 ≤ BuildMain.stride args < BuildMain.max_tokens args.
Hypothesis Hids : ids ≠ [].

(** [main] up to the embedder: the chunks are the windows, and what
    follows depends on the embeddings. *)
Lemma main_chunked :
  BuildMain.main env args w
  = (let w4 := {| files := files w;
                  stdout := stdout w ++ take 4 (progress_lines args (len texts)) |} in
     match BuildMain.l2_normalize_rows env embeddings with
     | Raises e => (Raises e, w4)
     | Returns normed =>
         let w5 := {| files := files w;
                      stdout := stdout w ++ progress_lines args (len texts) |} in
         match shape embeddings with
         | _ :: d :: _ =>
             match BuildMain.persist_to_hdf5 (BuildMain.out args) embeddings normed texts
                     (replicate (length chunks) (BuildMain.gutenberg_id args))
                     (replicate (length chunks) (BuildMain.title args))
                     (replicate (length chunks) url)
                     ((λ c : string * Z * Z, c.1.2) <$> chunks)
                     ((λ c : string * Z * Z, c.2) <$> chunks)
                     (BuildMain.model args) d BuildMain.license_hint
                     (BuildMain.utcnow env +:+ "Z") w5 with
             | (Raises e, w') => (Raises e, w')
             | (Returns _, w') => (Returns (), print "Done." w')
             end
         | _ => (Raises IndexError, w5)
         end
     end).
Proof using Hdownload Hmax Hstride Hids.
  assert (Hn : 0 < len ids) by by apply nonempty_len_pos.
  assert (Hpos : (0 < count)%nat)
    by (apply spec_window_count_pos; unfold step; lia).
  unfold BuildMain.main. rewrite Hdownload.
  fold tokenizer. rewrite chunk_text_by_tokens_spec by done.
  fold ids step count chunks.
  assert (Hlen : (len chunks =? 0) = false).
  { apply Z.eqb_neq. unfold len, chunks. rewrite length_fmap, length_seq. lia. }
  rewrite Hlen. fold texts embeddings.
  unfold print, progress_lines. cbn [files stdout take].
  rewrite <- !app_assoc. reflexivity.
Qed.

Hypothesis Hfit : len ids < 2 ^ 31.
Hypothesis Hgid : in_int32 (BuildMain.gutenberg_id args).
Hypothesis Hshape : shape embeddings = [N'; D].
Hypothesis HN : 0 < N'.
Hypothesis HD : 0 < D.

Lemma main_runs :
  BuildMain.main env args w
  = (Returns (),
     print "Done."
       (put_file (BuildMain.out args)
          (persisted_file embeddings embeddings_normed texts
             (replicate (length chunks) (BuildMain.gutenberg_id args))
             (replicate (length chunks) (BuildMain.title args))
             (replicate (length chunks) url)
             ((λ c : string * Z * Z, c.1.2) <$> chunks)
             ((λ c : string * Z * Z, c.2) <$> chunks)
             (BuildMain.model args) D BuildMain.license_hint
             (BuildMain.utcnow env +:+ "Z"))
          {| files := files w;
             stdout := stdout w ++ progress_lines args (len texts) |})).
Proof using All.
  assert (Hn : 0 < len ids) by by apply nonempty_len_pos.
  rewrite main_chunked. cbv zeta.
  unfold BuildMain.l2_normalize_rows. fold embeddings. rewrite Hshape.
  fold embeddings_normed.
  rewrite (persist_to_hdf5_fits _ _ _ _ _ _ _ _ _ _ _ _ _ _ N' D N' D); try done.
  - apply Forall_replicate. exact Hgid.
  - unfold chunks. rewrite <- list_fmap_compose. apply Forall_fmap, Forall_forall.
    intros i Hi. apply elem_of_seq in Hi. simpl.
    pose proof (spec_window_start_bounds (len ids) (BuildMain.max_tokens args) step i).
    unfold step in *. unfold in_int32. apply Is_true_true_2, andb_true_intro. split.
    + apply Z.leb_le. lia.
    + apply Z.ltb_lt. lia.
  - unfold chunks. rewrite <- list_fmap_compose. apply Forall_fmap, Forall_forall.
    intros i Hi. apply elem_of_seq in Hi. simpl.
    pose proof (spec_window_start_bounds (len ids) (BuildMain.max_tokens args) step i).
    unfold step in *. unfold in_int32. apply Is_true_true_2, andb_true_intro. split.
    + apply Z.leb_le. lia.
    + apply Z.ltb_lt. lia.
Qed.

End Main.



(** ** The query demonstration after [main] *)

Lemma persisted_file_flat embeddings embeddings_normed texts doc_ids titles source_urls
    start_tokens end_tokens model_name model_dim license now N D :
  shape embeddings_normed = [N; D] → len (cells embeddings_normed) = N * D → 0 ≤ D →
  len texts = N → len titles = N → len source_urls = N →
  FlatStoreOk
    (persisted_file embeddings embeddings_normed texts doc_ids titles source_urls
       start_tokens end_tokens model_name model_dim license now)
    embeddings_normed texts titles source_urls N D.
Proof. intros. by split. Qed.

(** X17.  [main] followed by its query demonstration.  After a run of
    [main] on a text cut into [C] windows, with an embedding array of [C]
    rows, the demonstration on the file just written returns, for
    [1 ≤ k ≤ C], [k] results in descending score order, each carrying the
    title given on the command line and the address the download
    reported; for [k > C], so for the default [k = 5] on a text of fewer
    than five windows, it raises [ValueError] once the file is written. *)
Theorem main_then_query `{Numpy} env args w raw url D encode_query to_str query k :
  let tokenizer := BuildMain.load_tokenizer env (BuildMain.model args) in
  let ids := encode tokenizer (BuildMain.strip_gutenberg_boilerplate env raw) in
  let windows := spec_windows (len ids) (BuildMain.max_tokens args) (BuildMain.stride args) in
  let C := len windows in
  BuildMain.download_gutenberg_text env (BuildMain.gutenberg_id args) = Returns (raw, url) →
  0 < BuildMain.max_tokens args →
  0 ≤ BuildMain.stride args < BuildMain.max_tokens args →
  ids ≠ [] → len ids < 2 ^ 31 →
  in_int32 (BuildMain.gutenberg_id args) →
  ∀ texts,
  texts = (λ wd : Z * Z, decode_clean tokenizer (py_slice ids wd.1 wd.2)) <$> windows →
  shape (BuildMain.embed_texts env (BuildMain.model args) texts) = [C; D] →
  len (BuildMain.normalized_cells env
         (BuildMain.embed_texts env (BuildMain.model args) texts)) = C * D →
  0 < D →
  len (encode_query query) = D →
  ∃ w',
    BuildMain.main env args w = (Returns (), w') ∧
    (1 ≤ k ≤ C →
     ∃ results,
       BuildQuery.topk_cosine_from_hdf5 encode_query to_str (BuildMain.out args) query k w'
       = Returns results ∧
       len results = k ∧
       Sorted (λ x y, y ≤ x) (BuildQuery.score <$> results) ∧
       Forall (λ r, BuildQuery.title r = to_str (BuildMain.title args) ∧
                    BuildQuery.source_url r = to_str url) results) ∧
    (C < k →
     BuildQuery.topk_cosine_from_hdf5 encode_query to_str (BuildMain.out args) query k w'
     = Raises ValueError).
Proof.
  intros tokenizer ids windows C Hd Hm Hs Hids Hfit Hgid texts Htexts
    Hshape Hcells HD Hq.
  set (chunks := chunk_at tokenizer ids (BuildMain.max_tokens args)
         (BuildMain.max_tokens args - BuildMain.stride args) <$>
       seq 0 (spec_window_count (len ids) (BuildMain.max_tokens args)
                (BuildMain.max_tokens args - BuildMain.stride args))).
  assert (Htexts' : texts = (λ c : string * Z * Z, c.1.1) <$> chunks).
  { rewrite Htexts. unfold chunks, windows, spec_windows.
    by rewrite <- !list_fmap_compose. }
  assert (HC : Z.of_nat (length chunks) = C).
  { unfold C, len, chunks, windows, spec_windows. by rewrite !length_fmap. }
  assert (Hpos : 0 < C).
  { rewrite <- HC. unfold chunks. rewrite length_fmap, length_seq.
    pose proof (spec_window_count_pos (len ids) (BuildMain.max_tokens args)
                  (BuildMain.max_tokens args - BuildMain.stride args)
                  (nonempty_len_pos ids Hids)). lia. }
  rewrite Htexts' in Hshape, Hcells.
  pose proof (main_runs env args w raw url C D Hd Hm Hs Hids Hfit Hgid Hshape Hpos HD)
    as Hrun.
  fold tokenizer in Hrun. fold ids in Hrun. fold chunks in Hrun.
  set (normed := {| shape := [C; D];
                    cells := BuildMain.normalized_cells env
                      (BuildMain.embed_texts env (BuildMain.model args)
                         ((λ c : string * Z * Z, c.1.1) <$> chunks)) |}) in *.
  rewrite <- Htexts' in Hrun.
  eexists. split; [exact Hrun|].
  match type of Hrun with _ = (_, print _ (put_file _ ?file ?w0)) =>
    set (f := file) in *; set (w1 := print "Done." (put_file (BuildMain.out args) f w0)) in *
  end.
  assert (Hfile : files w1 !! BuildMain.out args = Some f) by apply lookup_insert_eq.
  assert (Hstore : FlatStoreOk f normed texts
                     (replicate (length chunks) (BuildMain.title args))
                     (replicate (length chunks) url) C D).
  { apply persisted_file_flat; try done; try lia.
    - rewrite Htexts'. unfold len. by rewrite length_fmap.
    - unfold len. by rewrite length_replicate.
    - unfold len. by rewrite length_replicate. }
  destruct (flat_sims encode_query query f normed texts _ _ C D Hstore Hq)
    as (sims & Hsims & Hlen).
  rewrite !(topk_cosine_unfold encode_query to_str w1 (BuildMain.out args) query f normed
              texts _ _ C D Hfile Hstore).
  rewrite Hsims. cbn [mbind outcome_bind].
  assert (Hne : sims ≠ []) by (intros ->; unfold len in Hlen; simpl in Hlen; lia).
  split.
  - intros Hk.
    destruct (topk_indices_accepts sims k) as (sel & Hsel & Htopk); [lia..|].
    rewrite Hsel. cbn [mbind outcome_bind].
    assert (Hcount : BuildQuery.result_count (len sims) k = Z.to_nat k).
    { unfold BuildQuery.result_count. destruct (Z.ltb_spec 0 k); [done|lia]. }
    rewrite Hcount in Htopk.
    pose proof (topk_bound _ _ _ Htopk) as Hb.
    eexists. split; [|split; [|split]].
    + apply results_of_in_range.
      eapply Forall_impl; [exact Hb|]. intros i Hi. simpl in Hi.
      rewrite !length_replicate. rewrite Htexts', length_fmap. unfold len in *. lia.
    + unfold len. rewrite length_fmap, (topk_length _ _ _ Htopk). lia.
    + rewrite <- list_fmap_compose. exact (topk_descending _ _ _ Htopk).
    + apply Forall_fmap. eapply Forall_impl; [exact Hb|]. intros i Hi. simpl in *.
      rewrite !lookup_total_replicate_2 by (unfold len in *; lia). done.
  - intros Hk. rewrite topk_indices_refuses; [done|done|lia].
Qed.

Lemma main_then_query_witness :
  ∃ w',
    BuildMain.main hamlet_env short_args empty_world = (Returns (), w') ∧
    (1 ≤ 5 ≤ len (spec_windows 18 8 2) →
     ∃ results,
       BuildQuery.topk_cosine_from_hdf5 (H := scalar_numpy) (λ _, [0; 1]) id
         "data/hamlet.h5" "dagger" 5 w'
       = Returns results ∧
       len results = 5 ∧
       Sorted (λ x y, y ≤ x) (BuildQuery.score <$> results) ∧
       Forall (λ r, BuildQuery.title r = id "Hamlet" ∧
                    BuildQuery.source_url r = id "http://example.org/100.txt") results) ∧
    (len (spec_windows 18 8 2) < 5 →
     BuildQuery.topk_cosine_from_hdf5 (H := scalar_numpy) (λ _, [0; 1]) id
       "data/hamlet.h5" "dagger" 5 w'
     = Raises ValueError).
Proof.
  eapply (main_then_query (H := scalar_numpy) hamlet_env short_args empty_world
           "to be or not to be" "http://example.org/100.txt" 2 (λ _, [0; 1]) id
           "dagger" 5);
    try reflexivity; try done.
Defined.

(** ** The blocked scan over any number of blocks *)

Lemma read_rows_row_of embs sl N D :
  shape embs = [N; D] → Forall (λ r, 0 ≤ r < N) sl →
  read_rows embs sl = Returns (row_of embs D <$> sl).
Proof.
  intros Hshape. induction 1 as [|i sl Hi _ IH]; [done|].
  cbn [read_rows]. unfold nd_row. rewrite Hshape.
  destruct (Z.leb_spec 0 i), (Z.ltb_spec i N); try lia. cbn [andb].
  by rewrite IH.
Qed.

Section BlockedScan.
Context `{Numpy}.
Variables (score_of : list Z → list Z → Z).
Variables (embs : ndarray) (qv : list Z) (rows : list Z) (N D : Z).
Hypothesis Hrowwise :
  ∀ M q s, matvec M q = Returns s → s = (λ r, score_of r q) <$> M.
Hypothesis Hshape : shape embs = [N; D].
Hypothesis Hcells : len (cells embs) = N * D.
Hypothesis Hdim : len qv = D.
Hypothesis Hrows : Forall (λ r, 0 ≤ r < N) rows.

Let g (i : Z) : Z := score_of (row_of embs D i) qv.
Let B : nat := Z.to_nat block.

Lemma slice_scores (sl : list Z) :
  Forall (λ r, 0 ≤ r < N) sl →
  (M ← read_rows embs sl; matvec M qv) = Returns (g <$> sl).
Proof using All.
  intros Hsl. pose proof (len_nonneg qv) as HD.
  destruct (read_rows_returns embs sl N D) as (M & HM & HMrows); [done|done|lia|done|].
  rewrite HM. cbn [mbind outcome_bind].
  destruct (matvec_returns M qv) as [s Hs].
  { eapply Forall_impl; [exact HMrows|]. intros r Hr. simpl in *. unfold len in Hdim. lia. }
  rewrite Hs. f_equal. rewrite (Hrowwise _ _ _ Hs).
  rewrite (read_rows_row_of embs sl N D) in HM by done. injection HM as <-.
  by rewrite <- list_fmap_compose.
Qed.

Lemma scan_loop_blocks (m t : nat) :
  (∀ i : nat, (t ≤ i < t + m)%nat → (i * B < length rows)%nat) →
  scan_loop embs qv rows ((λ i : nat, Z.of_nat i * block) <$> seq t m)
    ((g <$> take (t * B) rows) ++ replicate (length rows - t * B) 0)
  = Returns ((g <$> take ((t + m) * B) rows)
               ++ replicate (length rows - (t + m) * B) 0).
Proof using All.
  revert t. induction m as [|m IH]; intros t Hin.
  { cbn. by rewrite Nat.add_0_r. }
  cbn [seq fmap list_fmap scan_loop].
  assert (HB : (0 < B)%nat) by (unfold B, block; lia).
  assert (HBz : Z.of_nat B = block) by (unfold B, block; lia).
  assert (Ht : (t * B < length rows)%nat) by (apply Hin; lia).
  assert (Hsl : py_slice rows (Z.of_nat t * block) (Z.of_nat t * block + block)
                = take B (drop (t * B) rows)).
  { rewrite py_slice_take_drop by (unfold block; lia). fold B. f_equal. f_equal. lia. }
  rewrite Hsl.
  set (sl := take B (drop (t * B) rows)).
  assert (Hsl_rows : Forall (λ r, 0 ≤ r < N) sl) by (by apply Forall_take, Forall_drop).
  pose proof (slice_scores sl Hsl_rows) as Hscore.
  destruct (read_rows embs sl) as [M|e]; [|done]. cbn [mbind outcome_bind] in Hscore |- *.
  rewrite Hscore. cbn [mbind outcome_bind].
  assert (Hsl_len : length sl = (B `min` (length rows - t * B))%nat)
    by (unfold sl; by rewrite length_take, length_drop).
  set (X := g <$> take (t * B) rows).
  assert (HX : length X = (t * B)%nat)
    by (unfold X; rewrite length_fmap, length_take; lia).
  unfold assign_slice.
  assert (Hcheck : len (py_slice (X ++ replicate (length rows - t * B) 0)
                          (Z.of_nat t * block) (Z.of_nat t * block + len sl))
                   = len (g <$> sl)).
  { rewrite py_slice_length by (unfold len, block; lia).
    unfold len. rewrite length_app, length_replicate, HX, length_fmap. lia. }
  rewrite Hcheck, Z.eqb_refl. cbn [mbind outcome_bind].
  rewrite adjust_index_id
    by (unfold len; rewrite length_app, length_replicate, HX; lia).
  replace (Z.to_nat (Z.of_nat t * block)) with (length X + 0)%nat by (rewrite HX; lia).
  rewrite list_inserts_app_r.
  replace (length rows - t * B)%nat
    with (length (g <$> sl) + (length rows - S t * B))%nat
    by (rewrite length_fmap, Hsl_len; lia).
  rewrite replicate_add, list_inserts_0_r by (by rewrite length_replicate).
  rewrite app_assoc. unfold X. rewrite <- fmap_app. unfold sl.
  rewrite take_take_drop.
  replace (t * B + B)%nat with (S t * B)%nat by lia.
  rewrite IH by (intros i Hi; apply Hin; lia).
  by replace (S t + m)%nat with (t + S m)%nat by lia.
Qed.

Lemma scan_scores_rowwise : scan_scores embs qv rows = Returns (g <$> rows).
Proof using All.
  unfold scan_scores, range. change (block =? 0) with false. cbn [mbind outcome_bind].
  pose proof (len_nonneg rows) as Hn.
  destruct (Z.le_gt_cases (len rows) 0) as [Hz|Hpos].
  { assert (rows = []) as -> by (apply length_zero_iff_nil; unfold len in *; lia).
    rewrite py_range_nil by (by unfold block). reflexivity. }
  rewrite py_range_pos by (by unfold block).
  set (c := Z.to_nat ((len rows - 1) / block + 1)).
  assert (Hq : 0 ≤ (len rows - 1) / block) by (apply Z.div_pos; unfold block; lia).
  assert (Hlow : block * ((len rows - 1) / block) ≤ len rows - 1)
    by (apply Z.mul_div_le; by unfold block).
  assert (Hhigh : len rows - 1 < block * Z.succ ((len rows - 1) / block))
    by (apply Z.mul_succ_div_gt; by unfold block).
  assert (HBz : Z.of_nat B = block) by (unfold B, block; lia).
  pose proof (scan_loop_blocks c 0) as Hloop.
  rewrite Nat.mul_0_l, take_0, Nat.sub_0_r in Hloop. cbn [fmap list_fmap app] in Hloop.
  rewrite Hloop.
  - rewrite Nat.add_0_l, take_ge, (proj2 (Nat.sub_0_le _ _)), app_nil_r; [done| |];
      unfold c, len in *; nia.
  - intros i Hi. unfold c, len in *. nia.
Qed.

End BlockedScan.

Lemma matvec_exact_rowwise M q s :
  matvec_exact M q = Returns s → s = (λ r, dot r q) <$> M.
Proof. unfold matvec_exact. case_match; [|done]. by intros [= <-]. Qed.

(** X18.  The blocked scan, for any number of blocks of 131072 rows.
    When the matrix product scores each row by itself, the scan returns
    one score per candidate, the [j]-th being the score of the stored row
    of the [j]-th candidate, and so the same list as one product over all
    candidate rows at once. *)
Theorem blocked_scan_is_rowwise `{Numpy} (score_of : list Z → list Z → Z)
    embs qv rows N D :
  (∀ M q s, matvec M q = Returns s → s = (λ r, score_of r q) <$> M) →
  shape embs = [N; D] → len (cells embs) = N * D → len qv = D →
  Forall (λ r, 0 ≤ r < N) rows →
  scan_scores embs qv rows
  = Returns ((λ i, score_of (row_of embs D i) qv) <$> rows) ∧
  scan_scores embs qv rows = (M ← read_rows embs rows; matvec M qv).
Proof.
  intros Hrowwise Hshape Hcells Hdim Hrows.
  rewrite (scan_scores_rowwise score_of embs qv rows N D) by done.
  split; [done|]. symmetry.
  by apply (slice_scores score_of embs qv rows N D).
Qed.

Lemma blocked_scan_is_rowwise_witness :
  scan_scores (H := scalar_numpy) tie_embeddings [0; 1] [0; 1; 2]
  = Returns ((λ i, dot (row_of tie_embeddings 2 i) [0; 1]) <$> [0; 1; 2]) ∧
  scan_scores (H := scalar_numpy) tie_embeddings [0; 1] [0; 1; 2]
  = (M ← read_rows tie_embeddings [0; 1; 2]; matvec (Numpy := scalar_numpy) M [0; 1]).
Proof.
  apply (blocked_scan_is_rowwise (H := scalar_numpy) dot tie_embeddings [0; 1] [0; 1; 2] 3 2).
  - exact matvec_exact_rowwise.
  - reflexivity.
  - reflexivity.
  - reflexivity.
  - repeat constructor; lia.
Defined.

(** ** How [main] of the build script fails *)

(** X19.  The failures of [main], in the order the code meets them.  A
    failed download, parameters the chunker rejects ([AssertionError]) and
    a text without tokens ([RuntimeError]) leave the files as they were.
    So does an embedding array of fewer than two dimensions: it makes
    [l2_normalize_rows] raise numpy's [AxisError], before "Writing HDF5"
    is printed.  A two-dimensional embedding array without rows or of
    width zero passes the normalisation and is refused by h5py when the
    first dataset is created, with [ValueError]: the output file has been
    opened for writing by then, and what was at the output path is
    replaced by an empty file.  The same happens to an array of more than
    two dimensions, whose chunk shape has not the rank of the data. *)
Theorem main_failure_modes env args w :
  match BuildMain.download_gutenberg_text env (BuildMain.gutenberg_id args) with
  | Raises e => ∃ w1, BuildMain.main env args w = (Raises e, w1) ∧ files w1 = files w
  | Returns (raw, url) =>
      let tokenizer := BuildMain.load_tokenizer env (BuildMain.model args) in
      let ids := encode tokenizer (BuildMain.strip_gutenberg_boilerplate env raw) in
      let windows :=
        spec_windows (len ids) (BuildMain.max_tokens args) (BuildMain.stride args) in
      let texts :=
        (λ wd : Z * Z, decode_clean tokenizer (py_slice ids wd.1 wd.2)) <$> windows in
      let embeddings := BuildMain.embed_texts env (BuildMain.model args) texts in
      if negb ((0 <? BuildMain.max_tokens args) && (0 <=? BuildMain.stride args)
               && (BuildMain.stride args <? BuildMain.max_tokens args))
      then ∃ w1, BuildMain.main env args w = (Raises AssertionError, w1) ∧
                 files w1 = files w
      else
        match ids with
        | [] => ∃ w1, BuildMain.main env args w = (Raises RuntimeError, w1) ∧
                      files w1 = files w
        | _ :: _ =>
            match shape embeddings with
            | [] | [_] =>
                ∃ w1, BuildMain.main env args w = (Raises AxisError, w1) ∧
                      files w1 = files w ∧
                      stdout w1 = stdout w ++ take 4 (progress_lines args (len texts))
            | [N'; D] =>
                N' = 0 ∨ D = 0 →
                ∃ w1, BuildMain.main env args w = (Raises ValueError, w1) ∧
                      files w1 !! BuildMain.out args = Some h5_empty ∧
                      (∀ p, p ≠ BuildMain.out args → files w1 !! p = files w !! p) ∧
                      stdout w1 = stdout w ++ progress_lines args (len texts)
            | _ =>
                ∃ w1, BuildMain.main env args w = (Raises ValueError, w1) ∧
                      files w1 !! BuildMain.out args = Some h5_empty ∧
                      (∀ p, p ≠ BuildMain.out args → files w1 !! p = files w !! p) ∧
                      stdout w1 = stdout w ++ progress_lines args (len texts)
            end
        end
  end.
Proof.
  destruct (BuildMain.download_gutenberg_text env (BuildMain.gutenberg_id args))
    as [[raw url]|e] eqn:Hd.
  2: { unfold BuildMain.main. rewrite Hd. by eexists. }
  cbv zeta.
  destruct (negb ((0 <? BuildMain.max_tokens args) && (0 <=? BuildMain.stride args)
                  && (BuildMain.stride args <? BuildMain.max_tokens args))) eqn:Hcheck.
  { unfold BuildMain.main. rewrite Hd. unfold BuildScript.chunk_text_by_tokens.
    rewrite Hcheck. by eexists. }
  assert (Hm : 0 < BuildMain.max_tokens args ∧
               0 ≤ BuildMain.stride args < BuildMain.max_tokens args).
  { apply negb_false_iff in Hcheck. apply andb_prop in Hcheck as [Hc H3].
    apply andb_prop in Hc as [H1 H2].
    apply Z.ltb_lt in H1, H3. apply Z.leb_le in H2. lia. }
  destruct Hm as [Hm Hs].
  destruct (encode (BuildMain.load_tokenizer env (BuildMain.model args))
              (BuildMain.strip_gutenberg_boilerplate env raw)) as [|t ts] eqn:Hids.
  { by apply (main_rejects_no_chunks env args w raw url). }
  assert (Hne : encode (BuildMain.load_tokenizer env (BuildMain.model args))
                  (BuildMain.strip_gutenberg_boilerplate env raw) ≠ [])
    by (by rewrite Hids).
  pose proof (main_chunked env args w raw url Hd Hm Hs Hne) as Hrun.
  rewrite Hids in Hrun.
  set (ids := t :: ts) in *.
  set (tokenizer := BuildMain.load_tokenizer env (BuildMain.model args)) in *.
  set (chunks := chunk_at tokenizer ids (BuildMain.max_tokens args)
         (BuildMain.max_tokens args - BuildMain.stride args) <$>
       seq 0 (spec_window_count (len ids) (BuildMain.max_tokens args)
                (BuildMain.max_tokens args - BuildMain.stride args))) in *.
  assert (Htexts : (λ wd : Z * Z, decode_clean tokenizer (py_slice ids wd.1 wd.2)) <$>
                     spec_windows (len ids) (BuildMain.max_tokens args)
                       (BuildMain.stride args)
                   = (λ c : string * Z * Z, c.1.1) <$> chunks).
  { unfold chunks, spec_windows. by rewrite <- !list_fmap_compose. }
  rewrite Htexts. rewrite Hrun. cbv zeta.
  unfold BuildMain.l2_normalize_rows.
  destruct (shape (BuildMain.embed_texts env (BuildMain.model args)
                     ((λ c : string * Z * Z, c.1.1) <$> chunks)))
    as [|N' [|D [|? ?]]] eqn:Hshape; try done.
  - by eexists.
  - by eexists.
  - intros Hzero. unfold BuildMain.persist_to_hdf5, BuildMain.create_chunked.
    rewrite Hshape.
    assert (Hz : (Z.min N' 1024 =? 0) || (D =? 0) = true).
    { apply orb_true_iff. destruct Hzero as [-> | ->]; [left|right]; reflexivity. }
    rewrite Hz. eexists. split; [reflexivity|]. split; [apply lookup_insert_eq|].
    split; [|reflexivity].
    intros p Hp. cbn. by rewrite lookup_insert_ne.
  - unfold BuildMain.persist_to_hdf5, BuildMain.create_chunked.
    rewrite Hshape. eexists. split; [reflexivity|]. split; [apply lookup_insert_eq|].
    split; [|reflexivity].
    intros p Hp. cbn. by rewrite lookup_insert_ne.
Qed.

Lemma main_failure_modes_witness :
  ∃ w1, BuildMain.main zero_width_env short_args tie_world = (Raises ValueError, w1) ∧
        files w1 !! "data/hamlet.h5" = Some h5_empty ∧
        (∀ p, p ≠ "data/hamlet.h5" → files w1 !! p = files tie_world !! p) ∧
        stdout w1 = stdout tie_world ++ progress_lines short_args 3.
Proof.
  exact (main_failure_modes zero_width_env short_args tie_world (or_intror eq_refl)).
Defined.
